(** * BoosterEntry AI: dashboard front end, persisted schema and the
      conversational-session design, verified over a shallow embedding.

    The file is organised as the repository is:
    - [JS]              the fragment of JavaScript values the pages rely on;
    - [Routes]          the idle-timeout route guard ([ProtectedRoute]);
    - [DashboardPage]   the KPI cards of the dashboard overview;
    - [VehicleHirePage] the list of documents ready for vehicle hire;
    - [Schema]          the tables of [migrations/*.sql];
    - [Aggregator], [Decimal], [Orchestrator]
                        the status rollup, the numbers a driver types and
                        the session state machine; their implementation is
                        the Flask back end and the Telegram listener, which
                        are not among the sources, so these follow the
                        specification;
    - [Persistence]     sessions as rows of [telegram_pending_sessions];
    - [Examples]        concrete stores and rows;
    - [Text], [Json]    white space in strings, and JSON data with nested
                        objects;
    - [InvoiceHelpers]  the invoice and consignment helpers of the vehicle
                        hire, monitoring and human review pages;
    - [Web], [StrictGuard], [Layout], [LoginPage], [IdleGuard]
                        storage and navigation, the strict route guard,
                        the logout button, the login page and the
                        inactivity effect of the idle-timeout guard;
    - [MonitoringPage]  the filters the monitoring page applies itself;
    - [FixReviewPage]   key matching and failed fields of the review form;
    - [UploadPage]      the list of files to upload;
    - [Samples]         concrete pages, storages and files.
    The properties come after the definitions. *)

From Stdlib Require Import ZArith Ascii String List Bool Lia.
From stdpp Require Import base option gmap strings list fin_maps pretty.

Local Open Scope string_scope.
Local Open Scope Z_scope.

(* ===================================================================== *)
(** ** JavaScript values                                                  *)
(* ===================================================================== *)
Module JS.

(** A JavaScript number: NaN, the two infinities, or a finite double
    [m * 2^e].  Range and rounding of doubles play no role in the code
    embedded here, which only converts, tests for finiteness and displays. *)
Inductive number : Type :=
| NaN
| PosInfinity
| NegInfinity
| Finite (m e : Z).

Definition zero : number := Finite 0 0.
Definition of_Z (z : Z) : number := Finite z 0.

(** [Number.isFinite(n)] *)
Definition isFinite (n : number) : bool :=
  match n with
  | Finite _ _ => true
  | _ => false
  end.

(** The values that reach the pages: JSON data, [undefined] for a missing
    property, and objects (arrays included), which carry the string their
    [ToPrimitive] conversion yields. *)
Inductive value : Type :=
| Undefined
| Null
| Bool (b : bool)
| Num (n : number)
| Str (s : string)
| Object (repr : string).

(** [a ?? b] *)
Definition nullish (a b : value) : value :=
  match a with
  | Undefined | Null => b
  | _ => a
  end.

Definition is_nullish (a : value) : bool :=
  match a with
  | Undefined | Null => true
  | _ => false
  end.

(** ToBoolean *)
Definition truthy (a : value) : bool :=
  match a with
  | Undefined | Null => false
  | Bool b => b
  | Num NaN => false
  | Num (Finite m _) => negb (m =? 0)
  | Num _ => true
  | Str s => negb (String.eqb s "")
  | Object _ => true
  end.

(** [a || b] *)
Definition or_else (a b : value) : value := if truthy a then a else b.

(** [v === "lit"] for a string literal *)
Definition strict_eq_str (v : value) (lit : string) : bool :=
  match v with
  | Str s => String.eqb s lit
  | _ => false
  end.

(** An object as the pages read it: property lookup gives [undefined] for a
    missing key. *)
Definition get (o : gmap string value) (k : string) : value :=
  default Undefined (o !! k).

(** [String.prototype.toLowerCase] on the letters A-Z.  Characters outside
    ASCII are left as they are: no such character lowercases to one of the
    characters of the literals compared against below. *)
Definition lower_ascii (c : ascii) : ascii :=
  let n := N_of_ascii c in
  if ((65 <=? n) && (n <=? 90))%N then ascii_of_N (n + 32) else c.

Fixpoint toLowerCase (s : string) : string :=
  match s with
  | EmptyString => EmptyString
  | String c r => String (lower_ascii c) (toLowerCase r)
  end.

(** [s.startsWith(p)] *)
Definition startsWith (s p : string) : bool := String.prefix p s.

(** The method call [v.toLowerCase()]: [None] stands for the [TypeError]
    thrown when [v] has no such method. *)
Definition call_toLowerCase (v : value) : option string :=
  match v with
  | Str s => Some (toLowerCase s)
  | _ => None
  end.

Section Conversion.
(** [Number(s)] on a string follows the StringNumericLiteral grammar of the
    language, which is not code of this repository. *)
Variable StringToNumber : string -> number.

(** [Number(v)] *)
Definition ToNumber (v : value) : number :=
  match v with
  | Undefined => NaN
  | Null => zero
  | Bool true => of_Z 1
  | Bool false => zero
  | Num n => n
  | Str s => StringToNumber s
  | Object repr => StringToNumber repr
  end.
End Conversion.

End JS.

(* ===================================================================== *)
(** ** The idle-timeout route guard                                       *)
(* ===================================================================== *)
Module Routes.
Import JS.

(** What [useLocation()] hands to the guard. *)
Record Location := { pathname : value }.

Inductive Rendered : Type :=
| RenderChildren
| NavigateTo (to : string) (from : option Location) (replace : bool).

(** [location?.pathname] *)
Definition optional_pathname (location : option Location) : value :=
  match location with
  | Some l => pathname l
  | None => Undefined
  end.

(** The body of the [try] block: [Some true] when it returns the children,
    [Some false] when it falls through, [None] when it throws. *)
Definition upload_exception (location : option Location) : option bool :=
  path ← call_toLowerCase (or_else (optional_pathname location) (Str ""));
  Some (String.eqb path "/upload" || startsWith path "/upload/").

(** The render result of [ProtectedRoute({ children })], given
    [localStorage.getItem("isLoggedIn")] and the current location.  The two
    effects of the component return at once unless [isLoggedIn] is
    ["true"], and take no part in what is rendered. *)
Definition ProtectedRoute (isLoggedIn : option string) (location : option Location)
  : Rendered :=
  if negb (bool_decide (isLoggedIn = Some "true")) then
    match upload_exception location with
    | Some true => RenderChildren
    | Some false | None => NavigateTo "/login" location true
    end
  else RenderChildren.

End Routes.

(* ===================================================================== *)
(** ** Dashboard overview: KPI cards                                      *)
(* ===================================================================== *)
Module DashboardPage.
Import JS.

Section Cards.
Variable StringToNumber : string -> number.

(** [getNumeric] *)
Definition getNumeric (v : value) : number :=
  if is_nullish v then zero
  else
    let n := ToNumber StringToNumber v in
    if isFinite n then n else zero.

(** [duplicateValue] *)
Definition duplicateValue (summary : gmap string value) : number :=
  getNumeric
    (nullish (nullish (nullish (nullish (nullish
       (get summary "duplicate")
       (get summary "failed"))
       (get summary "duplicates"))
       (get summary "duplicate_count"))
       (get summary "Duplicate"))
       (Num (of_Z 0))).

(** The reading of the fallback chain as a search: the first candidate, in
    order, that is neither [null] nor [undefined], and [dflt] when there is
    none.  Used to state what [duplicateValue] computes. *)
Fixpoint first_present (candidates : list value) (dflt : value) : value :=
  match candidates with
  | [] => dflt
  | c :: rest => if is_nullish c then first_present rest dflt else c
  end.

Record Card := { title : string; card_value : value }.

(** The array literal mapped over in the KPI grid. *)
Definition kpiCards (summary : gmap string value) : list Card :=
  [ {| title := "Total Documents"; card_value := get summary "total_docs" |};
    {| title := "Completed";       card_value := get summary "completed" |};
    {| title := "Duplicate";       card_value := Num (duplicateValue summary) |};
    {| title := "Human Review";    card_value := get summary "human_review" |} ].

(** [{card.value ?? 0}] *)
Definition shown (c : Card) : value := nullish (card_value c) (Num (of_Z 0)).

(** What the grid prints under a given title. *)
Definition shownUnder (t : string) (summary : gmap string value) : option value :=
  shown <$> List.find (fun c => String.eqb (title c) t) (kpiCards summary).

End Cards.
End DashboardPage.

(* ===================================================================== *)
(** ** Vehicle hire page                                                  *)
(* ===================================================================== *)
Module VehicleHirePage.
Import JS.

(** The predicate of [allDocs.filter(...)] in [fetchVehicleHireData]. *)
Definition readyForVehicleHire (doc : gmap string value) : bool :=
  strict_eq_str (get doc "data_extraction_status") "Completed" &&
  strict_eq_str (get doc "erp_entry_status") "Completed" &&
  strict_eq_str (get doc "vehicle_hire_status") "Not Started".

(** The list handed to [setDocs]: one table row, with its Send control, per
    element. *)
Definition fetchVehicleHireData (allDocs : list (gmap string value))
  : list (gmap string value) :=
  List.filter readyForVehicleHire allDocs.

(** A session start is offered for the documents that have a row. *)
Definition sessionStartOffered (allDocs : list (gmap string value))
  (doc : gmap string value) : Prop :=
  In doc (fetchVehicleHireData allDocs).



End VehicleHirePage.

(* ===================================================================== *)
(** ** Persisted schema ([migrations/*.sql])                              *)
(* ===================================================================== *)
Module Schema.

Inductive sqltype : Type :=
| SERIAL
| INTEGER
| VARCHAR (n : nat)
| DECIMAL (precision scale : nat)
| DATE
| TIMESTAMP.

(** A stored value.  A [DECIMAL] is fixed-point: [VDec u s] is [u / 10^s]. *)
Inductive sqlval : Type :=
| VNull
| VInt (z : Z)
| VText (s : string)
| VDec (unscaled : Z) (scale : nat)
| VDate (day : Z)
| VTime (t : Z).

Inductive sqldefault : Type :=
| NoDefault
| DefaultText (s : string)
| CURRENT_TIMESTAMP
| NextSerial.

Record column := {
  col_name : string;
  col_type : sqltype;
  not_null : bool;
  col_default : sqldefault;
  references : option (string * string)
}.

Abbreviation row := (gmap string sqlval).

(** A table: its columns, its key and its [CHECK] constraints.  Indexes
    do not bear on which rows are accepted and are left out. *)
Record table := {
  tbl_name : string;
  columns : list column;
  primary_key : string;
  checks : list (row -> bool)
}.

Definition col (name : string) (ty : sqltype) : column :=
  {| col_name := name; col_type := ty; not_null := false;
     col_default := NoDefault; references := None |}.
Definition NOT_NULL (c : column) : column :=
  {| col_name := col_name c; col_type := col_type c; not_null := true;
     col_default := col_default c; references := references c |}.
Definition DEFAULT (d : sqldefault) (c : column) : column :=
  {| col_name := col_name c; col_type := col_type c; not_null := not_null c;
     col_default := d; references := references c |}.
Definition REFERENCES (t k : string) (c : column) : column :=
  {| col_name := col_name c; col_type := col_type c; not_null := not_null c;
     col_default := col_default c; references := Some (t, k) |}.
(** [SERIAL PRIMARY KEY] *)
Definition serial_key (name : string) : column :=
  NOT_NULL (DEFAULT NextSerial (col name SERIAL)).

(** [create_telegram_sessions_table.sql] *)
Definition telegram_pending_sessions : table :=
  {| tbl_name := "telegram_pending_sessions";
     columns :=
       [ serial_key "id";
         REFERENCES "doc_processing_log" "doc_id" (NOT_NULL (col "doc_id" INTEGER));
         NOT_NULL (col "phone_no" (VARCHAR 20));
         col "chat_id" (VARCHAR 50);
         col "manifest_no" (VARCHAR 50);
         col "advance_amount" (DECIMAL 15 2);
         col "qty" (DECIMAL 15 3);
         DEFAULT (DefaultText "pending") (col "status" (VARCHAR 20));
         DEFAULT CURRENT_TIMESTAMP (col "created_at" TIMESTAMP);
         DEFAULT CURRENT_TIMESTAMP (col "updated_at" TIMESTAMP) ];
     primary_key := "id";
     checks := [] |}.

(** The values the comment on the [status] column names. *)
Definition documented_statuses : list string :=
  ["pending"; "waiting_advance"; "waiting_qty"; "completed"].

(** [create_vehicle_hire_table.sql] *)
Definition vehicle_hire : table :=
  {| tbl_name := "vehicle_hire";
     columns :=
       [ serial_key "id";
         REFERENCES "doc_processing_log" "doc_id" (NOT_NULL (col "doc_id" INTEGER));
         NOT_NULL (col "manifest_no" (VARCHAR 100));
         NOT_NULL (col "advance_amount" (DECIMAL 10 2));
         NOT_NULL (col "payable_at" (VARCHAR 100));
         NOT_NULL (col "paid_by" (VARCHAR 50));
         NOT_NULL (col "account" (VARCHAR 200));
         NOT_NULL (col "paymode" (VARCHAR 50));
         NOT_NULL (col "filling_station" (VARCHAR 200));
         NOT_NULL (col "slip_no" (VARCHAR 50));
         NOT_NULL (col "slip_date" DATE);
         NOT_NULL (col "qty" (DECIMAL 10 3));
         NOT_NULL (col "rate" (DECIMAL 10 2));
         col "amount" (DECIMAL 10 2);
         DEFAULT CURRENT_TIMESTAMP (col "created_at" TIMESTAMP);
         DEFAULT CURRENT_TIMESTAMP (col "updated_at" TIMESTAMP) ];
     primary_key := "id";
     checks := [] |}.

Definition column_names (t : table) : list string := map col_name (columns t).

(** Does a non-null value fit a column type?  [DECIMAL(p,s)] holds [p]
    digits in all, [s] of them after the point. *)
Definition fits (ty : sqltype) (v : sqlval) : bool :=
  match ty, v with
  | SERIAL, VInt z | INTEGER, VInt z => (- 2 ^ 31 <=? z) && (z <? 2 ^ 31)
  | VARCHAR n, VText s => (String.length s <=? n)%nat
  | DECIMAL p s, VDec u s' => (s' =? s)%nat && (Z.abs u <? 10 ^ Z.of_nat p)
  | DATE, VDate _ => true
  | TIMESTAMP, VTime _ => true
  | _, _ => false
  end.

Definition column_accepts (c : column) (v : sqlval) : bool :=
  match v with
  | VNull => negb (not_null c)
  | _ => fits (col_type c) v
  end.

Definition cell (r : row) (name : string) : sqlval := default VNull (r !! name).

(** Foreign keys are checked against the keys present in
    [doc_processing_log]. *)
Definition reference_holds (docs : gset Z) (c : column) (v : sqlval) : bool :=
  match references c, v with
  | Some _, VInt z => bool_decide (z ∈ docs)
  | _, _ => true
  end.

(** A row passes every constraint the table declares on a row taken by
    itself: the types, [NOT NULL], [REFERENCES] and [CHECK].  The
    [PRIMARY KEY], which looks at the other rows, is [key_free]. *)
Definition accepts (docs : gset Z) (t : table) (r : row) : bool :=
  forallb (fun c => column_accepts c (cell r (col_name c))
                    && reference_holds docs c (cell r (col_name c))) (columns t)
  && forallb (fun chk => chk r) (checks t).

#[global] Instance sqlval_eq_dec : EqDecision sqlval.
Proof. solve_decision. Defined.

(** [PRIMARY KEY]: the key of a new row is the key of no row the table
    holds. *)
Definition key_free (t : table) (rows : list row) (r : row) : bool :=
  forallb
    (fun r' => negb (bool_decide (cell r' (primary_key t) = cell r (primary_key t))))
    rows.

(** The [INSERT] of a row into a table that holds [rows] goes through. *)
Definition inserts (docs : gset Z) (t : table) (rows : list row) (r : row) : bool :=
  accepts docs t r && key_free t rows r.

(** [INSERT] fills the columns the statement leaves out. *)
Definition default_value (now serial : Z) (d : sqldefault) : sqlval :=
  match d with
  | NoDefault => VNull
  | DefaultText s => VText s
  | CURRENT_TIMESTAMP => VTime now
  | NextSerial => VInt serial
  end.

Definition with_defaults (now serial : Z) (t : table) (r : row) : row :=
  fold_right
    (fun c acc =>
       match r !! col_name c with
       | Some _ => acc
       | None => <[col_name c := default_value now serial (col_default c)]> acc
       end) r (columns t).

End Schema.

(* ===================================================================== *)
(** ** Status aggregator                                                  *)
(* ===================================================================== *)
Module Aggregator.

Inductive SubStatus : Type :=
| NotStarted
| InProgress
| Completed
| Failed
| Duplicate.

#[global] Instance SubStatus_eq_dec : EqDecision SubStatus.
Proof. solve_decision. Defined.

Definition is_status (x y : SubStatus) : bool := bool_decide (x = y).

(** Modelled from the spec: the function [ComputeOverallStatus] of the back
    end is not among the sources; this follows section 4.2, "if any
    sub-status is Duplicate, overall = Duplicate; else if any is Failed,
    overall = Failed; else if all three are Completed, overall = Completed;
    else overall = InProgress". *)
Definition ComputeOverallStatus (extraction ledger hire : SubStatus) : SubStatus :=
  let subs := [extraction; ledger; hire] in
  if existsb (is_status Duplicate) subs then Duplicate
  else if existsb (is_status Failed) subs then Failed
  else if forallb (is_status Completed) subs then Completed
  else InProgress.

(** Modelled from the spec: a document record (section 3).  The overall
    status is derived, so the record has no field for it. *)
Record Document := {
  extraction_status : SubStatus;
  ledger_status : SubStatus;
  hire_status : SubStatus
}.

Definition overall_status (d : Document) : SubStatus :=
  ComputeOverallStatus (extraction_status d) (ledger_status d) (hire_status d).

Definition set_hire_status (h : SubStatus) (d : Document) : Document :=
  {| extraction_status := extraction_status d;
     ledger_status := ledger_status d;
     hire_status := h |}.

End Aggregator.

(* ===================================================================== *)
(** ** Fixed-point numbers typed by the driver                            *)
(* ===================================================================== *)
Module Decimal.

(** [unscaled / 10^scale] *)
Record t := { unscaled : Z; scale : nat }.

#[global] Instance t_eq_dec : EqDecision t.
Proof. solve_decision. Defined.

Definition digit_of (c : ascii) : option Z :=
  let n := N_of_ascii c in
  if ((48 <=? n) && (n <=? 57))%N then Some (Z.of_N n - 48) else None.

Definition is_point (c : ascii) : bool := (N_of_ascii c =? 46)%N.

(** [frac] is the number of digits read after the point, once the point has
    been read; [seen] tells whether any digit has been read. *)
Fixpoint parse_from (s : string) (acc : Z) (frac : option nat) (seen : bool)
  : option t :=
  match s with
  | EmptyString =>
      if seen then Some {| unscaled := acc; scale := default 0%nat frac |} else None
  | String c r =>
      if is_point c then
        match frac with
        | None => parse_from r acc (Some 0%nat) seen
        | Some _ => None
        end
      else
        match digit_of c with
        | Some d => parse_from r (acc * 10 + d) (S <$> frac) true
        | None => None
        end
  end.

(** Modelled from the spec: "Parses rawText as a non-negative decimal
    number" (section 4.1): digits with at most one decimal point, no sign. *)
Definition parse (rawText : string) : option t := parse_from rawText 0 None false.

(** The value at a column's scale, rounding half away from zero as
    [NUMERIC] does. *)
Definition rescale (k : nat) (d : t) : Z :=
  if (scale d <=? k)%nat then unscaled d * 10 ^ Z.of_nat (k - scale d)
  else
    let p := 10 ^ Z.of_nat (scale d - k) in
    Z.sgn (unscaled d) * ((2 * Z.abs (unscaled d) + p) / (2 * p)).

End Decimal.

(* ===================================================================== *)
(** ** Session orchestrator                                               *)
(* ===================================================================== *)
Module Orchestrator.
Import Aggregator.

(** Modelled from the spec: the states of section 4.1.  The orchestrator
    (routes/vehicle_hire_routes.py, telegram_user_client.py) is not among
    the sources; everything in this module follows sections 3 to 7. *)
Inductive SessionState : Type :=
| Pending
| AwaitingAdvance
| AwaitingQuantity
| SessionCompleted
| Expired
| Cancelled.

#[global] Instance SessionState_eq_dec : EqDecision SessionState.
Proof. solve_decision. Defined.

Definition is_open (st : SessionState) : bool :=
  match st with
  | Pending | AwaitingAdvance | AwaitingQuantity => true
  | SessionCompleted | Expired | Cancelled => false
  end.

(** Modelled from the spec: the attributes of a conversational session
    (section 3), with the retry counter of section 4.1, the reminder mark of
    the two-tier timeout, the per-session set of processed provider message
    ids of section 5 and the cancellation reason. *)
Record Session := {
  document_id : Z;
  channel_identity : option string;
  counterparty_address : string;
  state : SessionState;
  advance_amount : option Decimal.t;
  quantity : option Decimal.t;
  created_at : Z;
  last_activity_at : Z;
  version : Z;
  retry_count : nat;
  reminded : bool;
  gateway_failures : nat;
  processed_ids : gset string;
  cancel_reason : option string
}.

Record LedgerEntry := {
  le_advance_amount : Decimal.t;
  le_quantity : Decimal.t
}.

Inductive DeliveryResult : Type := delivered | queued | failed.

Inductive Prompt : Type :=
| AskAdvance
| AskQuantity
| AskAgain
| Confirmation
| Reminder.

Record Sent := { sent_to : string; sent_what : Prompt; sent_result : DeliveryResult }.

(** The session store, the documents, the ledger keyed by document id, and
    the log of what was handed to the gateway (newest first). *)
Record Store := {
  documents : gmap Z Document;
  sessions : gmap Z Session;
  next_session_id : Z;
  ledger : gmap Z LedgerEntry;
  outbox : list Sent
}.

Inductive Outcome : Type :=
| Accepted (sid : Z) (now_in : SessionState)
| ValidationError (sid : Z) (retries : nat)
| StateMismatch (sid : Z)
| UnknownSessionError
| DuplicateEventError
| ConflictError
| ConcurrencyConflict.

Inductive StartResult : Type :=
| Started (sid : Z)
| AlreadyOpen (sid : Z)
| NotEligible.

Definition started_id (r : StartResult) : option Z :=
  match r with
  | Started sid | AlreadyOpen sid => Some sid
  | NotEligible => None
  end.

(** The two-tier timeout policy: an optional reminder tier before the
    expiry threshold. *)
Record TimeoutPolicy := { remind_after : option Z; expire_after : Z }.

(** *** Transitions of one session record *)

Definition bump (s : Session) : Session :=
  {| document_id := document_id s; channel_identity := channel_identity s;
     counterparty_address := counterparty_address s; state := state s;
     advance_amount := advance_amount s; quantity := quantity s;
     created_at := created_at s; last_activity_at := last_activity_at s;
     version := version s + 1;
     retry_count := retry_count s; reminded := reminded s;
     gateway_failures := gateway_failures s;
     processed_ids := processed_ids s; cancel_reason := cancel_reason s |}.

Definition new_session (doc : Z) (addr : string) (now : Z) : Session :=
  {| document_id := doc; channel_identity := None;
     counterparty_address := addr; state := Pending;
     advance_amount := None; quantity := None;
     created_at := now; last_activity_at := now;
     version := 0;
     retry_count := 0; reminded := false; gateway_failures := 0;
     processed_ids := ∅; cancel_reason := None |}.

Definition with_state (st : SessionState) (s : Session) : Session :=
  {| document_id := document_id s; channel_identity := channel_identity s;
     counterparty_address := counterparty_address s; state := st;
     advance_amount := advance_amount s; quantity := quantity s;
     created_at := created_at s; last_activity_at := last_activity_at s;
     version := version s;
     retry_count := retry_count s; reminded := reminded s;
     gateway_failures := gateway_failures s;
     processed_ids := processed_ids s; cancel_reason := cancel_reason s |}.

(** A send that failed is recorded against the session; it rolls nothing
    back. *)
Definition note_delivery (r : DeliveryResult) (s : Session) : Session :=
  {| document_id := document_id s; channel_identity := channel_identity s;
     counterparty_address := counterparty_address s; state := state s;
     advance_amount := advance_amount s; quantity := quantity s;
     created_at := created_at s; last_activity_at := last_activity_at s;
     version := version s;
     retry_count := retry_count s; reminded := reminded s;
     gateway_failures :=
       match r with failed => S (gateway_failures s) | _ => gateway_failures s end;
     processed_ids := processed_ids s; cancel_reason := cancel_reason s |}.

(** The first prompt went out: the session leaves [Pending] once the
    gateway has taken the message. *)
Definition after_first_prompt (r : DeliveryResult) (s : Session) : Session :=
  match r with
  | failed => note_delivery r s
  | _ => with_state AwaitingAdvance s
  end.

(** An inbound message is taken in: its id is recorded and, on first
    contact, the channel is bound. *)
Definition take_in (ch mid : string) (s : Session) : Session :=
  {| document_id := document_id s; channel_identity := Some ch;
     counterparty_address := counterparty_address s; state := state s;
     advance_amount := advance_amount s; quantity := quantity s;
     created_at := created_at s; last_activity_at := last_activity_at s;
     version := version s;
     retry_count := retry_count s; reminded := reminded s;
     gateway_failures := gateway_failures s;
     processed_ids := {[ mid ]} ∪ processed_ids s;
     cancel_reason := cancel_reason s |}.

Definition store_advance (d : Decimal.t) (now : Z) (s : Session) : Session :=
  {| document_id := document_id s; channel_identity := channel_identity s;
     counterparty_address := counterparty_address s; state := AwaitingQuantity;
     advance_amount := Some d; quantity := quantity s;
     created_at := created_at s; last_activity_at := now;
     version := version s;
     retry_count := retry_count s; reminded := reminded s;
     gateway_failures := gateway_failures s;
     processed_ids := processed_ids s; cancel_reason := cancel_reason s |}.

Definition store_quantity (d : Decimal.t) (now : Z) (s : Session) : Session :=
  {| document_id := document_id s; channel_identity := channel_identity s;
     counterparty_address := counterparty_address s; state := SessionCompleted;
     advance_amount := advance_amount s; quantity := Some d;
     created_at := created_at s; last_activity_at := now;
     version := version s;
     retry_count := retry_count s; reminded := reminded s;
     gateway_failures := gateway_failures s;
     processed_ids := processed_ids s; cancel_reason := cancel_reason s |}.

(** A reply that does not parse: the retry counter goes up, the state stays,
    the inactivity timer is not reset; the session expires once the retries
    are used up. *)
Definition count_retry (max_retries : nat) (s : Session) : Session :=
  {| document_id := document_id s; channel_identity := channel_identity s;
     counterparty_address := counterparty_address s;
     state := if (max_retries <=? S (retry_count s))%nat then Expired else state s;
     advance_amount := advance_amount s; quantity := quantity s;
     created_at := created_at s; last_activity_at := last_activity_at s;
     version := version s;
     retry_count := S (retry_count s); reminded := reminded s;
     gateway_failures := gateway_failures s;
     processed_ids := processed_ids s; cancel_reason := cancel_reason s |}.

Definition mark_reminded (s : Session) : Session :=
  {| document_id := document_id s; channel_identity := channel_identity s;
     counterparty_address := counterparty_address s; state := state s;
     advance_amount := advance_amount s; quantity := quantity s;
     created_at := created_at s; last_activity_at := last_activity_at s;
     version := version s;
     retry_count := retry_count s; reminded := true;
     gateway_failures := gateway_failures s;
     processed_ids := processed_ids s; cancel_reason := cancel_reason s |}.

Definition with_reason (reason : string) (s : Session) : Session :=
  {| document_id := document_id s; channel_identity := channel_identity s;
     counterparty_address := counterparty_address s; state := Cancelled;
     advance_amount := advance_amount s; quantity := quantity s;
     created_at := created_at s; last_activity_at := last_activity_at s;
     version := version s;
     retry_count := retry_count s; reminded := reminded s;
     gateway_failures := gateway_failures s;
     processed_ids := processed_ids s; cancel_reason := Some reason |}.

(** Where the gateway reaches the driver: the channel once it is bound, the
    phone number before. *)
Definition reach (s : Session) : string :=
  default (counterparty_address s) (channel_identity s).

(** *** Queries on the session table *)

Definition select (P : Session -> bool) (m : gmap Z Session) : list (Z * Session) :=
  List.filter (fun p => P (snd p)) (map_to_list m).

Definition open_for (doc : Z) (s : Session) : bool :=
  is_open (state s) && (document_id s =? doc).

Definition open_bound_to (ch : string) (s : Session) : bool :=
  is_open (state s) && bool_decide (channel_identity s = Some ch).

Definition open_unbound (s : Session) : bool :=
  is_open (state s) && bool_decide (channel_identity s = None).

Definition any_open (s : Session) : bool := is_open (state s).

Definition open_session_of (doc : Z) (m : gmap Z Session) : option (Z * Session) :=
  head (select (open_for doc) m).

Inductive Resolution : Type :=
| Resolved (sid : Z) (s : Session)
| NoSession
| BoundElsewhere.

(** Modelled from the spec: a channel identity resolves to exactly one open
    session (section 4.1): the one it is bound to or, on first contact, the
    one open session that waits for its first inbound message.  A channel
    that is bound to none while the open sessions are bound to others is a
    conflict, as in the scenario of section 8. *)
Definition resolve (m : gmap Z Session) (ch : string) : Resolution :=
  match select (open_bound_to ch) m with
  | [(sid, s)] => Resolved sid s
  | _ :: _ => NoSession
  | [] =>
      match select open_unbound m with
      | [(sid, s)] => Resolved sid s
      | _ :: _ => NoSession
      | [] => match select any_open m with
              | [] => NoSession
              | _ :: _ => BoundElsewhere
              end
      end
  end.

(** Modelled from the spec: the conditional update of optimistic
    concurrency (section 5): the write goes through only if the stored
    version is the one that was read, and it increases the version. *)
Definition conditional_update (sid read_version : Z) (s' : Session)
  (m : gmap Z Session) : option (gmap Z Session) :=
  match m !! sid with
  | Some cur =>
      if version cur =? read_version then Some (<[sid := bump s']> m) else None
  | None => None
  end.

Definition idle_beyond (now threshold : Z) (s : Session) : bool :=
  threshold <? now - last_activity_at s.

Definition due_for_expiry (now : Z) (policy : TimeoutPolicy) (s : Session) : bool :=
  is_open (state s) && idle_beyond now (expire_after policy) s.

Definition due_for_reminder (now : Z) (policy : TimeoutPolicy) (s : Session) : bool :=
  is_open (state s) && negb (idle_beyond now (expire_after policy) s) &&
  match remind_after policy with
  | Some r => idle_beyond now r s && negb (reminded s)
  | None => false
  end.

Definition sweep_session (now : Z) (policy : TimeoutPolicy) (s : Session) : Session :=
  if due_for_expiry now policy s then bump (with_state Expired s)
  else if due_for_reminder now policy s then bump (mark_reminded s)
  else s.

Definition cancel_session (doc : Z) (reason : string) (s : Session) : Session :=
  if open_for doc s then bump (with_reason reason s) else s.

Section Operations.
(** The messaging gateway is an external collaborator: only its contract
    [Send(address, body) -> DeliveryResult] is known. *)
Variable Send : string -> Prompt -> DeliveryResult.
(** The bound on corrective re-prompts. *)
Variable max_retries : nat.

Definition send (to : string) (what : Prompt) : Sent :=
  {| sent_to := to; sent_what := what; sent_result := Send to what |}.

(** Modelled from the spec: [StartSession(documentId, counterpartyAddress)]
    of section 4.1, whose implementation (the handler of
    [POST /api/vehicle-hire/send-message]) is not among the sources.  An
    open session for the document is returned as it is; otherwise the
    document must have hire status NotStarted, the session is created in
    [Pending], the first prompt is sent, and the session moves on once the
    gateway has taken the prompt. *)
Definition StartSession (now doc : Z) (addr : string) (st : Store)
  : Store * StartResult :=
  match open_session_of doc (sessions st) with
  | Some (sid, _) => (st, AlreadyOpen sid)
  | None =>
      match documents st !! doc with
      | Some d =>
          if bool_decide (hire_status d = NotStarted) then
            let sid := next_session_id st in
            let created := <[sid := new_session doc addr now]> (sessions st) in
            let m := send addr AskAdvance in
            let s1 := after_first_prompt (sent_result m) (new_session doc addr now) in
            match conditional_update sid 0 s1 created with
            | Some updated =>
                ({| documents := documents st; sessions := updated;
                    next_session_id := sid + 1; ledger := ledger st;
                    outbox := m :: outbox st |}, Started sid)
            | None => (st, NotEligible)
            end
          else (st, NotEligible)
      | None => (st, NotEligible)
      end
  end.

(** Modelled from the spec: what a reply does to the session it resolved
    to (section 4.1): the new record, the outcome and the prompt to send;
    [None] when the state does not expect a reply. *)
Definition apply_reply (now : Z) (ch rawText mid : string) (sid : Z) (s : Session)
  : option (Session * Outcome * option Prompt) :=
  match state s with
  | AwaitingAdvance =>
      match Decimal.parse rawText with
      | Some d =>
          Some (store_advance d now (take_in ch mid s),
                Accepted sid AwaitingQuantity, Some AskQuantity)
      | None =>
          let s' := count_retry max_retries (take_in ch mid s) in
          Some (s', ValidationError sid (retry_count s'),
                if is_open (state s') then Some AskAgain else None)
      end
  | AwaitingQuantity =>
      match Decimal.parse rawText with
      | Some d =>
          Some (store_quantity d now (take_in ch mid s),
                Accepted sid SessionCompleted, Some Confirmation)
      | None =>
          let s' := count_retry max_retries (take_in ch mid s) in
          Some (s', ValidationError sid (retry_count s'),
                if is_open (state s') then Some AskAgain else None)
      end
  | _ => None
  end.

(** Modelled from the spec: the ledger entry and the document status that
    go with a session that has just completed (section 4.1, "creates the
    Hire Ledger Entry, sets hire_status = Completed"). *)
Definition finalize (s : Session) (st : Store) : Store :=
  match state s, advance_amount s, quantity s with
  | SessionCompleted, Some a, Some q =>
      {| documents := alter (set_hire_status Completed) (document_id s) (documents st);
         sessions := sessions st;
         next_session_id := next_session_id st;
         ledger :=
           match ledger st !! document_id s with
           | Some _ => ledger st
           | None => <[document_id s :=
                         {| le_advance_amount := a; le_quantity := q |}]> (ledger st)
           end;
         outbox := outbox st |}
  | _, _, _ => st
  end.

(** Modelled from the spec:
    [HandleInboundReply(channelIdentity, rawText, providerMessageId)] of
    section 4.1, whose implementation (the webhook and the Telegram
    listener) is not among the sources: resolve the channel, drop a message
    id the session has processed, parse, advance, and write under the
    version that was read. *)
Definition HandleInboundReply (now : Z) (ch rawText mid : string) (st : Store)
  : Store * Outcome :=
  match resolve (sessions st) ch with
  | NoSession => (st, UnknownSessionError)
  | BoundElsewhere => (st, ConflictError)
  | Resolved sid s =>
      if bool_decide (mid ∈ processed_ids s) then (st, DuplicateEventError)
      else
        match apply_reply now ch rawText mid sid s with
        | None => (st, StateMismatch sid)
        | Some (s', out, prompt) =>
            let sends :=
              match prompt with
              | Some p => [send (reach s') p]
              | None => []
              end in
            let s'' := fold_right (fun m => note_delivery (sent_result m)) s' sends in
            match conditional_update sid (version s) s'' (sessions st) with
            | Some updated =>
                (finalize s''
                   {| documents := documents st; sessions := updated;
                      next_session_id := next_session_id st; ledger := ledger st;
                      outbox := sends ++ outbox st |}, out)
            | None => (st, ConcurrencyConflict)
            end
        end
  end.

(** Modelled from the spec: [ExpireIdleSessions(idleThreshold)] of section
    4.1, run by the reminder scheduler, which is not among the sources; the
    clock is made explicit and the threshold comes with the optional
    reminder tier. *)
Definition ExpireIdleSessions (now : Z) (policy : TimeoutPolicy) (st : Store)
  : Store * list Z :=
  ({| documents := documents st;
      sessions := sweep_session now policy <$> sessions st;
      next_session_id := next_session_id st;
      ledger := ledger st;
      outbox :=
        map (fun p => send (reach (snd p)) Reminder)
            (select (due_for_reminder now policy) (sessions st)) ++ outbox st |},
   map fst (select (due_for_expiry now policy) (sessions st))).

(** Modelled from the spec: [CancelSession(documentId, reason)] of section
    4.1. *)
Definition CancelSession (doc : Z) (reason : string) (st : Store) : Store :=
  {| documents := documents st;
     sessions := cancel_session doc reason <$> sessions st;
     next_session_id := next_session_id st;
     ledger := ledger st;
     outbox := outbox st |}.

(** The requests the orchestrator serves. *)
Inductive Request : Type :=
| ReqStart (now doc : Z) (addr : string)
| ReqReply (now : Z) (ch rawText mid : string)
| ReqSweep (now : Z) (policy : TimeoutPolicy)
| ReqCancel (doc : Z) (reason : string).

Definition serve (r : Request) (st : Store) : Store :=
  match r with
  | ReqStart now doc addr => fst (StartSession now doc addr st)
  | ReqReply now ch rawText mid => fst (HandleInboundReply now ch rawText mid st)
  | ReqSweep now policy => fst (ExpireIdleSessions now policy st)
  | ReqCancel doc reason => CancelSession doc reason st
  end.

Definition run (rs : list Request) (st : Store) : Store :=
  fold_left (fun acc r => serve r acc) rs st.

End Operations.

(** A store before any session was started. *)
Definition initial (docs : gmap Z Document) : Store :=
  {| documents := docs; sessions := ∅; next_session_id := 1;
     ledger := ∅; outbox := [] |}.

(** The stores the orchestrator can be in: those a sequence of requests
    leads to from an initial one. *)
Definition reachable (Send : string -> Prompt -> DeliveryResult) (max_retries : nat)
  (st : Store) : Prop :=
  exists docs rs, st = run Send max_retries rs (initial docs).

Definition nonneg (o : option Decimal.t) : Prop :=
  forall d, o = Some d -> 0 <= Decimal.unscaled d.

(** What holds of every reachable store. *)
Record consistent (st : Store) : Prop := {
  ids_below_next :
    forall sid s, sessions st !! sid = Some s -> sid < next_session_id st;
  one_open_per_document :
    forall sid1 s1 sid2 s2,
      sessions st !! sid1 = Some s1 -> sessions st !! sid2 = Some s2 ->
      is_open (state s1) = true -> is_open (state s2) = true ->
      document_id s1 = document_id s2 -> sid1 = sid2;
  open_means_not_started :
    forall sid s,
      sessions st !! sid = Some s -> is_open (state s) = true ->
      exists d, documents st !! document_id s = Some d /\ hire_status d = NotStarted;
  collected_nonneg :
    forall sid s,
      sessions st !! sid = Some s ->
      nonneg (advance_amount s) /\ nonneg (quantity s);
  ledger_nonneg :
    forall doc e,
      ledger st !! doc = Some e ->
      0 <= Decimal.unscaled (le_advance_amount e) /\
      0 <= Decimal.unscaled (le_quantity e)
}.

(** *** What one request does, as relations between the stores
    before and after *)

(** The edges along which a request moves a stored session.  The edge from
    [Pending] to [AwaitingAdvance] is taken inside [StartSession], before
    the session is first seen. *)
Definition state_step (a b : SessionState) : Prop :=
  b = a \/ (is_open a = true /\ (b = Expired \/ b = Cancelled)) \/
  (a = AwaitingAdvance /\ b = AwaitingQuantity) \/
  (a = AwaitingQuantity /\ b = SessionCompleted).

(** How an inbound message with id [mid] from channel [ch] changes the
    session it is taken in by. *)
Record reply_step (ch mid : string) (s s' : Session) : Prop := {
  rs_open : is_open (state s) = true;
  rs_fresh : mid ∉ processed_ids s;
  rs_document : document_id s' = document_id s;
  rs_version : version s' = version s + 1;
  rs_processed : processed_ids s' = {[ mid ]} ∪ processed_ids s;
  rs_channel : channel_identity s' = Some ch;
  rs_advance : nonneg (advance_amount s) -> nonneg (advance_amount s');
  rs_quantity : nonneg (quantity s) -> nonneg (quantity s');
  rs_state : state_step (state s) (state s')
}.

(** How such a message changes the store: one session is rewritten and,
    when it completes, its document and the ledger are. *)
Record reply_effect (ch mid : string) (st st' : Store) (sid : Z) (s s' : Session)
  : Prop := {
  re_before : sessions st !! sid = Some s;
  re_step : reply_step ch mid s s';
  re_sessions : sessions st' = <[sid := s']> (sessions st);
  re_next : next_session_id st' = next_session_id st;
  re_bound :
    forall sid2 s2, sessions st !! sid2 = Some s2 ->
                    open_bound_to ch s2 = true -> sid2 = sid;
  re_rest :
    (documents st' = documents st /\ ledger st' = ledger st) \/
    (state s' = SessionCompleted /\
     exists a q,
       advance_amount s' = Some a /\ quantity s' = Some q /\
       documents st' =
         alter (set_hire_status Completed) (document_id s) (documents st) /\
       (ledger st' = ledger st \/
        ledger st' = <[document_id s :=
                        {| le_advance_amount := a; le_quantity := q |}]> (ledger st)))
}.

(** The outcomes that go with an unchanged store. *)
Definition silent (out : Outcome) : Prop :=
  match out with
  | Accepted _ _ | ValidationError _ _ => False
  | _ => True
  end.

(** How a [StartSession] that opens a session changes the store. *)
Record start_effect (doc : Z) (st st' : Store) (s1 : Session) : Prop := {
  se_sessions : sessions st' = <[next_session_id st := s1]> (sessions st);
  se_next : next_session_id st' = next_session_id st + 1;
  se_documents : documents st' = documents st;
  se_ledger : ledger st' = ledger st;
  se_open : is_open (state s1) = true;
  se_document : document_id s1 = doc;
  se_advance : advance_amount s1 = None;
  se_quantity : quantity s1 = None;
  se_processed : processed_ids s1 = ∅;
  se_version : version s1 = 1;
  se_none_open :
    forall sid s, sessions st !! sid = Some s -> open_for doc s = false;
  se_not_started :
    exists d, documents st !! doc = Some d /\ hire_status d = NotStarted
}.

End Orchestrator.

(* ===================================================================== *)
(** ** Sessions as rows of [telegram_pending_sessions]                    *)
(* ===================================================================== *)
Module Persistence.
Import Schema Orchestrator.

(** Modelled from the spec: the code that writes session rows is not among
    the sources.  The states are stored under the four names the migration
    gives in its comment, and two more for the terminal failure states. *)
Definition status_name (st : SessionState) : string :=
  match st with
  | Pending => "pending"
  | AwaitingAdvance => "waiting_advance"
  | AwaitingQuantity => "waiting_qty"
  | SessionCompleted => "completed"
  | Expired => "expired"
  | Cancelled => "cancelled"
  end.

Definition state_names : list string :=
  map status_name
    [Pending; AwaitingAdvance; AwaitingQuantity; SessionCompleted; Expired; Cancelled].

Definition text_cell (o : option string) : sqlval :=
  match o with
  | Some t => VText t
  | None => VNull
  end.

Definition decimal_cell (k : nat) (o : option Decimal.t) : sqlval :=
  match o with
  | Some d => VDec (Decimal.rescale k d) k
  | None => VNull
  end.

(** Modelled from the spec: the row that holds a session, one cell per
    column of the table that has a counterpart among the attributes of
    section 3; [updated_at] is the time of last activity. *)
Definition to_row (sid : Z) (s : Session) : row :=
  <["id" := VInt sid]>
  (<["doc_id" := VInt (document_id s)]>
  (<["phone_no" := VText (counterparty_address s)]>
  (<["chat_id" := text_cell (channel_identity s)]>
  (<["advance_amount" := decimal_cell 2 (advance_amount s)]>
  (<["qty" := decimal_cell 3 (quantity s)]>
  (<["status" := VText (status_name (state s))]>
  (<["created_at" := VTime (created_at s)]>
  (<["updated_at" := VTime (last_activity_at s)]> ∅)))))))).

End Persistence.

(* ===================================================================== *)
(** ** Concrete stores and rows                                           *)
(* ===================================================================== *)
Module Examples.
Import Schema Aggregator Orchestrator.

(** A gateway that delivers everything. *)
Definition delivering (to : string) (what : Prompt) : DeliveryResult := delivered.

Definition ready : Document :=
  {| extraction_status := Completed; ledger_status := Completed;
     hire_status := NotStarted |}.

(** Document 42 is ready for vehicle hire. *)
Definition docs42 : gmap Z Document := {[ 42 := ready ]}.

(** The operator starts a session for document 42. *)
Definition started42 : Store :=
  run delivering 3 [ReqStart 100 42 "9990001111"] (initial docs42).

(** The driver answers the first prompt. *)
Definition advanced42 : Store :=
  run delivering 3
    [ReqStart 100 42 "9990001111"; ReqReply 101 "chat-77" "2500" "m1"]
    (initial docs42).

(** The driver answers both prompts. *)
Definition completed42 : Store :=
  run delivering 3
    [ReqStart 100 42 "9990001111"; ReqReply 101 "chat-77" "2500" "m1";
     ReqReply 102 "chat-77" "12.5" "m2"]
    (initial docs42).

(** A session row with a status no state has. *)
Definition odd_status_row : row :=
  <["id" := VInt 1]> (<["doc_id" := VInt 42]> (<["phone_no" := VText "9990001111"]>
  (<["status" := VText "bogus"]> (<["created_at" := VTime 100]>
  (<["updated_at" := VTime 100]> ∅))))).

(** A ledger row with an advance of -2500.00 and a quantity of -12.500. *)
Definition negative_hire_row : row :=
  <["id" := VInt 1]> (<["doc_id" := VInt 42]> (<["manifest_no" := VText "ARAK2508388"]>
  (<["advance_amount" := VDec (-250000) 2]> (<["payable_at" := VText "Chennai"]>
  (<["paid_by" := VText "Owner"]> (<["account" := VText "Cash"]>
  (<["paymode" := VText "Cash"]> (<["filling_station" := VText "HP"]>
  (<["slip_no" := VText "S-1"]> (<["slip_date" := VDate 20000]>
  (<["qty" := VDec (-12500) 3]> (<["rate" := VDec 9000 2]>
  (<["created_at" := VTime 100]> (<["updated_at" := VTime 100]> ∅)))))))))))))).

End Examples.

(* ===================================================================== *)
(** ** Strings: white space                                               *)
(* ===================================================================== *)
Module Text.

(** Strings are kept as their UTF-8 bytes.  The white space of the
    language (the class [\s] of regular expressions, which is also what
    [trim] removes) has six members of one byte, one of two bytes (U+00A0)
    and the rest of three bytes (U+1680, U+2000 to U+200A, U+2028, U+2029,
    U+202F, U+205F, U+3000, U+FEFF). *)
Definition code (c : ascii) : N := N_of_ascii c.

Definition ws1 (a : ascii) : bool :=
  (((9 <=? code a) && (code a <=? 13)) || (code a =? 32))%N.

Definition ws2 (a b : ascii) : bool := ((code a =? 194) && (code b =? 160))%N.

Definition ws3 (a b c : ascii) : bool :=
  (((code a =? 225) && (code b =? 154) && (code c =? 128))
   || ((code a =? 226) && (code b =? 128)
       && (((128 <=? code c) && (code c <=? 138))
           || (code c =? 168) || (code c =? 169) || (code c =? 175)))
   || ((code a =? 226) && (code b =? 129) && (code c =? 159))
   || ((code a =? 227) && (code b =? 128) && (code c =? 128))
   || ((code a =? 239) && (code b =? 187) && (code c =? 191)))%N.

(** The string without the white space character it starts with, if it
    starts with one. *)
Definition skipSpace (s : string) : option string :=
  match s with
  | String a (String b (String c r3 as r2) as r) =>
      if ws1 a then Some r else if ws2 a b then Some r2
      else if ws3 a b c then Some r3 else None
  | String a (String b r2 as r) =>
      if ws1 a then Some r else if ws2 a b then Some r2 else None
  | String a r => if ws1 a then Some r else None
  | EmptyString => None
  end.

(** [s.trimStart()] *)
Fixpoint trimStart (s : string) : string :=
  match s with
  | EmptyString => EmptyString
  | String a r =>
      if ws1 a then trimStart r
      else
        match r with
        | String b r2 =>
            if ws2 a b then trimStart r2
            else
              match r2 with
              | String c r3 => if ws3 a b c then trimStart r3 else s
              | EmptyString => s
              end
        | EmptyString => s
        end
  end.

(** Is the string made of white space only? *)
Fixpoint blank (s : string) : bool :=
  match s with
  | EmptyString => true
  | String a r =>
      if ws1 a then blank r
      else
        match r with
        | String b r2 =>
            if ws2 a b then blank r2
            else
              match r2 with
              | String c r3 => ws3 a b c && blank r3
              | EmptyString => false
              end
        | EmptyString => false
        end
  end.

(** [s.trimEnd()] *)
Fixpoint trimEnd (s : string) : string :=
  match s with
  | EmptyString => EmptyString
  | String a r => if blank s then EmptyString else String a (trimEnd r)
  end.

(** [s.trim()] *)
Definition trim (s : string) : string := trimEnd (trimStart s).

(** [s.replace(re, "")] where [re] matches the runs of white space and of
    the ASCII characters that [also] holds of. *)
Fixpoint strip (also : ascii -> bool) (s : string) : string :=
  match s with
  | EmptyString => EmptyString
  | String a r =>
      if ws1 a || also a then strip also r
      else
        match r with
        | String b r2 =>
            if ws2 a b then strip also r2
            else
              match r2 with
              | String c r3 =>
                  if ws3 a b c then strip also r3
                  else String a (strip also r)
              | EmptyString => String a (strip also r)
              end
        | EmptyString => String a EmptyString
        end
  end.

(** [s.replace(/[\s_-]+/g, "")] *)
Definition removeSeparators (s : string) : string :=
  strip (fun a => (code a =? 95) || (code a =? 45))%N s.

(** [s.replace(/\s+/g, "")] *)
Definition removeSpaces (s : string) : string := strip (fun _ => false) s.

(** [s.replace(/\s+/g, "_")]: each run of white space becomes one
    underscore.  [in_run] tells that the characters just before were white
    space. *)
Fixpoint underscoreSpaces (in_run : bool) (s : string) : string :=
  match s with
  | EmptyString => EmptyString
  | String a r =>
      if ws1 a then
        if in_run then underscoreSpaces true r
        else String "_" (underscoreSpaces true r)
      else
        match r with
        | String b r2 =>
            if ws2 a b then
              if in_run then underscoreSpaces true r2
              else String "_" (underscoreSpaces true r2)
            else
              match r2 with
              | String c r3 =>
                  if ws3 a b c then
                    if in_run then underscoreSpaces true r3
                    else String "_" (underscoreSpaces true r3)
                  else String a (underscoreSpaces false r)
              | EmptyString => String a (underscoreSpaces false r)
              end
        | EmptyString => String a EmptyString
        end
  end.

End Text.

(* ===================================================================== *)
(** ** JSON data with nested objects                                      *)
(* ===================================================================== *)
Module Json.

(** What [JSON.parse] and the endpoints give, and [undefined] for what is
    missing.  An object is the list of its own entries, in the order
    [Object.entries] yields them. *)
#[warnings="-register-all"] Inductive t : Type :=
| Undefined
| Null
| Bool (b : bool)
| Num (n : JS.number)
| Str (s : string)
| Arr (items : list t)
| Obj (entries : list (string * t)).

(** ToBoolean *)
Definition truthy (v : t) : bool :=
  match v with
  | Undefined | Null => false
  | Bool b => b
  | Num n => JS.truthy (JS.Num n)
  | Str s => negb (String.eqb s "")
  | Arr _ | Obj _ => true
  end.

(** [v == null] *)
Definition is_nullish (v : t) : bool :=
  match v with
  | Undefined | Null => true
  | _ => false
  end.

(** [typeof v === "object"] *)
Definition is_object (v : t) : bool :=
  match v with
  | Null | Arr _ | Obj _ => true
  | _ => false
  end.

(** [a || b] *)
Definition or_else (a b : t) : t := if truthy a then a else b.

Fixpoint assoc (k : string) (entries : list (string * t)) : t :=
  match entries with
  | [] => Undefined
  | (k', v) :: rest => if String.eqb k' k then v else assoc k rest
  end.

(** [v.k] for the property names read below, none of which an array or a
    primitive has; and [v?.k], which is [undefined] on [null] and
    [undefined] too. *)
Definition prop (v : t) (k : string) : t :=
  match v with
  | Obj entries => assoc k entries
  | _ => Undefined
  end.

(** [Object.entries(v)] of an object or an array. *)
Definition entries_of (v : t) : list (string * t) :=
  match v with
  | Obj entries => entries
  | Arr items => imap (fun i x => (pretty i, x)) items
  | _ => []
  end.

Section Conversion.
(** [String(n)] on a number and on an object or array, and [JSON.parse],
    are the language's. [JSON_parse] gives [None] where [JSON.parse]
    throws. *)
Variable NumberToString : JS.number -> string.
Variable ObjectToString : t -> string.
Variable JSON_parse : string -> option t.

(** [String(v)] *)
Definition ToString (v : t) : string :=
  match v with
  | Undefined => "undefined"
  | Null => "null"
  | Bool true => "true"
  | Bool false => "false"
  | Num n => NumberToString n
  | Str s => s
  | Arr _ | Obj _ => ObjectToString v
  end.
End Conversion.

End Json.

(* ===================================================================== *)
(** ** Vehicle hire page: invoice and consignment helpers                 *)
(* ===================================================================== *)
Module InvoiceHelpers.
Import Json.

Section Helpers.
Variable NumberToString : JS.number -> string.
Variable ObjectToString : Json.t -> string.
Variable JSON_parse : string -> option Json.t.

Local Abbreviation String_ := (ToString NumberToString ObjectToString).

(** [parseJsonSafe] *)
Definition parseJsonSafe (txt : Json.t) : Json.t :=
  if negb (truthy txt) then Obj []
  else if is_object txt then txt
  else default (Obj []) (JSON_parse (String_ txt)).

(** [unwrapFinalData] *)
Definition unwrapFinalData (obj : Json.t) : Json.t :=
  if truthy obj && is_object obj
     && truthy (prop obj "final_data") && is_object (prop obj "final_data")
  then prop obj "final_data"
  else if truthy obj && is_object obj then obj else Obj [].

(** [String(k).toLowerCase().replace(/[\s_-]+/g, "")].  Lowercasing is that
    of [JS.toLowerCase]: a key with a character outside ASCII does not
    become one of the candidate keys, which are ASCII letters, by
    lowercasing. *)
Definition normKey (k : string) : string :=
  Text.removeSeparators (JS.toLowerCase k).

(** The object [flat]: each entry under its normalised key, a later entry
    replacing an earlier one with the same normalised key. *)
Definition flatten (entries : list (string * Json.t)) : gmap string Json.t :=
  fold_left (fun flat kv => <[normKey (fst kv) := snd kv]> flat) entries ∅.

Definition flat_get (flat : gmap string Json.t) (key : string) : Json.t :=
  default Undefined (flat !! key).

Definition candidates : list string :=
  map Text.removeSeparators
    ["invoiceno"; "invoicenumber"; "invoice_no"; "invoice_number";
     "invoicenumberno"; "invoice"; "invno"; "invnumber"].

(** The loop over the candidates. *)
Fixpoint firstUsable (flat : gmap string Json.t) (keys : list string) : string :=
  match keys with
  | [] => ""
  | key :: rest =>
      if negb (is_nullish (flat_get flat key))
         && negb (String.eqb (Text.trim (String_ (flat_get flat key))) "")
      then Text.trim (String_ (flat_get flat key))
      else firstUsable flat rest
  end.

(** [pickInvoiceNumber] *)
Definition pickInvoiceNumber (payloadObj : Json.t) : string :=
  if negb (truthy payloadObj) || negb (is_object payloadObj) then ""
  else firstUsable (flatten (entries_of payloadObj)) candidates.

(** [getInvoiceText] *)
Definition getInvoiceText (doc : Json.t) : string :=
  if truthy (prop doc "invoice_no")
     && negb (String.eqb (Text.trim (String_ (prop doc "invoice_no"))) "")
  then String_ (prop doc "invoice_no")
  else
    let raw := unwrapFinalData (parseJsonSafe (prop doc "extracted_json")) in
    let tryFromJson := pickInvoiceNumber raw in
    if negb (String.eqb tryFromJson "") then tryFromJson else "Invoice".

(** [getConsignmentNo]; nothing in its [try] block throws. *)
Definition getConsignmentNo (doc : Json.t) : Json.t :=
  let extractedData := parseJsonSafe (prop doc "extracted_json") in
  let data := unwrapFinalData extractedData in
  or_else (prop data "ConsignmentNo") (Str "").

End Helpers.
End InvoiceHelpers.

(* ===================================================================== *)
(** ** Web storage and navigation                                         *)
(* ===================================================================== *)
Module Web.
Import JS Routes.

(** [localStorage] and [sessionStorage]: strings under string keys.  The
    storage is available and takes every write. *)
Record Storage := {
  localStorage : gmap string string;
  sessionStorage : gmap string string
}.

(** [localStorage.getItem(k)], [None] for [null] *)
Definition getItem (k : string) (s : Storage) : option string :=
  localStorage s !! k.

(** [localStorage.setItem(k, v)] *)
Definition setItem (k v : string) (s : Storage) : Storage :=
  {| localStorage := <[k := v]> (localStorage s);
     sessionStorage := sessionStorage s |}.

(** [localStorage.removeItem(k)] *)
Definition removeItem (k : string) (s : Storage) : Storage :=
  {| localStorage := delete k (localStorage s);
     sessionStorage := sessionStorage s |}.

(** [sessionStorage.clear()] *)
Definition clearSession (s : Storage) : Storage :=
  {| localStorage := localStorage s; sessionStorage := ∅ |}.

(** The [state] a navigation carries: none, [{ from: location }] or
    [{ sessionExpired: true }]. *)
Inductive NavState : Type :=
| NoState
| From (location : option Location)
| SessionExpired.

(** [navigate(to, { replace, state })] and [<Navigate to replace state />] *)
Record Navigation := {
  to : value;
  replace : bool;
  state : NavState
}.

(** What a guard renders. *)
Inductive Element : Type :=
| Children
| Outlet
| Navigate (n : Navigation).

(** The render result of the idle-timeout guard as an element. *)
Definition element_of (r : Rendered) : Element :=
  match r with
  | RenderChildren => Children
  | NavigateTo to_ from_ replace_ =>
      Navigate {| to := Str to_; replace := replace_; state := From from_ |}
  end.

End Web.

(* ===================================================================== *)
(** ** The strict route guard, [components/ProtectedRoute.jsx]            *)
(* ===================================================================== *)
Module StrictGuard.
Import JS Routes Web.

(** [isAuthenticated] *)
Definition isAuthenticated (s : Storage) : bool :=
  bool_decide (getItem "isLoggedIn" s = Some "true").

(** [ProtectedRoute({ children })]; [children] tells whether the prop is
    given, [children ?? <Outlet />] being the outlet when it is not. *)
Definition ProtectedRoute (s : Storage) (children : bool) (location : Location)
  : Element :=
  if negb (isAuthenticated s) then
    Navigate {| to := Str "/login"; replace := true; state := From (Some location) |}
  else if children then Children else Outlet.

End StrictGuard.

(* ===================================================================== *)
(** ** The layout's logout button                                         *)
(* ===================================================================== *)
Module Layout.
Import JS Web.

(** [handleLogout]: the storage afterwards and the navigation. *)
Definition handleLogout (s : Storage) : Storage * Navigation :=
  (removeItem "isLoggedIn" s,
   {| to := Str "/login"; replace := false; state := NoState |}).

End Layout.

(* ===================================================================== *)
(** ** The login page                                                     *)
(* ===================================================================== *)
Module LoginPage.
Import JS Routes Web.

(** [location.state?.from?.pathname || "/dashboard"] *)
Definition redirectTo (st : NavState) : value :=
  or_else
    match st with
    | From location => optional_pathname location
    | NoState | SessionExpired => Undefined
    end
    (Str "/dashboard").

(** The effect on mount: a visitor already logged in is sent on. *)
Definition onMount (s : Storage) : option Navigation :=
  if bool_decide (getItem "isLoggedIn" s = Some "true")
  then Some {| to := Str "/dashboard"; replace := true; state := NoState |}
  else None.

(** What the request of [handleSubmit] comes back with: [fetch] rejects
    with an error that has a message, or there is a response, with its
    [ok] flag and the [data] that [res.json().catch(() => ({}))] gives. *)
Inductive Response : Type :=
| Rejected (message : string)
| Replied (ok : bool) (data : Json.t).

(** The page after [handleSubmit]. *)
Record Submitted := {
  storage : Storage;
  navigation : option Navigation;
  error : string;
  submitting : bool
}.

Section Submit.
(** [String(v)] on numbers and objects and [JSON.stringify] are the
    language's. *)
Variable NumberToString : JS.number -> string.
Variable ObjectToString : Json.t -> string.
Variable JSON_stringify : Json.t -> string.

Local Abbreviation String_ := (Json.ToString NumberToString ObjectToString).

(** The storage writes of a successful login.  [setItem] stores the string
    of the value it is given. *)
Definition remember (now : Z) (data : Json.t) (s : Storage) : Storage :=
  let s1 := setItem "isLoggedIn" "true" s in
  let s2 := setItem "lastActivity" (pretty now) s1 in
  let s3 := if Json.truthy (Json.prop data "token")
            then setItem "authToken" (String_ (Json.prop data "token")) s2
            else s2 in
  if Json.truthy (Json.prop data "user")
  then setItem "user" (JSON_stringify (Json.prop data "user")) s3
  else s3.

(** [err.message || "Login failed"] *)
Definition shown_error (message : string) : string :=
  if String.eqb message "" then "Login failed" else message.

(** [handleSubmit], from the answer of the request on; [now] is
    [Date.now()] and [st] the state of the location the page was reached
    with. *)
Definition handleSubmit (now : Z) (st : NavState) (r : Response) (s : Storage)
  : Submitted :=
  match r with
  | Replied true data =>
      {| storage := remember now data s;
         navigation := Some {| to := redirectTo st; replace := true; state := NoState |};
         error := "";
         submitting := false |}
  | Replied false data =>
      {| storage := s;
         navigation := None;
         error := shown_error
                    (String_ (Json.or_else (Json.prop data "message")
                                (Json.Str "Invalid email or password")));
         submitting := false |}
  | Rejected message =>
      {| storage := s;
         navigation := None;
         error := shown_error message;
         submitting := false |}
  end.

End Submit.
End LoginPage.

(* ===================================================================== *)
(** ** The idle-timeout route guard: inactivity                           *)
(* ===================================================================== *)
Module IdleGuard.
Import JS Routes Web.

(** [SESSION_TTL] *)
Definition SESSION_TTL : Z := 2 * 60 * 60 * 1000.

(** The variables of one run of the effect, with the storage, the timers
    set and not yet fired or cleared (each with the time it is due), and
    the navigations made.  A timer handle is a number; [next] is the handle
    [setTimeout] gives out next.  A handler runs at one instant, [now],
    which is what [Date.now()] reads and what its timers count from. *)
Record Effect := {
  storage : Storage;
  sessionExpired : bool;
  inactivityTimer : option nat;
  hiddenTimer : option nat;
  timers : gmap nat Z;
  next : nat;
  navigations : list Navigation
}.

(** [setTimeout(expireSession, SESSION_TTL)] at time [now]: the handle and
    the timers afterwards. *)
Definition setTimeout (now : Z) (e : Effect) : nat * gmap nat Z :=
  (next e, <[next e := now + SESSION_TTL]> (timers e)).

(** [clearTimeout(handle)]; clearing [undefined] does nothing. *)
Definition clearTimeout (handle : option nat) (ts : gmap nat Z) : gmap nat Z :=
  match handle with
  | Some h => delete h ts
  | None => ts
  end.

(** [logoutUser] *)
Definition logoutUser (e : Effect) : Effect :=
  {| storage := clearSession
                  (removeItem "authToken" (removeItem "isLoggedIn" (storage e)));
     sessionExpired := sessionExpired e;
     inactivityTimer := inactivityTimer e;
     hiddenTimer := hiddenTimer e;
     timers := timers e;
     next := next e;
     navigations :=
       navigations e
       ++ [{| to := Str "/login"; replace := true; state := SessionExpired |}] |}.

(** [expireSession] *)
Definition expireSession (e : Effect) : Effect :=
  {| storage := storage e;
     sessionExpired := true;
     inactivityTimer := inactivityTimer e;
     hiddenTimer := hiddenTimer e;
     timers := timers e;
     next := next e;
     navigations := navigations e |}.

(** [updateLastActivity]: [setItem] stores the number as its decimal
    string. *)
Definition updateLastActivity (now : Z) (e : Effect) : Effect :=
  {| storage := setItem "lastActivity" (pretty now) (storage e);
     sessionExpired := sessionExpired e;
     inactivityTimer := inactivityTimer e;
     hiddenTimer := hiddenTimer e;
     timers := timers e;
     next := next e;
     navigations := navigations e |}.

(** [resetInactivityTimer] *)
Definition resetInactivityTimer (now : Z) (e : Effect) : Effect :=
  let cleared := clearTimeout (inactivityTimer e) (timers e) in
  {| storage := storage e;
     sessionExpired := sessionExpired e;
     inactivityTimer := Some (next e);
     hiddenTimer := hiddenTimer e;
     timers := <[next e := now + SESSION_TTL]> cleared;
     next := S (next e);
     navigations := navigations e |}.

(** [handleUserInteraction], given [event.type] *)
Definition handleUserInteraction (type : string) (now : Z) (e : Effect) : Effect :=
  if sessionExpired e then logoutUser e
  else if String.eqb type "click" || String.eqb type "keydown"
       then updateLastActivity now (resetInactivityTimer now e)
       else e.

(** [handleVisibilityChange], given [document.hidden] *)
Definition handleVisibilityChange (hidden : bool) (now : Z) (e : Effect) : Effect :=
  if hidden then
    {| storage := storage e;
       sessionExpired := sessionExpired e;
       inactivityTimer := inactivityTimer e;
       hiddenTimer := Some (next e);
       timers := <[next e := now + SESSION_TTL]> (timers e);
       next := S (next e);
       navigations := navigations e |}
  else
    {| storage := storage e;
       sessionExpired := sessionExpired e;
       inactivityTimer := inactivityTimer e;
       hiddenTimer := hiddenTimer e;
       timers := clearTimeout (hiddenTimer e) (timers e);
       next := next e;
       navigations := navigations e |}.

(** A timer comes due: if it is still set, it is spent and its callback,
    which for both timers is [expireSession], runs. *)
Definition fire (handle : nat) (e : Effect) : Effect :=
  match timers e !! handle with
  | Some _ =>
      expireSession
        {| storage := storage e;
           sessionExpired := sessionExpired e;
           inactivityTimer := inactivityTimer e;
           hiddenTimer := hiddenTimer e;
           timers := delete handle (timers e);
           next := next e;
           navigations := navigations e |}
  | None => e
  end.

(** The body of the second effect ([useEffect]) up to the listeners being
    in place; [None] when it returns at once because nobody is logged in.
    The first effect, the layout effect, is [checkOnMount] below, and
    [firstRender] runs the two in turn. *)
Definition mount (now : Z) (s : Storage) : option Effect :=
  if negb (bool_decide (getItem "isLoggedIn" s = Some "true")) then None
  else
    Some (resetInactivityTimer now
            (updateLastActivity now
               {| storage := s;
                  sessionExpired := false;
                  inactivityTimer := None;
                  hiddenTimer := None;
                  timers := ∅;
                  next := 0;
                  navigations := [] |})).

Section Mounting.
(** [Number(s)] on a string, [a - b] and [a > b] on numbers are the
    language's. *)
Variable StringToNumber : string -> number.
Variable minus : number -> number -> number.
Variable greater : number -> number -> bool.

(** The layout effect ([useLayoutEffect]), which checks the stamp when the
    guard mounts: the storage afterwards and the navigation it makes, if
    any. *)
Definition checkOnMount (now : Z) (s : Storage) : Storage * list Navigation :=
  if negb (bool_decide (getItem "isLoggedIn" s = Some "true")) then (s, [])
  else
    match getItem "lastActivity" s with
    | Some lastActivity =>
        if negb (String.eqb lastActivity "") then
          let elapsed := minus (of_Z now) (StringToNumber lastActivity) in
          if greater elapsed (of_Z SESSION_TTL) then
            (clearSession (removeItem "authToken" (removeItem "isLoggedIn" s)),
             [{| to := Str "/login"; replace := true; state := SessionExpired |}])
          else (s, [])
        else (s, [])
    | None => (s, [])
    end.

(** The two effects of the first render, in the order they run, at one
    instant.  Both look at the [isLoggedIn] that the render read from the
    storage, so the second runs also when the first has just logged the
    user out. *)
Definition firstRender (now : Z) (s : Storage) : option Effect :=
  if negb (bool_decide (getItem "isLoggedIn" s = Some "true")) then None
  else
    Some (resetInactivityTimer now
            (updateLastActivity now
               {| storage := fst (checkOnMount now s);
                  sessionExpired := false;
                  inactivityTimer := None;
                  hiddenTimer := None;
                  timers := ∅;
                  next := 0;
                  navigations := snd (checkOnMount now s) |})).
End Mounting.

(** What the listeners and the timers react to.  The listeners are
    registered for ["click"] and ["keydown"]. *)
Inductive Event : Type :=
| Click (now : Z)
| Keydown (now : Z)
| VisibilityChange (hidden : bool) (now : Z)
| TimerDue (handle : nat).

Definition is_interaction (ev : Event) : bool :=
  match ev with
  | Click _ | Keydown _ => true
  | _ => false
  end.

Definition react (e : Effect) (ev : Event) : Effect :=
  match ev with
  | Click now => handleUserInteraction "click" now e
  | Keydown now => handleUserInteraction "keydown" now e
  | VisibilityChange hidden now => handleVisibilityChange hidden now e
  | TimerDue handle => fire handle e
  end.

Definition run (evs : list Event) (e : Effect) : Effect := fold_left react evs e.

(** The stamp in the storage and the inactivity timer agree: the timer is
    due [SESSION_TTL] after the stamp, or it has fired.  Handles given out
    are below [next], and the two timers do not share one. *)
Definition timer_invariant (e : Effect) : Prop :=
  exists t h,
    getItem "lastActivity" (storage e) = Some (pretty t) /\
    inactivityTimer e = Some h /\
    (h < next e)%nat /\
    (forall hh, hiddenTimer e = Some hh -> (hh < next e)%nat /\ hh <> h) /\
    match timers e !! h with
    | Some due => due = t + SESSION_TTL
    | None => sessionExpired e = true
    end.

End IdleGuard.

(* ===================================================================== *)
(** ** Monitoring page: the filters applied in the browser                *)
(* ===================================================================== *)
Module MonitoringPage.
Import JS.

(** The callback of the two [data.filter] calls:
    [doc[field] && doc[field].toLowerCase() === filter.toLowerCase()].
    [None] is the [TypeError] of calling [toLowerCase] on a value that has
    no such method.  The filters are the values of the select options,
    words in ASCII. *)
Definition matchesFilter (field filter : string) (doc : gmap string value)
  : option bool :=
  if negb (truthy (get doc field)) then Some false
  else
    lowered ← call_toLowerCase (get doc field);
    Some (String.eqb lowered (toLowerCase filter)).

(** [Array.prototype.filter] with a callback that may throw. *)
Fixpoint filterThrowing {A : Type} (keep : A -> option bool) (l : list A)
  : option (list A) :=
  match l with
  | [] => Some []
  | x :: rest =>
      b ← keep x;
      kept ← filterThrowing keep rest;
      Some (if b : bool then x :: kept else kept)
  end.

(** [if (filter) data = data.filter(...)] *)
Definition filterByStatus (field filter : string) (data : list (gmap string value))
  : option (list (gmap string value)) :=
  if truthy (Str filter) then filterThrowing (matchesFilter field filter) data
  else Some data.

(** The client-side filtering of [fetchMonitoringData]; [None] when it
    throws, which the page reports as a failure to load. *)
Definition clientSideFilter (filterDataExtraction filterErpEntry : string)
  (data : list (gmap string value)) : option (list (gmap string value)) :=
  data1 ← filterByStatus "data_extraction_status" filterDataExtraction data;
  filterByStatus "erp_entry_status" filterErpEntry data1.

(** The state of the page that [fetchMonitoringData] writes. *)
Record Shown := {
  docs : list (gmap string value);
  message : string;
  loading : bool
}.

Section Fetch.
(** [data.sort((a, b) => new Date(a.uploaded_on) - new Date(b.uploaded_on))]:
    the sort of the language under a comparator that reads dates. *)
Variable sortByUploadedOn : list (gmap string value) -> list (gmap string value).

(** [fetchMonitoringData], as the state of the page when it is through.
    [response] is [None] when the request throws, and else the list
    [res.data?.data || []]; [prev] is the state before. *)
Definition fetchMonitoringData (silent : bool)
  (filterDataExtraction filterErpEntry : string)
  (response : option (list (gmap string value))) (prev : Shown) : Shown :=
  match response ≫= clientSideFilter filterDataExtraction filterErpEntry with
  | Some data =>
      let sortedData := sortByUploadedOn data in
      if silent then
        {| docs := sortedData; message := message prev; loading := loading prev |}
      else
        {| docs := sortedData;
           message := "✅ Loaded " ++ pretty (List.length sortedData) ++ " document(s).";
           loading := false |}
  | None =>
      if silent then prev
      else
        {| docs := docs prev;
           message := "❌ Failed to load monitoring data.";
           loading := false |}
  end.
End Fetch.

End MonitoringPage.

(* ===================================================================== *)
(** ** Fix-and-review page: keys and failed fields                        *)
(* ===================================================================== *)
Module FixReviewPage.
Import Json.

Definition preferredOrder : list string :=
  ["Branch"; "Date"; "ConsignmentNo"; "Source"; "Destination"; "Vehicle";
   "EWayBillNo"; "Consignor"; "Consignee"; "GSTType"; "Delivery Address";
   "Invoice No"; "ContentName"; "ActualWeight"; "E-WayBill ValidUpto";
   "Invoice Date"; "E-Way Bill Date"; "Get Rate"; "GoodsType"].

Definition is_alnum (a : ascii) : bool :=
  (((48 <=? Text.code a) && (Text.code a <=? 57))
   || ((65 <=? Text.code a) && (Text.code a <=? 90))
   || ((97 <=? Text.code a) && (Text.code a <=? 122)))%N.

(** [s.replace(/[^A-Za-z0-9]/g, "")]: every character outside ASCII goes,
    with all of its bytes. *)
Fixpoint keepAlnum (s : string) : string :=
  match s with
  | EmptyString => EmptyString
  | String a r => if is_alnum a then String a (keepAlnum r) else keepAlnum r
  end.

(** [normalizeKey] on a string *)
Definition normalizeText (s : string) : string := JS.toLowerCase (keepAlnum s).

(** [s.replace(/-/g, "")] *)
Fixpoint removeHyphens (s : string) : string :=
  match s with
  | EmptyString => EmptyString
  | String a r =>
      if (Text.code a =? 45)%N then removeHyphens r else String a (removeHyphens r)
  end.

(** [s.replace(/[-_]/g, " ")] *)
Fixpoint spaceSeparators (s : string) : string :=
  match s with
  | EmptyString => EmptyString
  | String a r =>
      String (if ((Text.code a =? 45) || (Text.code a =? 95))%N then " "%char else a)
        (spaceSeparators r)
  end.

(** [Array.from(new Set(v))]: the first occurrence of each element, in
    order. *)
Fixpoint uniq (seen l : list string) : list string :=
  match l with
  | [] => []
  | x :: rest =>
      if existsb (String.eqb x) seen then uniq seen rest
      else x :: uniq (x :: seen) rest
  end.

(** [variantsFor]; it is called on the keys of [preferredOrder], which are
    ASCII, where lowercasing is that of [JS.toLowerCase]. *)
Definition variantsFor (canonical : string) : list string :=
  uniq []
    [canonical;
     removeHyphens (Text.removeSpaces canonical);
     spaceSeparators canonical;
     JS.toLowerCase canonical].

(** [findKeyInSource]; [None] for [null]. *)
Definition findKeyInSource (sourceObj : Json.t) (canonicalKey : string)
  : option string :=
  if negb (truthy sourceObj) || negb (is_object sourceObj) then None
  else
    let candidates := map normalizeText (variantsFor canonicalKey) in
    List.find (fun sk => existsb (String.eqb (normalizeText sk)) candidates)
      (map fst (entries_of sourceObj)).

(** [a ?? b] *)
Definition nullish (a b : Json.t) : Json.t := if is_nullish a then b else a.

Section Failed.
Variable NumberToString : JS.number -> string.
Variable ObjectToString : Json.t -> string.

(** [normalizeKey] *)
Definition normalizeKey (s : Json.t) : string :=
  if is_nullish s then ""
  else normalizeText (ToString NumberToString ObjectToString s).

(** The failed fields as the page keeps them: the set [failedSet] and the
    plain object [failedMap]. *)
Record Marks := {
  failedSet : gset string;
  failedMap : gmap string Json.t
}.

(** The callback of [FailedFields.forEach]; [None] is the [TypeError] of
    reading a property of [null] or [undefined]. *)
Definition mark (m : Marks) (f : Json.t) : option Marks :=
  if is_nullish f then None
  else
    let rawField :=
      nullish (nullish (nullish (nullish
        (prop f "Field") (prop f "field")) (prop f "FieldName")) (prop f "name"))
        (Str "") in
    let reason :=
      nullish (nullish (nullish
        (prop f "Reason") (prop f "reason")) (prop f "message")) (Str "") in
    let n := normalizeKey rawField in
    if negb (String.eqb n "") then
      Some {| failedSet := {[ n ]} ∪ failedSet m;
              failedMap := <[n := or_else reason (Str "Failed validation")]>
                             (failedMap m) |}
    else Some m.

(** The loop over [FailedFields], from the empty set and object. *)
Definition markAll (FailedFields : list Json.t) : option Marks :=
  foldl (fun acc f => m ← acc; mark m f)
        (Some {| failedSet := ∅; failedMap := ∅ |}) FailedFields.

(** [isFailed] *)
Definition isFailed (m : Marks) (fieldLabel : Json.t) : bool :=
  bool_decide (normalizeKey fieldLabel ∈ failedSet m).

(** What reading [failedMap[k] ?? null] gives: a value of the object's
    own, [null], or, for the one name that both survives [normalizeKey] and
    is inherited by every plain object, the constructor [Object]. *)
Inductive Reason : Type :=
| Own (v : Json.t)
| Inherited
| NoReason.

(** [getReason] *)
Definition getReason (m : Marks) (fieldLabel : Json.t) : Reason :=
  match failedMap m !! normalizeKey fieldLabel with
  | Some v => if is_nullish v then NoReason else Own v
  | None =>
      if String.eqb (normalizeKey fieldLabel) "constructor" then Inherited
      else NoReason
  end.

(** The set and the object are filled together, with truthy reasons. *)
Definition marks_agree (m : Marks) : Prop :=
  (forall n, n ∈ failedSet m <-> is_Some (failedMap m !! n)) /\
  (forall n v, failedMap m !! n = Some v -> truthy v = true).

End Failed.
End FixReviewPage.

(* ===================================================================== *)
(** ** Upload page: the list of files                                     *)
(* ===================================================================== *)
Module UploadPage.

(** A [File] of the browser: its name, its size in bytes and its MIME
    type. *)
Module File.
Record t := { name : string; size : Z; type : string }.
End File.

Inductive Status : Type :=
| queued
| uploading
| done
| error.

(** An entry of [filesRecords].  [generatedName] is [null] or the name the
    server answered with; [message] is a string or what the server sent as
    its message. *)
Record FileRecord := {
  id : string;
  file : File.t;
  originalName : string;
  generatedName : Json.t;
  size : Z;
  type : string;
  progress : Z;
  status : Status;
  message : Json.t
}.

Definition ALLOWED_TYPES : list string :=
  ["application/pdf"; "image/png"; "image/jpeg"; "image/jpg"; "image/webp";
   "image/bmp"; "image/tiff"].

(** [isAllowed] *)
Definition isAllowed (f : File.t) : bool :=
  existsb (String.eqb (File.type f)) ALLOWED_TYPES || String.eqb (File.type f) "".

(** [s || "file"] on a string *)
Definition or_file (s : string) : string := if String.eqb s "" then "file" else s.

(** The record [addFiles] makes of the [i]-th new file at time [ts]. *)
Definition newRecord (ts : Z) (i : nat) (f : File.t) : FileRecord :=
  {| id := pretty ts ++ "_" ++ pretty i ++ "_"
           ++ Text.underscoreSpaces false (or_file (File.name f));
     file := f;
     originalName := or_file (File.name f);
     generatedName := Json.Null;
     size := if File.size f =? 0 then 0 else File.size f;
     type := if String.eqb (File.type f) "" then "" else File.type f;
     progress := 0;
     status := queued;
     message := Json.Str "" |}.

(** [addFiles], as the list of records afterwards; [ts] is [Date.now()]. *)
Definition addFiles (ts : Z) (pickedFiles : list File.t) (prev : list FileRecord)
  : list FileRecord :=
  let seen := map (fun r => originalName r ++ "|" ++ pretty (size r)) prev in
  let newRecs :=
    imap (newRecord ts)
      (List.filter
         (fun f => negb (existsb
                           (String.eqb (File.name f ++ "|" ++ pretty (File.size f)))
                           seen))
         pickedFiles) in
  (prev ++ newRecs)%list.

(** [removeFile] *)
Definition removeFile (id0 : string) (p : list FileRecord) : list FileRecord :=
  List.filter (fun r => negb (String.eqb (id r) id0)) p.

(** [prev.map((r) => (r.id === id0 ? change(r) : r))] *)
Definition update (id0 : string) (change : FileRecord -> FileRecord)
  (prev : list FileRecord) : list FileRecord :=
  map (fun r => if String.eqb (id r) id0 then change r else r) prev.

(** What [api.post] ends with: a response, or an error, of which the
    handler reads [err?.response?.data?.message] and [err.message]. *)
Inductive Answer : Type :=
| Resolved (res : Json.t)
| Rejected (responseMessage errorMessage : Json.t).

(** One upload as the page sees it: the percentages the progress callback
    computes, in order, and then the answer. *)
Record Upload := { percentages : list Z; answer : Answer }.

(** [arr?.[0]] *)
Definition first (v : Json.t) : Json.t :=
  match v with
  | Json.Arr (x :: _) => x
  | _ => Json.Undefined
  end.

(** [v === "success"] *)
Definition is_success (v : Json.t) : bool :=
  match v with
  | Json.Str s => String.eqb s "success"
  | _ => false
  end.

(** The record changes of [uploadSingleFile]. *)
Definition started (r : FileRecord) : FileRecord :=
  {| id := id r; file := file r; originalName := originalName r;
     generatedName := generatedName r; size := size r; type := type r;
     progress := 0; status := uploading; message := Json.Str "" |}.

Definition progressed (pct : Z) (r : FileRecord) : FileRecord :=
  {| id := id r; file := file r; originalName := originalName r;
     generatedName := generatedName r; size := size r; type := type r;
     progress := pct; status := status r; message := message r |}.

Definition named (finalName : Json.t) (r : FileRecord) : FileRecord :=
  {| id := id r; file := file r; originalName := originalName r;
     generatedName := finalName; size := size r; type := type r;
     progress := 100; status := done; message := Json.Str "" |}.

Definition finished (r : FileRecord) : FileRecord :=
  {| id := id r; file := file r; originalName := originalName r;
     generatedName := generatedName r; size := size r; type := type r;
     progress := 100; status := done; message := Json.Str "" |}.

Definition refused (msg : Json.t) (r : FileRecord) : FileRecord :=
  {| id := id r; file := file r; originalName := originalName r;
     generatedName := generatedName r; size := size r; type := type r;
     progress := progress r; status := error; message := msg |}.

Definition failed (errMsg : Json.t) (r : FileRecord) : FileRecord :=
  {| id := id r; file := file r; originalName := originalName r;
     generatedName := generatedName r; size := size r; type := type r;
     progress := 0; status := error; message := errMsg |}.

(** The last update of [uploadSingleFile], by the answer. *)
Definition settle (a : Answer) : FileRecord -> FileRecord :=
  match a with
  | Resolved res =>
      let data := Json.prop res "data" in
      let serverData := Json.prop data "data" in
      let finalName :=
        match serverData with
        | Json.Arr _ => Json.prop (first serverData) "final_name"
        | _ => Json.prop serverData "final_name"
        end in
      if is_success (Json.prop data "status") && Json.truthy finalName
      then named finalName
      else if is_success (Json.prop data "status") then finished
      else refused (Json.or_else (Json.prop data "message")
                      (Json.Str "Unknown server error"))
  | Rejected responseMessage errorMessage =>
      failed (Json.or_else (Json.or_else responseMessage errorMessage)
                (Json.Str "Network error"))
  end.

(** [uploadSingleFile], as the list of records afterwards. *)
Definition uploadSingleFile (u : Upload) (rec : FileRecord)
  (records : list FileRecord) : list FileRecord :=
  let s1 := update (id rec) started records in
  let s2 := fold_left (fun s pct => update (id rec) (progressed pct) s)
              (percentages u) s1 in
  update (id rec) (settle (answer u)) s2.

(** The guard at the head of [handleUpload]. *)
Definition mayUpload (selectedClient selectedFormat : string)
  (filesRecords : list FileRecord) : bool :=
  negb (String.eqb selectedClient "")
  && negb (String.eqb selectedFormat "")
  && negb (Nat.eqb (List.length filesRecords) 0)
  && forallb (fun r => isAllowed (file r)) filesRecords.

(** The loop of [handleUpload] over the records as they were when the form
    was submitted; [respond i] is how the upload of the [i]-th of them
    goes.  The list is changed by nothing else meanwhile. *)
Fixpoint uploadAll (respond : nat -> Upload) (i : nat)
  (snapshot records : list FileRecord) : list FileRecord :=
  match snapshot with
  | [] => records
  | rec :: rest =>
      match status rec with
      | done => uploadAll respond (S i) rest records
      | _ => uploadAll respond (S i) rest (uploadSingleFile (respond i) rec records)
      end
  end.

(** [handleUpload], as the list of records afterwards. *)
Definition handleUpload (selectedClient selectedFormat : string)
  (respond : nat -> Upload) (filesRecords : list FileRecord) : list FileRecord :=
  if mayUpload selectedClient selectedFormat filesRecords
  then uploadAll respond 0 filesRecords filesRecords
  else filesRecords.

(** A record the upload loop is through with. *)
Definition settled (r : FileRecord) : Prop := status r = done \/ status r = error.

(** What [uploadSingleFile] does to one record. *)
Definition touch (u : Upload) (rec r : FileRecord) : FileRecord :=
  if String.eqb (id r) (id rec)
  then settle (answer u)
         (fold_left (fun r pct => progressed pct r) (percentages u) (started r))
  else r.

End UploadPage.

(* ===================================================================== *)
(** ** Concrete pages, storages and files                                 *)
(* ===================================================================== *)
Module Samples.
Import JS Routes Web.

(** The conversions of the language, as far as the samples need them. *)
Definition numberText (n : JS.number) : string := "0".
Definition objectText (v : Json.t) : string := "[object Object]".
Definition noParse (s : string) : option Json.t := None.
Definition stringify (v : Json.t) : string := "{}".

(** Numbers as far as the samples need them: whole numbers and NaN. *)
Definition wholeNumber (s : string) : JS.number :=
  match Decimal.parse s with
  | Some d => if Nat.eqb (Decimal.scale d) 0 then JS.of_Z (Decimal.unscaled d) else JS.NaN
  | None => JS.NaN
  end.

Definition minus (a b : JS.number) : JS.number :=
  match a, b with
  | JS.Finite x 0, JS.Finite y 0 => JS.of_Z (x - y)
  | _, _ => JS.NaN
  end.

Definition greater (a b : JS.number) : bool :=
  match a, b with
  | JS.Finite x 0, JS.Finite y 0 => y <? x
  | _, _ => false
  end.

Definition nobody : Storage := {| localStorage := ∅; sessionStorage := ∅ |}.

Definition somebody : Storage :=
  {| localStorage := {[ "isLoggedIn" := "true" ]}; sessionStorage := ∅ |}.

(** Somebody who comes back with a stamp of time 0. *)
Definition returning : Storage :=
  {| localStorage := <["lastActivity" := "0"]> {[ "isLoggedIn" := "true" ]};
     sessionStorage := ∅ |}.

Definition monitoring : Location := {| pathname := Str "/monitoring" |}.

Definition to_login : Navigation :=
  {| to := Str "/login"; replace := true; state := From (Some monitoring) |}.

(** The inactivity effect started at time 0 by [somebody]. *)
Definition idle_start : IdleGuard.Effect :=
  IdleGuard.resetInactivityTimer 0
    (IdleGuard.updateLastActivity 0
       {| IdleGuard.storage := somebody;
          IdleGuard.sessionExpired := false;
          IdleGuard.inactivityTimer := None;
          IdleGuard.hiddenTimer := None;
          IdleGuard.timers := ∅;
          IdleGuard.next := 0;
          IdleGuard.navigations := [] |}).

(** Documents of a monitoring answer. *)
Definition ready_doc : gmap string value :=
  <["data_extraction_status" := Str "Completed"]>
  (<["erp_entry_status" := Str "Completed"]>
  (<["vehicle_hire_status" := Str "Not Started"]> ∅)).

Definition waiting_doc : gmap string value :=
  <["data_extraction_status" := Str "Completed"]>
  (<["erp_entry_status" := Str "In Progress"]>
  (<["vehicle_hire_status" := Str "Not Started"]> ∅)).

Definition numbered_doc : gmap string value :=
  <["data_extraction_status" := Num (of_Z 1)]> ∅.

(** The page after a first load, and a stand-in for the sort. *)
Definition first_load : MonitoringPage.Shown :=
  {| MonitoringPage.docs := [ready_doc];
     MonitoringPage.message := "✅ Loaded 1 document(s).";
     MonitoringPage.loading := false |}.

Definition unsorted (data : list (gmap string value)) : list (gmap string value) :=
  data.

(** A validation result with one failed field. *)
Definition one_failed : list Json.t :=
  [Json.Obj [("Field", Json.Str "Invoice No"); ("Reason", Json.Str "missing")]].

Definition one_mark : FixReviewPage.Marks :=
  {| FixReviewPage.failedSet := {[ "invoiceno" ]} ∪ ∅;
     FixReviewPage.failedMap := <["invoiceno" := Json.Str "missing"]> ∅ |}.

(** A picked file and a list that holds it. *)
Definition scan : UploadPage.File.t :=
  {| UploadPage.File.name := "lr 17.pdf";
     UploadPage.File.size := 2048;
     UploadPage.File.type := "application/pdf" |}.

Definition goes_well (i : nat) : UploadPage.Upload :=
  {| UploadPage.percentages := [50];
     UploadPage.answer :=
       UploadPage.Resolved
         (Json.Obj [("data", Json.Obj [("status", Json.Str "success")])]) |}.

End Samples.

(* ===================================================================== *)
(** * Properties                                                          *)
(* ===================================================================== *)

(** ** Status aggregator *)
Section AggregatorFacts.
Import Aggregator.

Lemma ComputeOverallStatus_never_NotStarted e l h :
  ComputeOverallStatus e l h <> NotStarted.
Proof. destruct e, l, h; discriminate. Qed.

(** C1. [ComputeOverallStatus] is defined on every triple of sub-statuses
    and follows the precedence rule: Duplicate if any sub-status is
    Duplicate; otherwise Failed if any is Failed; otherwise Completed if all
    three are Completed; otherwise InProgress.  The overall status of a
    document is this function of its three sub-statuses. *)
Theorem ComputeOverallStatus_precedence :
  forall e l h : SubStatus,
    (exists o, ComputeOverallStatus e l h = o) /\
    ((e = Duplicate \/ l = Duplicate \/ h = Duplicate) ->
       ComputeOverallStatus e l h = Duplicate) /\
    (~ (e = Duplicate \/ l = Duplicate \/ h = Duplicate) ->
     (e = Failed \/ l = Failed \/ h = Failed) ->
       ComputeOverallStatus e l h = Failed) /\
    (~ (e = Duplicate \/ l = Duplicate \/ h = Duplicate) ->
     ~ (e = Failed \/ l = Failed \/ h = Failed) ->
     (e = Completed /\ l = Completed /\ h = Completed) ->
       ComputeOverallStatus e l h = Completed) /\
    (~ (e = Duplicate \/ l = Duplicate \/ h = Duplicate) ->
     ~ (e = Failed \/ l = Failed \/ h = Failed) ->
     ~ (e = Completed /\ l = Completed /\ h = Completed) ->
       ComputeOverallStatus e l h = InProgress) /\
    (forall d : Document,
       extraction_status d = e -> ledger_status d = l -> hire_status d = h ->
       overall_status d = ComputeOverallStatus e l h).
Proof.
  intros e l h. split; [eauto|].
  repeat split.
  - intros [-> | [-> | ->]];
      [destruct l, h | destruct e, h | destruct e, l]; reflexivity.
  - intros Hd Hf. destruct e, l, h; try reflexivity; exfalso;
      solve [apply Hd; auto | destruct Hf as [? | [? | ?]]; discriminate].
  - intros _ _ (-> & -> & ->). reflexivity.
  - intros Hd Hf Hc. destruct e, l, h; try reflexivity; exfalso;
      solve [apply Hd; auto | apply Hf; auto | apply Hc; auto].
  - intros d <- <- <-. reflexivity.
Qed.

Lemma ComputeOverallStatus_precedence_witness :
  Aggregator.ComputeOverallStatus Failed Completed Completed = Failed /\
  Aggregator.ComputeOverallStatus Completed Duplicate Failed = Duplicate /\
  Aggregator.ComputeOverallStatus NotStarted Completed Completed = InProgress.
Proof.
  split; [|split].
  - apply (ComputeOverallStatus_precedence Failed Completed Completed).
    + intros [H | [H | H]]; discriminate H.
    + left; reflexivity.
  - apply (ComputeOverallStatus_precedence Completed Duplicate Failed).
    right; left; reflexivity.
  - apply (ComputeOverallStatus_precedence NotStarted Completed Completed).
    + intros [H | [H | H]]; discriminate H.
    + intros [H | [H | H]]; discriminate H.
    + intros [H _]; discriminate H.
Defined.

End AggregatorFacts.

(** ** Route guard *)
Section RouteFacts.
Import JS Routes.

Lemma startsWith_spec (s p : string) :
  startsWith s p = true <-> exists rest, s = p ++ rest.
Proof.
  unfold startsWith. revert s. induction p as [|c p IH]; intros s.
  - split; [intros _; exists s; reflexivity | intros _; destruct s; reflexivity].
  - destruct s as [|d s]; cbn.
    + split; [discriminate | intros [rest H]; discriminate H].
    + destruct (ascii_dec c d) as [->|Hne].
      * rewrite IH. split; intros [rest H]; exists rest.
        -- rewrite H. reflexivity.
        -- change (String d s = String d (p ++ rest)) in H. congruence.
      * split; [discriminate | intros [rest H]].
        change (String d s = String c (p ++ rest)) in H. congruence.
Qed.

Lemma upload_exception_string (location : option Location) (p : string) :
  optional_pathname location = Str p ->
  upload_exception location =
    Some (String.eqb (toLowerCase p) "/upload" || startsWith (toLowerCase p) "/upload/").
Proof.
  intros H. unfold upload_exception, or_else. rewrite H. simpl.
  destruct p; reflexivity.
Qed.

Lemma upload_exception_not_string (location : option Location) :
  (forall p, optional_pathname location <> Str p) ->
  upload_exception location = Some false \/ upload_exception location = None.
Proof.
  intros H. unfold upload_exception, or_else.
  destruct (optional_pathname location) as [| |b|n|p|r] eqn:E; simpl.
  - left; reflexivity.
  - left; reflexivity.
  - destruct b; simpl; [right | left]; reflexivity.
  - destruct n as [| | |m e]; simpl; try (right; reflexivity); try (left; reflexivity).
    destruct (m =? 0); simpl; [left | right]; reflexivity.
  - exfalso. apply (H p). reflexivity.
  - right; reflexivity.
Qed.

(** C9. When [localStorage.isLoggedIn] is not ["true"], the guard renders
    its children exactly for a path whose lowercased form is ["/upload"] or
    starts with ["/upload/"]; every other location is redirected to
    [/login]. *)
Theorem ProtectedRoute_anonymous_upload_only :
  forall (isLoggedIn : option string) (location : option Location),
    isLoggedIn <> Some "true" ->
    (forall p, optional_pathname location = Str p ->
       (toLowerCase p = "/upload" \/ exists rest, toLowerCase p = "/upload/" ++ rest) ->
       ProtectedRoute isLoggedIn location = RenderChildren) /\
    (forall p, optional_pathname location = Str p ->
       toLowerCase p <> "/upload" ->
       (forall rest, toLowerCase p <> "/upload/" ++ rest) ->
       ProtectedRoute isLoggedIn location = NavigateTo "/login" location true) /\
    ((forall p, optional_pathname location <> Str p) ->
       ProtectedRoute isLoggedIn location = NavigateTo "/login" location true).
Proof.
  intros isLoggedIn location Hout.
  assert (Hguard : bool_decide (isLoggedIn = Some "true") = false)
    by (apply bool_decide_eq_false; exact Hout).
  unfold ProtectedRoute. rewrite Hguard. simpl.
  split; [|split].
  - intros p Hp Hpath. rewrite (upload_exception_string _ _ Hp).
    destruct Hpath as [-> | Hpre].
    + reflexivity.
    + apply startsWith_spec in Hpre. rewrite Hpre, orb_true_r. reflexivity.
  - intros p Hp Hne Hnpre. rewrite (upload_exception_string _ _ Hp).
    assert (E1 : String.eqb (toLowerCase p) "/upload" = false)
      by (apply String.eqb_neq; exact Hne).
    assert (E2 : startsWith (toLowerCase p) "/upload/" = false).
    { destruct (startsWith (toLowerCase p) "/upload/") eqn:E; [|reflexivity].
      apply startsWith_spec in E. destruct E as [rest E].
      exfalso. exact (Hnpre rest E). }
    rewrite E1, E2. reflexivity.
  - intros Hns. destruct (upload_exception_not_string _ Hns) as [-> | ->]; reflexivity.
Qed.

Lemma ProtectedRoute_anonymous_upload_only_witness :
  ProtectedRoute None (Some {| pathname := Str "/Upload/batch-7" |}) = RenderChildren /\
  ProtectedRoute (Some "false") (Some {| pathname := Str "/uploads" |})
    = NavigateTo "/login" (Some {| pathname := Str "/uploads" |}) true.
Proof.
  split.
  - apply (ProtectedRoute_anonymous_upload_only None
             (Some {| pathname := Str "/Upload/batch-7" |}))
      with (p := "/Upload/batch-7").
    + discriminate.
    + reflexivity.
    + right. exists "batch-7". reflexivity.
  - apply (ProtectedRoute_anonymous_upload_only (Some "false")
             (Some {| pathname := Str "/uploads" |}))
      with (p := "/uploads").
    + intros H; discriminate H.
    + reflexivity.
    + intros H; discriminate H.
    + intros rest H; discriminate H.
Defined.

End RouteFacts.

(** ** Dashboard KPI cards *)
Section DashboardFacts.
Import JS DashboardPage.
Variable StringToNumber : string -> number.

Lemma nullish_first_present (a : value) (rest : list value) (dflt : value) :
  nullish a (first_present rest dflt) = first_present (a :: rest) dflt.
Proof. destruct a; reflexivity. Qed.

Lemma nullish_assoc (a b c : value) :
  nullish (nullish a b) c = nullish a (nullish b c).
Proof. destruct a; reflexivity. Qed.

(** The left-nested [??] chain of the source is the search in order. *)
Lemma duplicateValue_first_present (summary : gmap string value) :
  duplicateValue StringToNumber summary =
  getNumeric StringToNumber
    (first_present
       [get summary "duplicate"; get summary "failed"; get summary "duplicates";
        get summary "duplicate_count"; get summary "Duplicate"]
       (Num (of_Z 0))).
Proof.
  unfold duplicateValue. f_equal.
  rewrite !nullish_assoc. rewrite <- !nullish_first_present. reflexivity.
Qed.

Lemma shown_duplicate (summary : gmap string value) :
  shownUnder StringToNumber "Duplicate" summary
  = Some (Num (duplicateValue StringToNumber summary)).
Proof. reflexivity. Qed.

Lemma getNumeric_finite_number (n : number) :
  isFinite n = true -> getNumeric StringToNumber (Num n) = n.
Proof. intros H. unfold getNumeric. simpl. rewrite H. reflexivity. Qed.

End DashboardFacts.

(** C10. The Duplicate card shows [Number(summary.duplicate)] when that key
    is present (neither null nor undefined) and the number is finite; when
    it is null or undefined the card shows the numeric reading of the first
    present value among [summary.failed], [summary.duplicates],
    [summary.duplicate_count], [summary["Duplicate"]], and of 0 when there is
    none; so a summary with a finite [failed] count and no duplicate key at
    all shows the failed count on the Duplicate card. *)
Theorem duplicate_card_falls_back_to_failed :
  forall (StringToNumber : string -> JS.number) (summary : gmap string JS.value),
    (JS.is_nullish (JS.get summary "duplicate") = false ->
     JS.isFinite (JS.ToNumber StringToNumber (JS.get summary "duplicate")) = true ->
     DashboardPage.shownUnder StringToNumber "Duplicate" summary
     = Some (JS.Num (JS.ToNumber StringToNumber (JS.get summary "duplicate")))) /\
    (JS.is_nullish (JS.get summary "duplicate") = true ->
     DashboardPage.shownUnder StringToNumber "Duplicate" summary
     = Some (JS.Num (DashboardPage.getNumeric StringToNumber
          (DashboardPage.first_present
             [JS.get summary "failed"; JS.get summary "duplicates";
              JS.get summary "duplicate_count"; JS.get summary "Duplicate"]
             (JS.Num (JS.of_Z 0)))))) /\
    (forall n : JS.number,
       summary !! "failed" = Some (JS.Num n) -> JS.isFinite n = true ->
       summary !! "duplicate" = None -> summary !! "duplicates" = None ->
       summary !! "duplicate_count" = None -> summary !! "Duplicate" = None ->
       DashboardPage.shownUnder StringToNumber "Duplicate" summary = Some (JS.Num n)).
Proof.
  intros stn summary.
  rewrite shown_duplicate, duplicateValue_first_present.
  split; [|split].
  - intros Hp Hfin. simpl. rewrite Hp.
    unfold DashboardPage.getNumeric. rewrite Hp, Hfin. reflexivity.
  - intros Hn. simpl. rewrite Hn. reflexivity.
  - intros n Hf Hfin Hd _ _ _. unfold JS.get. rewrite Hd, Hf. simpl.
    rewrite getNumeric_finite_number by exact Hfin. reflexivity.
Qed.

Lemma duplicate_card_falls_back_to_failed_witness :
  DashboardPage.shownUnder (fun _ => JS.NaN) "Duplicate"
    (<["failed" := JS.Num (JS.of_Z 5)]> (<["completed" := JS.Num (JS.of_Z 9)]> ∅))
  = Some (JS.Num (JS.of_Z 5)).
Proof.
  apply (duplicate_card_falls_back_to_failed (fun _ => JS.NaN)
           (<["failed" := JS.Num (JS.of_Z 5)]> (<["completed" := JS.Num (JS.of_Z 9)]> ∅)));
    reflexivity.
Defined.

Import Aggregator Orchestrator Examples.

(** ** Fixed-point parsing *)
Section DecimalFacts.
Import Decimal.

Lemma digit_of_range (c : ascii) (d : Z) : digit_of c = Some d -> 0 <= d <= 9.
Proof.
  unfold digit_of. destruct (_ && _)%bool eqn:E; [|discriminate].
  intros [= <-]. apply andb_true_iff in E as [E1 E2].
  apply N.leb_le in E1, E2. lia.
Qed.

Lemma parse_from_nonneg (s : string) :
  forall acc frac seen d,
    0 <= acc -> parse_from s acc frac seen = Some d -> 0 <= unscaled d.
Proof.
  induction s as [|c r IH]; intros acc frac seen d Hacc; simpl.
  - destruct seen; [|discriminate]. intros [= <-]. exact Hacc.
  - destruct (is_point c).
    + destruct frac; [discriminate|]. apply IH. exact Hacc.
    + destruct (digit_of c) as [k|] eqn:E; [|discriminate].
      apply IH. apply digit_of_range in E. lia.
Qed.

Lemma parse_nonneg (rawText : string) (d : t) :
  parse rawText = Some d -> 0 <= unscaled d.
Proof. unfold parse. apply parse_from_nonneg. lia. Qed.

End DecimalFacts.

(** ** Queries on the session table *)
Section SelectFacts.
Import Orchestrator.

Lemma select_In (P : Session -> bool) (m : gmap Z Session) (sid : Z) (s : Session) :
  In (sid, s) (select P m) <-> m !! sid = Some s /\ P s = true.
Proof.
  unfold select. rewrite filter_In, <- list_elem_of_In, elem_of_map_to_list.
  reflexivity.
Qed.

Lemma select_nil (P : Session -> bool) (m : gmap Z Session) :
  select P m = [] <-> forall sid s, m !! sid = Some s -> P s = false.
Proof.
  split.
  - intros E sid s Hs. destruct (P s) eqn:HP; [|reflexivity].
    assert (Hin : In (sid, s) (select P m)) by (apply select_In; auto).
    rewrite E in Hin. destruct Hin.
  - intros H. destruct (select P m) as [|[sid s] l] eqn:E; [reflexivity|].
    assert (Hin : In (sid, s) (select P m)) by (rewrite E; left; reflexivity).
    apply select_In in Hin as [Hs HP]. rewrite (H _ _ Hs) in HP. discriminate.
Qed.

Lemma select_NoDup (P : Session -> bool) (m : gmap Z Session) :
  List.NoDup (select P m).
Proof.
  unfold select. apply List.NoDup_filter. apply NoDup_ListNoDup, NoDup_map_to_list.
Qed.

Lemma select_single (P : Session -> bool) (m : gmap Z Session) (sid : Z) (s : Session) :
  select P m = [(sid, s)] <->
  m !! sid = Some s /\ P s = true /\
  forall sid' s', m !! sid' = Some s' -> P s' = true -> sid' = sid.
Proof.
  split.
  - intros E. assert (Hin : In (sid, s) (select P m)) by (rewrite E; left; reflexivity).
    apply select_In in Hin as [Hs HP]. repeat split; auto.
    intros sid' s' Hs' HP'.
    assert (Hin' : In (sid', s') (select P m)) by (apply select_In; auto).
    rewrite E in Hin'. destruct Hin' as [[=]|[]]. congruence.
  - intros (Hs & HP & Huniq).
    assert (Hall : forall p, In p (select P m) -> p = (sid, s)).
    { intros [sid' s'] Hin. apply select_In in Hin as [Hs' HP'].
      pose proof (Huniq _ _ Hs' HP') as ->. congruence. }
    assert (Hin : In (sid, s) (select P m)) by (apply select_In; auto).
    pose proof (select_NoDup P m) as Hnd.
    destruct (select P m) as [|p [|q l]].
    + destruct Hin.
    + rewrite (Hall p) by (left; reflexivity). reflexivity.
    + exfalso. inversion Hnd as [|? ? Hnotin _]; subst.
      apply Hnotin. left.
      rewrite (Hall p), (Hall q); [reflexivity | right; left; reflexivity | left; reflexivity].
Qed.

Lemma select_head_In (P : Session -> bool) (m : gmap Z Session) (sid : Z) (s : Session) :
  head (select P m) = Some (sid, s) -> m !! sid = Some s /\ P s = true.
Proof.
  intros H. apply select_In. destruct (select P m); [discriminate|].
  injection H as ->. left; reflexivity.
Qed.

Lemma select_head_None (P : Session -> bool) (m : gmap Z Session) :
  head (select P m) = None <-> forall sid s, m !! sid = Some s -> P s = false.
Proof.
  rewrite <- select_nil. destruct (select P m); simpl; split; congruence.
Qed.

End SelectFacts.

(** ** Inbound replies *)
Section ReplyFacts.
Variable Send : string -> Prompt -> DeliveryResult.
Variable max_retries : nat.

Lemma resolve_Resolved (m : gmap Z Session) (ch : string) (sid : Z) (s : Session) :
  resolve m ch = Resolved sid s ->
  m !! sid = Some s /\ is_open (state s) = true /\
  (channel_identity s = Some ch \/ channel_identity s = None) /\
  (forall sid' s', m !! sid' = Some s' -> open_bound_to ch s' = true -> sid' = sid).
Proof.
  unfold resolve.
  destruct (select (open_bound_to ch) m) as [|[sid1 s1] [|p l]] eqn:Eb.
  - destruct (select open_unbound m) as [|[sid2 s2] [|p l]] eqn:Eu.
    + destruct (select any_open m); discriminate.
    + intros [= -> ->]. apply select_single in Eu as (Hs & HP & _).
      unfold open_unbound in HP. apply andb_true_iff in HP as [Ho Hc].
      apply bool_decide_eq_true in Hc. repeat split; auto.
      intros sid' s' Hs' HP'. pose proof (proj1 (select_nil _ _) Eb _ _ Hs') as E.
      congruence.
    + discriminate.
  - intros [= -> ->]. apply select_single in Eb as (Hs & HP & Hu).
    unfold open_bound_to in HP. apply andb_true_iff in HP as [Ho Hc].
    apply bool_decide_eq_true in Hc. repeat split; auto.
  - discriminate.
Qed.

Lemma fold_note_delivery (s : Session) (sends : list Sent) :
  let s' := fold_right (fun m => note_delivery (sent_result m)) s sends in
  document_id s' = document_id s /\ state s' = state s /\
  version s' = version s /\ processed_ids s' = processed_ids s /\
  channel_identity s' = channel_identity s /\
  advance_amount s' = advance_amount s /\ quantity s' = quantity s.
Proof.
  cbv zeta. induction sends as [|m l IH]; simpl; [repeat split|].
  destruct IH as (? & ? & ? & ? & ? & ? & ?). repeat split; assumption.
Qed.

Lemma nonneg_Some (d : Decimal.t) : 0 <= Decimal.unscaled d -> nonneg (Some d).
Proof. intros H d' [= <-]. exact H. Qed.

Lemma apply_reply_step (now : Z) (ch rawText mid : string) (sid : Z)
  (s s' : Session) (out : Outcome) (prompt : option Prompt) :
  mid ∉ processed_ids s ->
  apply_reply max_retries now ch rawText mid sid s = Some (s', out, prompt) ->
  reply_step ch mid s (bump s').
Proof.
  intros Hfresh. unfold apply_reply.
  destruct (state s) eqn:Est; try discriminate;
    destruct (Decimal.parse rawText) as [d|] eqn:Ep; intros [= <- <- <-];
    (split; simpl; rewrite ?Est; try reflexivity; try assumption;
     try (intros H; exact H);
     try (intros _; apply nonneg_Some; eapply parse_nonneg; eassumption)).
  - right; right; left. auto.
  - destruct (_ <=? _)%nat; [right; left; auto | left; reflexivity].
  - right; right; right. auto.
  - destruct (_ <=? _)%nat; [right; left; auto | left; reflexivity].
Qed.

Lemma reply_step_delivery (ch mid : string) (s s1 s2 : Session) :
  reply_step ch mid s (bump s1) ->
  document_id s2 = document_id s1 -> state s2 = state s1 ->
  version s2 = version s1 -> processed_ids s2 = processed_ids s1 ->
  channel_identity s2 = channel_identity s1 ->
  advance_amount s2 = advance_amount s1 -> quantity s2 = quantity s1 ->
  reply_step ch mid s (bump s2).
Proof.
  intros [Ho Hf Hdoc Hver Hpr Hch Hadv Hqty Hstep] Hd Hs Hv Hp Hc Ha Hq. simpl in *.
  split; simpl; rewrite ?Hd, ?Hs, ?Hv, ?Hp, ?Hc, ?Ha, ?Hq; assumption.
Qed.

Lemma HandleInboundReply_cases (now : Z) (ch rawText mid : string)
  (st st' : Store) (out : Outcome) :
  HandleInboundReply Send max_retries now ch rawText mid st = (st', out) ->
  (st' = st /\ silent out) \/
  (exists sid s s', reply_effect ch mid st st' sid s s' /\ ~ silent out).
Proof.
  unfold HandleInboundReply.
  destruct (resolve (sessions st) ch) as [sid s| |] eqn:Er;
    [|intros [= <- <-]; left; split; [reflexivity|exact I] ..].
  apply resolve_Resolved in Er as (Hs & Ho & Hch & Hu).
  destruct (bool_decide (mid ∈ processed_ids s)) eqn:Ed;
    [intros [= <- <-]; left; split; [reflexivity|exact I]|].
  apply bool_decide_eq_false in Ed.
  destruct (apply_reply max_retries now ch rawText mid sid s)
    as [[[s1 o] prompt]|] eqn:Ea;
    [|intros [= <- <-]; left; split; [reflexivity|exact I]].
  set (sends := match prompt with Some p => [send Send (reach s1) p] | None => [] end).
  set (s2 := fold_right (fun m => note_delivery (sent_result m)) s1 sends).
  pose proof (fold_note_delivery s1 sends) as (Hd & Hst & Hv & Hp & Hc & Ha & Hq).
  fold s2 in Hd, Hst, Hv, Hp, Hc, Ha, Hq.
  pose proof (reply_step_delivery ch mid s s1 s2
                (apply_reply_step now ch rawText mid sid s s1 o prompt Ed Ea)
                Hd Hst Hv Hp Hc Ha Hq) as Hstep.
  unfold conditional_update. rewrite Hs, Z.eqb_refl.
  intros [= <- <-]. right. exists sid, s, (bump s2). split.
  - unfold finalize.
    destruct (state s2) eqn:E2; try (split; simpl; auto; fail).
    destruct (advance_amount s2) as [a|] eqn:Ea2; [|split; simpl; auto].
    destruct (quantity s2) as [q|] eqn:Eq2; [|split; simpl; auto].
    split; simpl; auto. right. rewrite E2. split; [reflexivity|].
    exists a, q. rewrite Hd.
    assert (Hdoc : document_id s1 = document_id s).
    { pose proof (rs_document _ _ _ _ Hstep) as H. simpl in H. congruence. }
    rewrite Hdoc. repeat split; auto.
    destruct (ledger st !! document_id s); auto.
  - unfold apply_reply in Ea.
    destruct (state s); try discriminate;
      destruct (Decimal.parse rawText); injection Ea as <- <- <-; simpl; tauto.
Qed.

End ReplyFacts.

(** ** Starting a session *)
Section StartFacts.
Variable Send : string -> Prompt -> DeliveryResult.
Variable max_retries : nat.

Lemma StartSession_cases (now doc : Z) (addr : string) (st st' : Store)
  (r : StartResult) :
  StartSession Send now doc addr st = (st', r) ->
  (st' = st /\ r = NotEligible /\
   (forall sid s, sessions st !! sid = Some s -> open_for doc s = false) /\
   ~ (exists d, documents st !! doc = Some d /\ hire_status d = NotStarted)) \/
  (st' = st /\ exists sid s, r = AlreadyOpen sid /\
                 sessions st !! sid = Some s /\ open_for doc s = true) \/
  (r = Started (next_session_id st) /\ exists s1, start_effect doc st st' s1).
Proof.
  unfold StartSession.
  destruct (open_session_of doc (sessions st)) as [[sid s]|] eqn:Eo.
  - intros [= <- <-]. right; left. split; [reflexivity|].
    apply select_head_In in Eo. exists sid, s. tauto.
  - pose proof (proj1 (select_head_None _ _) Eo) as Hnone.
    destruct (documents st !! doc) as [d|] eqn:Ed.
    + destruct (bool_decide (hire_status d = NotStarted)) eqn:Eh.
      * apply bool_decide_eq_true in Eh.
        cbv zeta. unfold conditional_update. rewrite lookup_insert_eq.
        change (version (new_session doc addr now) =? 0) with true. cbv iota.
        intros [= <- <-]. right; right. split; [reflexivity|].
        exists (bump (after_first_prompt (Send addr AskAdvance)
                        (new_session doc addr now))).
        split; simpl; auto;
          try (unfold send; simpl; destruct (Send addr AskAdvance); reflexivity);
          try apply insert_insert_eq; eauto.
      * apply bool_decide_eq_false in Eh.
        intros [= <- <-]. left. repeat split; auto.
        intros (d' & Hd' & Hn). congruence.
    + intros [= <- <-]. left. repeat split; auto.
      intros (d' & Hd' & Hn). congruence.
Qed.

End StartFacts.

(** ** Reachable stores are consistent *)
Section Consistency.
Variable Send : string -> Prompt -> DeliveryResult.
Variable max_retries : nat.

Lemma consistent_initial (docs : gmap Z Document) : consistent (initial docs).
Proof.
  split; simpl; intros;
    match goal with H : ∅ !! _ = Some _ |- _ => rewrite lookup_empty in H; discriminate end.
Qed.

Lemma open_for_true (doc : Z) (s : Session) :
  open_for doc s = true <-> is_open (state s) = true /\ document_id s = doc.
Proof. unfold open_for. rewrite andb_true_iff, Z.eqb_eq. reflexivity. Qed.

Lemma consistent_start (doc : Z) (st st' : Store) (s1 : Session) :
  consistent st -> start_effect doc st st' s1 -> consistent st'.
Proof.
  intros [Hid Hone Hhire Hamt Hled]
    [se_sessions0 se_next0 se_documents0 se_ledger0 se_open0 se_document0
     se_advance0 se_quantity0 se_processed0 se_version0 se_none_open0 se_not_started0].
  assert (Hclash : forall sid s, sessions st !! sid = Some s ->
                     is_open (state s) = true -> document_id s = doc -> False).
  { intros sid s Hs Ho Hd. pose proof (se_none_open0 _ _ Hs) as E.
    assert (open_for doc s = true) by (apply open_for_true; auto). congruence. }
  split; rewrite ?se_sessions0, ?se_next0, ?se_documents0, ?se_ledger0.
  - intros sid s [[<- <-]|[_ Hs]]%lookup_insert_Some; [lia|].
    apply Hid in Hs. lia.
  - intros sid1 s1' sid2 s2' [[<- <-]|[Hn1 H1]]%lookup_insert_Some
      [[<- <-]|[Hn2 H2]]%lookup_insert_Some Ho1 Ho2 Hd; try reflexivity.
    + exfalso. apply (Hclash _ _ H2 Ho2). congruence.
    + exfalso. apply (Hclash _ _ H1 Ho1). congruence.
    + eapply Hone; eauto.
  - intros sid s [[<- <-]|[_ Hs]]%lookup_insert_Some Ho.
    + rewrite se_document0. exact se_not_started0.
    + eapply Hhire; eauto.
  - intros sid s [[<- <-]|[_ Hs]]%lookup_insert_Some.
    + rewrite se_advance0, se_quantity0. split; intros d [=].
    + eapply Hamt; eauto.
  - exact Hled.
Qed.

Lemma state_step_open (a b : SessionState) :
  state_step a b -> is_open b = true -> is_open a = true.
Proof.
  intros [-> | [[Ho [-> | ->]] | [[-> ->] | [-> ->]]]]; simpl; auto; discriminate.
Qed.

Lemma consistent_reply (ch mid : string) (st st' : Store) (sid : Z) (s s' : Session) :
  consistent st -> reply_effect ch mid st st' sid s s' -> consistent st'.
Proof.
  intros [Hid Hone Hhire Hamt Hled]
    [Hb [rs_open rs_fresh rs_document rs_version rs_processed rs_channel
           rs_advance rs_quantity rs_state] Hs' Hn _ Hrest].
  assert (Hamt' : nonneg (advance_amount s') /\ nonneg (quantity s')).
  { destruct (Hamt _ _ Hb). split; auto. }
  split; rewrite ?Hs', ?Hn.
  - intros sid1 s1 [[<- <-]|[_ H1]]%lookup_insert_Some; eapply Hid; eauto.
  - intros sid1 s1 sid2 s2 [[<- <-]|[Hn1 H1]]%lookup_insert_Some
      [[<- <-]|[Hn2 H2]]%lookup_insert_Some Ho1 Ho2 Hd; try reflexivity.
    + eapply (Hone sid s sid2 s2); eauto. congruence.
    + eapply (Hone sid1 s1 sid s); eauto. congruence.
    + eapply Hone; eauto.
  - intros sid1 s1 Hl Ho.
    destruct Hrest as [[-> _] | (Hc & a & q & _ & _ & -> & _)].
    + apply lookup_insert_Some in Hl as [[<- <-]|[_ H1]].
      * rewrite rs_document. eapply Hhire; eauto.
      * eapply Hhire; eauto.
    + apply lookup_insert_Some in Hl as [[<- <-]|[Hne H1]].
      * rewrite Hc in Ho. discriminate.
      * destruct (Hhire _ _ H1 Ho) as (d & Hd & Hns).
        exists d. split; [|exact Hns].
        rewrite lookup_alter_ne; [exact Hd|].
        intros E. apply Hne. eapply (Hone sid s sid1 s1); eauto.
  - intros sid1 s1 [[<- <-]|[_ H1]]%lookup_insert_Some; [exact Hamt'|].
    eapply Hamt; eauto.
  - intros doc e He.
    destruct Hrest as [[_ E] | (_ & a & q & Ha & Hq & _ & [E | E])];
      rewrite E in He; try (eapply Hled; eauto; fail).
    apply lookup_insert_Some in He as [[_ <-]|[_ He]]; [|eapply Hled; eauto].
    simpl. destruct Hamt' as [H1 H2]. split; [apply H1 | apply H2]; assumption.
Qed.

Lemma consistent_fmap (f : Session -> Session) (st st' : Store) :
  (forall s, document_id (f s) = document_id s /\
             advance_amount (f s) = advance_amount s /\
             quantity (f s) = quantity s /\
             (is_open (state (f s)) = true -> is_open (state s) = true)) ->
  sessions st' = f <$> sessions st ->
  next_session_id st' = next_session_id st ->
  documents st' = documents st -> ledger st' = ledger st ->
  consistent st -> consistent st'.
Proof.
  intros Hf Hs Hn Hd Hl [Hid Hone Hhire Hamt Hled].
  split; rewrite ?Hs, ?Hn, ?Hd, ?Hl; auto.
  - intros sid s (s0 & <- & H0)%lookup_fmap_Some. eapply Hid; eauto.
  - intros sid1 s1 sid2 s2 (a & <- & Ha)%lookup_fmap_Some
      (b & <- & Hb)%lookup_fmap_Some Ho1 Ho2 Hdoc.
    destruct (Hf a) as (Ea & _ & _ & Oa), (Hf b) as (Eb & _ & _ & Ob).
    eapply (Hone sid1 a sid2 b); eauto. congruence.
  - intros sid s (a & <- & Ha)%lookup_fmap_Some Ho.
    destruct (Hf a) as (Ea & _ & _ & Oa). rewrite Ea. eapply Hhire; eauto.
  - intros sid s (a & <- & Ha)%lookup_fmap_Some.
    destruct (Hf a) as (_ & -> & -> & _). eapply Hamt; eauto.
Qed.

Lemma sweep_session_frame (now : Z) (policy : TimeoutPolicy) (s : Session) :
  document_id (sweep_session now policy s) = document_id s /\
  advance_amount (sweep_session now policy s) = advance_amount s /\
  quantity (sweep_session now policy s) = quantity s /\
  (is_open (state (sweep_session now policy s)) = true -> is_open (state s) = true).
Proof.
  unfold sweep_session.
  destruct (due_for_expiry now policy s) eqn:E; [simpl; repeat split; discriminate|].
  destruct (due_for_reminder now policy s); simpl; auto.
Qed.

Lemma cancel_session_frame (doc : Z) (reason : string) (s : Session) :
  document_id (cancel_session doc reason s) = document_id s /\
  advance_amount (cancel_session doc reason s) = advance_amount s /\
  quantity (cancel_session doc reason s) = quantity s /\
  (is_open (state (cancel_session doc reason s)) = true -> is_open (state s) = true).
Proof.
  unfold cancel_session.
  destruct (open_for doc s); simpl; auto. repeat split; discriminate.
Qed.

Lemma consistent_serve (r : Request) (st : Store) :
  consistent st -> consistent (serve Send max_retries r st).
Proof.
  intros Hc. destruct r as [now doc addr|now ch rawText mid|now policy|doc reason]; simpl.
  - destruct (StartSession Send now doc addr st) as [st' res] eqn:E.
    apply StartSession_cases in E
      as [(-> & _) | [(-> & _) | (_ & s1 & He)]]; simpl; auto.
    eapply consistent_start; eauto.
  - destruct (HandleInboundReply Send max_retries now ch rawText mid st)
      as [st' out] eqn:E.
    apply HandleInboundReply_cases in E
      as [(-> & _) | (sid & s & s' & He & _)]; simpl; auto.
    eapply consistent_reply; eauto.
  - eapply (consistent_fmap (sweep_session now policy)); eauto; try reflexivity.
    apply sweep_session_frame.
  - eapply (consistent_fmap (cancel_session doc reason)); eauto; try reflexivity.
    apply cancel_session_frame.
Qed.

Lemma run_snoc (rs : list Request) (r : Request) (st : Store) :
  run Send max_retries (rs ++ [r])%list st
  = serve Send max_retries r (run Send max_retries rs st).
Proof. unfold run. rewrite fold_left_app. reflexivity. Qed.

Lemma consistent_run (rs : list Request) (st : Store) :
  consistent st -> consistent (run Send max_retries rs st).
Proof.
  revert st. induction rs as [|r rs IH]; intros st Hc; simpl; [exact Hc|].
  apply IH, consistent_serve, Hc.
Qed.

Lemma reachable_consistent (st : Store) :
  reachable Send max_retries st -> consistent st.
Proof.
  intros (docs & rs & ->). apply consistent_run, consistent_initial.
Qed.

Lemma reachable_run (rs : list Request) (st : Store) :
  reachable Send max_retries st -> reachable Send max_retries (run Send max_retries rs st).
Proof.
  intros (docs & rs0 & ->). exists docs, (rs0 ++ rs)%list.
  unfold run. rewrite fold_left_app. reflexivity.
Qed.

End Consistency.

(** ** Persisted schema *)
Section SchemaFacts.
Import Schema.

Lemma cell_insert_eq (r : row) (k : string) (v : sqlval) :
  cell (<[k := v]> r) k = v.
Proof. unfold cell. rewrite lookup_insert_eq. reflexivity. Qed.

Lemma cell_insert_ne (r : row) (k k' : string) (v : sqlval) :
  k <> k' -> cell (<[k := v]> r) k' = cell r k'.
Proof. intros H. unfold cell. rewrite lookup_insert_ne by exact H. reflexivity. Qed.

Lemma accepts_columns (docs : gset Z) (t : table) (r : row) :
  accepts docs t r = true <->
  (forall c, In c (columns t) ->
             column_accepts c (cell r (col_name c)) = true /\
             reference_holds docs c (cell r (col_name c)) = true) /\
  (forall chk, In chk (checks t) -> chk r = true).
Proof.
  unfold accepts. rewrite andb_true_iff, !forallb_forall.
  split; intros [H1 H2]; split; auto; intros c Hc.
  - apply andb_true_iff. apply H1, Hc.
  - apply andb_true_iff. apply H1, Hc.
Qed.

(** Changing one cell of an accepted row: only that column is checked
    again, as long as the table declares no [CHECK]. *)
Lemma accepts_update (docs : gset Z) (t : table) (r : row) (k : string) (v : sqlval) :
  checks t = [] ->
  accepts docs t r = true ->
  (accepts docs t (<[k := v]> r) = true <->
   forall c, In c (columns t) -> col_name c = k ->
             column_accepts c v = true /\ reference_holds docs c v = true).
Proof.
  intros Hno Hacc. rewrite accepts_columns in Hacc |- *. rewrite Hno in *.
  destruct Hacc as [Hcols _]. split.
  - intros [H _] c Hc <-. specialize (H c Hc). rewrite cell_insert_eq in H. exact H.
  - intros H. split; [|intros chk []].
    intros c Hc. destruct (decide (k = col_name c)) as [->|Hne].
    + rewrite cell_insert_eq. apply H; auto.
    + rewrite cell_insert_ne by exact Hne. apply Hcols, Hc.
Qed.

Lemma sessions_status_column (c : column) :
  In c (columns telegram_pending_sessions) -> col_name c = "status" ->
  c = DEFAULT (DefaultText "pending") (col "status" (VARCHAR 20)).
Proof.
  simpl. intros H Hn.
  repeat (destruct H as [<- | H]; [try discriminate Hn; try reflexivity|]).
  destruct H.
Qed.

Lemma sessions_status_unconstrained (docs : gset Z) (r : row) (v : sqlval) :
  accepts docs telegram_pending_sessions r = true ->
  (accepts docs telegram_pending_sessions (<["status" := v]> r) = true <->
   v = VNull \/ exists n, v = VText n /\ (String.length n <= 20)%nat).
Proof.
  intros Hacc. rewrite (accepts_update docs telegram_pending_sessions r "status" v eq_refl Hacc). split.
  - intros H.
    destruct (H (DEFAULT (DefaultText "pending") (col "status" (VARCHAR 20))))
      as [Hc _]; [simpl; tauto | reflexivity |].
    destruct v; simpl in Hc; try discriminate; [left; reflexivity|].
    right. eexists; split; [reflexivity|]. apply Nat.leb_le, Hc.
  - intros Hv c Hc Hn. rewrite (sessions_status_column c Hc Hn).
    destruct Hv as [-> | (n & -> & Hlen)]; simpl; split; auto.
    apply Nat.leb_le, Hlen.
Qed.

Lemma hire_amount_columns (c : column) :
  In c (columns vehicle_hire) ->
  (col_name c = "advance_amount" -> c = NOT_NULL (col "advance_amount" (DECIMAL 10 2))) /\
  (col_name c = "qty" -> c = NOT_NULL (col "qty" (DECIMAL 10 3))).
Proof.
  simpl. intros H.
  repeat (destruct H as [<- | H];
          [split; intros Hn; try discriminate Hn; reflexivity|]).
  destruct H.
Qed.

Lemma hire_amounts_fixed_point (docs : gset Z) (r : row) :
  accepts docs vehicle_hire r = true ->
  (exists u, cell r "advance_amount" = VDec u 2 /\ Z.abs u < 10 ^ 10) /\
  (exists u, cell r "qty" = VDec u 3 /\ Z.abs u < 10 ^ 10).
Proof.
  intros Hacc. apply accepts_columns in Hacc as [H _]. split.
  - destruct (H (NOT_NULL (col "advance_amount" (DECIMAL 10 2)))) as [Hc _];
      [simpl; tauto|]. simpl in Hc.
    destruct (cell r "advance_amount") as [| | |u k| |]; simpl in Hc; try discriminate.
    apply andb_true_iff in Hc as [Hk Hu]. apply Nat.eqb_eq in Hk as ->.
    apply Z.ltb_lt in Hu. exists u. split; [reflexivity | exact Hu].
  - destruct (H (NOT_NULL (col "qty" (DECIMAL 10 3)))) as [Hc _];
      [simpl; tauto|]. simpl in Hc.
    destruct (cell r "qty") as [| | |u k| |]; simpl in Hc; try discriminate.
    apply andb_true_iff in Hc as [Hk Hu]. apply Nat.eqb_eq in Hk as ->.
    apply Z.ltb_lt in Hu. exists u. split; [reflexivity | exact Hu].
Qed.

Lemma hire_amounts_any_sign (docs : gset Z) (r : row) (u : Z) :
  accepts docs vehicle_hire r = true -> Z.abs u < 10 ^ 10 ->
  accepts docs vehicle_hire (<["advance_amount" := VDec u 2]> r) = true /\
  accepts docs vehicle_hire (<["qty" := VDec u 3]> r) = true.
Proof.
  intros Hacc Hu. apply Z.ltb_lt in Hu. split.
  - apply (accepts_update docs vehicle_hire r "advance_amount" _ eq_refl Hacc).
    intros c Hc Hn.
    rewrite (proj1 (hire_amount_columns c Hc) Hn). simpl.
    split; [exact Hu | reflexivity].
  - apply (accepts_update docs vehicle_hire r "qty" _ eq_refl Hacc).
    intros c Hc Hn.
    rewrite (proj2 (hire_amount_columns c Hc) Hn). simpl.
    split; [exact Hu | reflexivity].
Qed.

End SchemaFacts.

(** ** What a request does to a stored session *)
Section Progress.
Variable Send : string -> Prompt -> DeliveryResult.
Variable max_retries : nat.

Lemma state_step_refl (a : SessionState) : state_step a a.
Proof. left; reflexivity. Qed.

Lemma sweep_session_progress (now : Z) (policy : TimeoutPolicy) (s : Session) :
  processed_ids (sweep_session now policy s) = processed_ids s /\
  (sweep_session now policy s = s \/ version s < version (sweep_session now policy s)) /\
  state_step (state s) (state (sweep_session now policy s)).
Proof.
  unfold sweep_session. destruct (due_for_expiry now policy s) eqn:E.
  - simpl. repeat split; [right; lia|].
    right; left. unfold due_for_expiry in E. apply andb_true_iff in E as [E _]. auto.
  - destruct (due_for_reminder now policy s); simpl.
    + repeat split; [right; lia | apply state_step_refl].
    + repeat split; [left; reflexivity | apply state_step_refl].
Qed.

Lemma cancel_session_progress (doc : Z) (reason : string) (s : Session) :
  processed_ids (cancel_session doc reason s) = processed_ids s /\
  (cancel_session doc reason s = s \/ version s < version (cancel_session doc reason s)) /\
  state_step (state s) (state (cancel_session doc reason s)).
Proof.
  unfold cancel_session. destruct (open_for doc s) eqn:E; simpl.
  - repeat split; [right; lia|].
    right; left. apply open_for_true in E as [E _]. auto.
  - repeat split; [left; reflexivity | apply state_step_refl].
Qed.

(** Whatever the request, a stored session stays stored; its set of
    processed message ids only grows, its version goes up whenever the
    record changes, and its state moves along an edge of the machine. *)
Lemma serve_session (r : Request) (st : Store) (sid : Z) (s : Session) :
  consistent st -> sessions st !! sid = Some s ->
  exists s', sessions (serve Send max_retries r st) !! sid = Some s' /\
             processed_ids s ⊆ processed_ids s' /\
             (s' = s \/ version s < version s') /\
             state_step (state s) (state s').
Proof.
  intros Hc Hs.
  assert (Hsame : exists s', sessions st !! sid = Some s' /\
             processed_ids s ⊆ processed_ids s' /\
             (s' = s \/ version s < version s') /\ state_step (state s) (state s')).
  { exists s. repeat split; auto. apply state_step_refl. }
  destruct r as [now doc addr|now ch rawText mid|now policy|doc reason]; simpl.
  - destruct (StartSession Send now doc addr st) as [st' res] eqn:E.
    apply StartSession_cases in E
      as [(-> & _) | [(-> & _) | (_ & s1 & He)]]; simpl; auto.
    rewrite (se_sessions _ _ _ _ He), lookup_insert_ne; auto.
    pose proof (ids_below_next _ Hc _ _ Hs). lia.
  - destruct (HandleInboundReply Send max_retries now ch rawText mid st)
      as [st' out] eqn:E.
    apply HandleInboundReply_cases in E
      as [(-> & _) | (sid0 & s0 & s' & He & _)]; simpl; auto.
    rewrite (re_sessions _ _ _ _ _ _ _ He).
    destruct (decide (sid0 = sid)) as [->|Hne]; [|rewrite lookup_insert_ne; auto].
    rewrite lookup_insert_eq. exists s'.
    pose proof (re_before _ _ _ _ _ _ _ He) as Hb. rewrite Hs in Hb.
    injection Hb as <-. pose proof (re_step _ _ _ _ _ _ _ He) as Hst.
    split; [reflexivity|].
    split; [rewrite (rs_processed _ _ _ _ Hst); apply union_subseteq_r|].
    split; [right; rewrite (rs_version _ _ _ _ Hst); lia|].
    exact (rs_state _ _ _ _ Hst).
  - rewrite lookup_fmap, Hs. simpl. eexists; split; [reflexivity|].
    destruct (sweep_session_progress now policy s) as (-> & ? & ?). auto.
  - rewrite lookup_fmap, Hs. simpl. eexists; split; [reflexivity|].
    destruct (cancel_session_progress doc reason s) as (-> & ? & ?). auto.
Qed.

Lemma run_session (rs : list Request) (st : Store) (sid : Z) (s : Session) :
  consistent st -> sessions st !! sid = Some s ->
  exists s', sessions (run Send max_retries rs st) !! sid = Some s' /\
             processed_ids s ⊆ processed_ids s' /\ version s <= version s'.
Proof.
  revert st s. induction rs as [|r rs IH]; intros st s Hc Hs; simpl.
  - exists s. repeat split; auto. lia.
  - destruct (serve_session r st sid s Hc Hs) as (s1 & H1 & Hp1 & Hv1 & _).
    destruct (IH _ s1 (consistent_serve Send max_retries r st Hc) H1)
      as (s2 & H2 & Hp2 & Hv2).
    exists s2. split; [exact H2|]. split; [etrans; eassumption|].
    destruct Hv1 as [-> | Hv1]; lia.
Qed.




End Progress.

(** ** The conversational flow *)


(** C3. For a document that has an open session, [StartSession] returns the
    id of that session and leaves the store as it is; started twice in a
    row, it returns the same id both times and adds no second row. *)
Theorem StartSession_idempotent :
  forall (Send : string -> Prompt -> DeliveryResult) (max_retries : nat)
         (now doc : Z) (addr : string) (st : Store),
    reachable Send max_retries st ->
    (forall sid s,
       sessions st !! sid = Some s -> is_open (state s) = true ->
       document_id s = doc ->
       StartSession Send now doc addr st = (st, AlreadyOpen sid)) /\
    (forall st1 sid,
       StartSession Send now doc addr st = (st1, Started sid) ->
       forall now' addr',
         StartSession Send now' doc addr' st1 = (st1, AlreadyOpen sid)).
Proof.
  intros Send max_retries now doc addr st Hreach.
  pose proof (reachable_consistent _ _ _ Hreach) as Hc. split.
  - intros sid s Hs Ho Hd.
    assert (Hof : open_for doc s = true) by (apply open_for_true; auto).
    destruct (StartSession Send now doc addr st) as [st' res] eqn:E.
    apply StartSession_cases in E
      as [(_ & _ & Hnone & _) | [(-> & sid' & s' & -> & Hs' & Ho') | (_ & s1 & He)]].
    + rewrite (Hnone _ _ Hs) in Hof. discriminate.
    + apply open_for_true in Ho' as [Ho' Hd'].
      rewrite (one_open_per_document _ Hc sid' s' sid s); auto. congruence.
    + rewrite (se_none_open _ _ _ _ He _ _ Hs) in Hof. discriminate.
  - intros st1 sid E now' addr'.
    apply StartSession_cases in E
      as [(_ & [=] & _) | [(_ & ? & ? & [=] & _) | ([= ->] & s1 & He)]].
    assert (H1 : sessions st1 !! next_session_id st = Some s1)
      by (rewrite (se_sessions _ _ _ _ He); apply lookup_insert_eq).
    assert (Hof : open_for doc s1 = true)
      by (apply open_for_true; split;
          [exact (se_open _ _ _ _ He) | exact (se_document _ _ _ _ He)]).
    destruct (StartSession Send now' doc addr' st1) as [st2 res] eqn:E2.
    apply StartSession_cases in E2
      as [(_ & _ & Hnone & _) | [(-> & sid' & s' & -> & Hs' & Ho') | (_ & s2 & He2)]].
    + rewrite (Hnone _ _ H1) in Hof. discriminate.
    + rewrite (se_sessions _ _ _ _ He) in Hs'.
      apply lookup_insert_Some in Hs' as [[<- _]|[_ Hs']]; [reflexivity|].
      rewrite (se_none_open _ _ _ _ He _ _ Hs') in Ho'. discriminate.
    + rewrite (se_none_open _ _ _ _ He2 _ _ H1) in Hof. discriminate.
Qed.

Section PageFacts.
Import JS VehicleHirePage.

Lemma strict_eq_str_true (v : value) (lit : string) :
  strict_eq_str v lit = true <-> v = Str lit.
Proof.
  destruct v; simpl; try (split; [discriminate | intros [=]]).
  rewrite String.eqb_eq. split; [intros ->; reflexivity | intros [= ->]; reflexivity].
Qed.

Lemma readyForVehicleHire_true (doc : gmap string value) :
  readyForVehicleHire doc = true <->
  get doc "data_extraction_status" = Str "Completed" /\
  get doc "erp_entry_status" = Str "Completed" /\
  get doc "vehicle_hire_status" = Str "Not Started".
Proof.
  unfold readyForVehicleHire. rewrite !andb_true_iff, !strict_eq_str_true. tauto.
Qed.

End PageFacts.


(** C5. Sweeping expires every open session that has been idle beyond the
    expiry threshold (its row then has status 'expired') and touches no
    document: the hire status of the session's document is still
    NotStarted, and a [StartSession] for that document then opens a new
    session. *)
Theorem ExpireIdleSessions_frees_document :
  forall (Send : string -> Prompt -> DeliveryResult) (max_retries : nat)
         (now : Z) (policy : TimeoutPolicy) (st : Store) (sid : Z) (s : Session),
    reachable Send max_retries st ->
    sessions st !! sid = Some s ->
    is_open (state s) = true ->
    expire_after policy < now - last_activity_at s ->
    (exists s', sessions (fst (ExpireIdleSessions Send now policy st)) !! sid = Some s' /\
                state s' = Expired /\
                Schema.cell (Persistence.to_row sid s') "status" = Schema.VText "expired") /\
    In sid (snd (ExpireIdleSessions Send now policy st)) /\
    documents (fst (ExpireIdleSessions Send now policy st)) = documents st /\
    (exists d, documents (fst (ExpireIdleSessions Send now policy st)) !! document_id s
                 = Some d /\ hire_status d = NotStarted) /\
    (forall now' addr,
       exists st2 s2,
         StartSession Send now' (document_id s) addr
           (fst (ExpireIdleSessions Send now policy st))
         = (st2, Started (next_session_id st)) /\
         sessions (fst (ExpireIdleSessions Send now policy st)) !! next_session_id st
           = None /\
         sessions st2 !! next_session_id st = Some s2 /\
         is_open (state s2) = true /\ document_id s2 = document_id s).
Proof.
  intros Send max_retries now policy st sid s Hreach Hs Ho Hidle.
  pose proof (reachable_consistent _ _ _ Hreach) as Hc.
  assert (Hdue : due_for_expiry now policy s = true).
  { unfold due_for_expiry, idle_beyond. rewrite Ho. apply Z.ltb_lt, Hidle. }
  assert (Hc' : consistent (fst (ExpireIdleSessions Send now policy st)))
    by apply (consistent_serve Send max_retries (ReqSweep now policy) st Hc).
  assert (Hsid : sessions (fst (ExpireIdleSessions Send now policy st)) !! sid
                 = Some (bump (with_state Expired s))).
  { simpl. rewrite lookup_fmap, Hs. simpl. unfold sweep_session.
    rewrite Hdue. reflexivity. }
  destruct (open_means_not_started _ Hc _ _ Hs Ho) as (d & Hd & Hns).
  split; [eexists; split; [exact Hsid | split; reflexivity]|].
  split; [apply in_map_iff; exists (sid, s); split;
          [reflexivity | apply select_In; auto]|].
  split; [reflexivity|].
  split; [exists d; auto|].
  intros now' addr.
  destruct (StartSession Send now' (document_id s) addr
              (fst (ExpireIdleSessions Send now policy st))) as [st2 res] eqn:E.
  apply StartSession_cases in E
    as [(_ & _ & _ & Hno) | [(_ & sid' & s' & _ & Hs' & Ho') | (-> & s1 & He)]].
  - exfalso. apply Hno. exists d. auto.
  - exfalso. apply open_for_true in Ho' as [Ho' Hd'].
    assert (sid' = sid).
    { simpl in Hs'. apply lookup_fmap_Some in Hs' as (s0 & <- & Hs0).
      destruct (sweep_session_frame now policy s0) as (Hdoc & _ & _ & Hop).
      eapply (one_open_per_document _ Hc sid' s0 sid s); eauto. congruence. }
    subst sid'. rewrite Hsid in Hs'. injection Hs' as <-. discriminate Ho'.
  - exists st2, s1. split; [reflexivity|].
    split.
    { destruct (sessions (fst (ExpireIdleSessions Send now policy st))
                  !! next_session_id st) as [s0|] eqn:E0; [|reflexivity].
      pose proof (ids_below_next _ Hc' _ _ E0) as Hlt. simpl in Hlt. lia. }
    split; [rewrite (se_sessions _ _ _ _ He); apply lookup_insert_eq|].
    split; [exact (se_open _ _ _ _ He) | exact (se_document _ _ _ _ He)].
Qed.

(** ** Sessions and ledger entries against the tables *)

(** What [INSERT] puts in a column the statement leaves out. *)
Lemma with_defaults_lookup (now serial : Z) (cols : list Schema.column)
  (r : Schema.row) (k : string) :
  r !! k = None ->
  fold_right
    (fun c acc =>
       match r !! Schema.col_name c with
       | Some _ => acc
       | None => <[Schema.col_name c :=
                     Schema.default_value now serial (Schema.col_default c)]> acc
       end) r cols !! k
  = (fun c => Schema.default_value now serial (Schema.col_default c))
      <$> List.find (fun c => String.eqb (Schema.col_name c) k) cols.
Proof.
  intros Hk. induction cols as [|c cols IH]; simpl; [exact Hk|].
  destruct (String.eqb_spec (Schema.col_name c) k) as [->|Hne].
  - rewrite Hk, lookup_insert_eq. reflexivity.
  - destruct (r !! Schema.col_name c); [exact IH|].
    rewrite lookup_insert_ne by exact Hne. exact IH.
Qed.

Lemma status_name_listed (st : SessionState) :
  In (Persistence.status_name st) Persistence.state_names /\
  (String.length (Persistence.status_name st) <= 20)%nat.
Proof. destruct st; simpl; split; try lia; tauto. Qed.

(** The statuses the migration names are the first four of the six state
    names; the two terminal failure states are not among them. *)
Lemma documented_statuses_are_states :
  (forall n, In n Schema.documented_statuses -> In n Persistence.state_names) /\
  ~ In (Persistence.status_name Expired) Schema.documented_statuses /\
  ~ In (Persistence.status_name Cancelled) Schema.documented_statuses.
Proof.
  split; [|split].
  - intros n H. simpl in *. tauto.
  - simpl. intros H. repeat (destruct H as [H|H]; [discriminate H|]). exact H.
  - simpl. intros H. repeat (destruct H as [H|H]; [discriminate H|]). exact H.
Qed.

(** C6 (amended). Every session the orchestrator holds is stored under one
    of the six state names, each of which fits the [status] column, and a
    request moves it only along an edge of the state machine.  The table
    itself does not constrain the column: it is a nullable
    VARCHAR(20) that defaults to 'pending', and an accepted row stays
    accepted whatever text of at most twenty characters is put there. *)
Theorem session_status_enumerated_not_by_schema :
  (forall (Send : string -> Prompt -> DeliveryResult) (max_retries : nat)
          (st : Store) (sid : Z) (s : Session),
     reachable Send max_retries st -> sessions st !! sid = Some s ->
     (exists n, Schema.cell (Persistence.to_row sid s) "status" = Schema.VText n /\
                In n Persistence.state_names /\ (String.length n <= 20)%nat) /\
     (forall r : Request,
        exists s', sessions (serve Send max_retries r st) !! sid = Some s' /\
                   state_step (state s) (state s'))) /\
  (forall (docs : gset Z) (r : Schema.row) (v : Schema.sqlval),
     Schema.accepts docs Schema.telegram_pending_sessions r = true ->
     (Schema.accepts docs Schema.telegram_pending_sessions (<["status" := v]> r) = true <->
      v = Schema.VNull \/
      exists n, v = Schema.VText n /\ (String.length n <= 20)%nat)) /\
  (forall (now serial : Z) (r : Schema.row),
     r !! "status" = None ->
     Schema.cell (Schema.with_defaults now serial Schema.telegram_pending_sessions r)
       "status" = Schema.VText "pending").
Proof.
  split; [|split].
  - intros Send max_retries st sid s Hreach Hs. split.
    + exists (Persistence.status_name (state s)).
      split; [reflexivity | apply status_name_listed].
    + intros r.
      destruct (serve_session Send max_retries r st sid s
                  (reachable_consistent _ _ _ Hreach) Hs) as (s' & Hs' & _ & _ & Hstep).
      exists s'. split; assumption.
  - apply sessions_status_unconstrained.
  - intros now serial r Hr. unfold Schema.cell, Schema.with_defaults.
    rewrite (with_defaults_lookup now serial _ r "status" Hr). reflexivity.
Qed.

(** C7 (amended). In the store, every request that changes a session record
    strictly increases its version, the version never goes down along a run
    of requests, and the conditional update goes through exactly when the
    stored version is the one that was read.  The table
    [telegram_pending_sessions] has no version column: the row of a session
    is the same before and after its version is raised. *)
Theorem session_version_increases_not_persisted :
  (forall (Send : string -> Prompt -> DeliveryResult) (max_retries : nat)
          (r : Request) (st : Store) (sid : Z) (s s' : Session),
     reachable Send max_retries st ->
     sessions st !! sid = Some s ->
     sessions (serve Send max_retries r st) !! sid = Some s' ->
     s' <> s -> version s < version s') /\
  (forall (Send : string -> Prompt -> DeliveryResult) (max_retries : nat)
          (rs : list Request) (st : Store) (sid : Z) (s : Session),
     reachable Send max_retries st ->
     sessions st !! sid = Some s ->
     exists s', sessions (run Send max_retries rs st) !! sid = Some s' /\
                version s <= version s') /\
  (forall (sid read_version : Z) (s' cur : Session) (m : gmap Z Session),
     m !! sid = Some cur ->
     (version cur <> read_version -> conditional_update sid read_version s' m = None) /\
     (version cur = read_version ->
      conditional_update sid read_version s' m = Some (<[sid := bump s']> m))) /\
  Schema.column_names Schema.telegram_pending_sessions
  = ["id"; "doc_id"; "phone_no"; "chat_id"; "manifest_no"; "advance_amount";
     "qty"; "status"; "created_at"; "updated_at"] /\
  (forall (sid : Z) (s : Session),
     Persistence.to_row sid (bump s) = Persistence.to_row sid s).
Proof.
  split; [|split; [|split; [|split]]].
  - intros Send max_retries r st sid s s' Hreach Hs Hs' Hne.
    destruct (serve_session Send max_retries r st sid s
                (reachable_consistent _ _ _ Hreach) Hs) as (s2 & H2 & _ & Hv & _).
    rewrite Hs' in H2. injection H2 as <-. destruct Hv as [E | Hv]; [contradiction | exact Hv].
  - intros Send max_retries rs st sid s Hreach Hs.
    destruct (run_session Send max_retries rs st sid s
                (reachable_consistent _ _ _ Hreach) Hs) as (s' & Hs' & _ & Hv).
    exists s'. split; assumption.
  - intros sid v s' cur m Hm. unfold conditional_update. rewrite Hm. split.
    + intros Hne. apply Z.eqb_neq in Hne. rewrite Hne. reflexivity.
    + intros ->. rewrite Z.eqb_refl. reflexivity.
  - reflexivity.
  - intros sid s. reflexivity.
Qed.

(** C8 (amended). Every ledger entry the orchestrator creates when a
    session is finalized has a non-negative advance amount and a
    non-negative quantity.  The [vehicle_hire] table stores the two as
    NOT NULL fixed-point numbers, DECIMAL(10,2) and DECIMAL(10,3), and
    bounds their magnitude only: an accepted row stays accepted with any
    value of either sign within that bound. *)
Theorem ledger_amounts_nonnegative_not_by_schema :
  (forall (Send : string -> Prompt -> DeliveryResult) (max_retries : nat)
          (st : Store) (doc : Z) (e : LedgerEntry),
     reachable Send max_retries st -> ledger st !! doc = Some e ->
     0 <= Decimal.unscaled (le_advance_amount e) /\
     0 <= Decimal.unscaled (le_quantity e)) /\
  (forall (docs : gset Z) (r : Schema.row),
     Schema.accepts docs Schema.vehicle_hire r = true ->
     (exists u, Schema.cell r "advance_amount" = Schema.VDec u 2 /\ Z.abs u < 10 ^ 10) /\
     (exists u, Schema.cell r "qty" = Schema.VDec u 3 /\ Z.abs u < 10 ^ 10)) /\
  (forall (docs : gset Z) (r : Schema.row) (u : Z),
     Schema.accepts docs Schema.vehicle_hire r = true -> Z.abs u < 10 ^ 10 ->
     Schema.accepts docs Schema.vehicle_hire (<["advance_amount" := Schema.VDec u 2]> r)
       = true /\
     Schema.accepts docs Schema.vehicle_hire (<["qty" := Schema.VDec u 3]> r) = true).
Proof.
  split; [|split].
  - intros Send max_retries st doc e Hreach He.
    exact (ledger_nonneg _ (reachable_consistent _ _ _ Hreach) doc e He).
  - apply hire_amounts_fixed_point.
  - apply hire_amounts_any_sign.
Qed.

(** ** The scenario of the specification and the properties at concrete inputs *)

Lemma reachable_started42 : reachable delivering 3 started42.
Proof. exists docs42, [ReqStart 100 42 "9990001111"]. reflexivity. Defined.

Lemma reachable_advanced42 : reachable delivering 3 advanced42.
Proof.
  exists docs42, [ReqStart 100 42 "9990001111"; ReqReply 101 "chat-77" "2500" "m1"].
  reflexivity.
Defined.

Lemma reachable_completed42 : reachable delivering 3 completed42.
Proof.
  exists docs42,
    [ReqStart 100 42 "9990001111"; ReqReply 101 "chat-77" "2500" "m1";
     ReqReply 102 "chat-77" "12.5" "m2"].
  reflexivity.
Defined.

(** The scenario of section 8: document 42, phone 9990001111, channel
    chat-77. *)
Example scenario_document_42 :
  snd (StartSession delivering 100 42 "9990001111" (initial docs42)) = Started 1 /\
  snd (HandleInboundReply delivering 3 101 "chat-77" "2500" "m1" started42)
    = Accepted 1 AwaitingQuantity /\
  HandleInboundReply delivering 3 102 "chat-88" "12.5" "m9" advanced42
    = (advanced42, ConflictError) /\
  snd (HandleInboundReply delivering 3 102 "chat-77" "12.5" "m2" advanced42)
    = Accepted 1 SessionCompleted /\
  state <$> sessions completed42 !! 1 = Some SessionCompleted /\
  ledger completed42 !! 42
    = Some {| le_advance_amount := {| Decimal.unscaled := 2500; Decimal.scale := 0 |};
              le_quantity := {| Decimal.unscaled := 125; Decimal.scale := 1 |} |} /\
  hire_status <$> documents completed42 !! 42 = Some Completed /\
  overall_status <$> documents completed42 !! 42 = Some Completed.
Proof. vm_compute. repeat split. Qed.

(** A reply that is not a number leaves the state and counts a retry; the
    third one expires the session. *)
Example scenario_retries :
  snd (HandleInboundReply delivering 3 101 "chat-77" "two" "m1" started42)
    = ValidationError 1 1 /\
  state <$> sessions (run delivering 3
                        [ReqReply 101 "chat-77" "two" "m1"] started42) !! 1
    = Some AwaitingAdvance /\
  state <$> sessions (run delivering 3
                        [ReqReply 101 "chat-77" "two" "m1";
                         ReqReply 102 "chat-77" "-3" "m2";
                         ReqReply 103 "chat-77" "3,5" "m3"] started42) !! 1
    = Some Expired.
Proof. vm_compute. repeat split. Qed.


Lemma StartSession_idempotent_witness :
  StartSession delivering 200 42 "9990001111" started42 = (started42, AlreadyOpen 1).
Proof.
  refine (proj2 (StartSession_idempotent delivering 3 100 42 "9990001111"
                   (initial docs42) _) started42 1 _ 200 "9990001111").
  - exists docs42, []. reflexivity.
  - vm_compute. reflexivity.
Defined.


Lemma ExpireIdleSessions_frees_document_witness :
  (exists s', sessions (fst (ExpireIdleSessions delivering 10000
                               {| remind_after := Some 3600; expire_after := 7200 |}
                               started42)) !! 1 = Some s' /\
              state s' = Expired /\
              Schema.cell (Persistence.to_row 1 s') "status" = Schema.VText "expired") /\
  exists st2 s2,
    StartSession delivering 10001 42 "9990002222"
      (fst (ExpireIdleSessions delivering 10000
              {| remind_after := Some 3600; expire_after := 7200 |} started42))
    = (st2, Started 2) /\
    sessions st2 !! 2 = Some s2 /\ is_open (state s2) = true.
Proof.
  destruct (ExpireIdleSessions_frees_document delivering 3 10000
              {| remind_after := Some 3600; expire_after := 7200 |} started42 1
              (bump (with_state AwaitingAdvance (new_session 42 "9990001111" 100)))
              reachable_started42)
    as (Hexp & _ & _ & _ & Hstart).
  - vm_compute. reflexivity.
  - reflexivity.
  - vm_compute. reflexivity.
  - split; [exact Hexp|].
    destruct (Hstart 10001 "9990002222") as (st2 & s2 & H1 & _ & H2 & H3 & _).
    exists st2, s2. auto.
Defined.

(** C6, as stated, fails: the table accepts a session row whose status is
    none of the state names. *)
Lemma sessions_table_accepts_any_status :
  Schema.accepts {[ 42 ]} Schema.telegram_pending_sessions odd_status_row = true /\
  Schema.cell odd_status_row "status" = Schema.VText "bogus" /\
  ~ In "bogus" Persistence.state_names.
Proof.
  split; [vm_compute; reflexivity|]. split; [vm_compute; reflexivity|].
  simpl. intros H. repeat (destruct H as [H|H]; [discriminate H|]). exact H.
Qed.

Lemma session_status_enumerated_not_by_schema_witness :
  (exists n, Schema.cell (Persistence.to_row 1
                (bump (with_state AwaitingAdvance (new_session 42 "9990001111" 100))))
               "status" = Schema.VText n /\
             In n Persistence.state_names /\ (String.length n <= 20)%nat) /\
  Schema.accepts {[ 42 ]} Schema.telegram_pending_sessions
    (<["status" := Schema.VText "expired"]> odd_status_row) = true.
Proof.
  assert (Hacc : Schema.accepts {[ 42 ]} Schema.telegram_pending_sessions
                   odd_status_row = true) by (vm_compute; reflexivity).
  assert (Hst : sessions started42 !! 1
                = Some (bump (with_state AwaitingAdvance
                                (new_session 42 "9990001111" 100))))
    by (vm_compute; reflexivity).
  split.
  - exact (proj1 (proj1 session_status_enumerated_not_by_schema delivering 3%nat
                    started42 1 _ reachable_started42 Hst)).
  - refine (proj2 (proj1 (proj2 session_status_enumerated_not_by_schema)
                     {[ 42 ]} odd_status_row (Schema.VText "expired") Hacc) _).
    right. exists "expired". split; [reflexivity | simpl; lia].
Defined.

(** C7, as stated, fails: the table has no version column, and raising the
    version of a session does not change its row. *)
Lemma sessions_table_has_no_version :
  ~ In "version" (Schema.column_names Schema.telegram_pending_sessions) /\
  version (bump (new_session 42 "9990001111" 100))
    <> version (new_session 42 "9990001111" 100) /\
  Persistence.to_row 1 (bump (new_session 42 "9990001111" 100))
  = Persistence.to_row 1 (new_session 42 "9990001111" 100).
Proof.
  split; [|split; [discriminate | reflexivity]].
  simpl. intros H. repeat (destruct H as [H|H]; [discriminate H|]). exact H.
Qed.

Lemma session_version_increases_not_persisted_witness :
  version (bump (with_state AwaitingAdvance (new_session 42 "9990001111" 100)))
  < version
      (bump (store_advance {| Decimal.unscaled := 2500; Decimal.scale := 0 |} 101
               (take_in "chat-77" "m1"
                  (bump (with_state AwaitingAdvance
                           (new_session 42 "9990001111" 100)))))).
Proof.
  refine (proj1 session_version_increases_not_persisted delivering 3%nat
            (ReqReply 101 "chat-77" "2500" "m1") started42 1 _ _
            reachable_started42 _ _ _).
  - vm_compute. reflexivity.
  - vm_compute. reflexivity.
  - intros E. apply (f_equal state) in E. discriminate E.
Defined.

(** C8, as stated, fails: the table accepts a ledger row with a negative
    advance amount and a negative quantity. *)
Lemma hire_table_accepts_negative_amounts :
  Schema.accepts {[ 42 ]} Schema.vehicle_hire negative_hire_row = true /\
  Schema.cell negative_hire_row "advance_amount" = Schema.VDec (-250000) 2 /\
  Schema.cell negative_hire_row "qty" = Schema.VDec (-12500) 3.
Proof. vm_compute. repeat split. Qed.

Lemma ledger_amounts_nonnegative_not_by_schema_witness :
  (0 <= 2500 /\ 0 <= 125) /\
  Schema.accepts {[ 42 ]} Schema.vehicle_hire
    (<["advance_amount" := Schema.VDec (-1) 2]> negative_hire_row) = true.
Proof.
  assert (Hacc : Schema.accepts {[ 42 ]} Schema.vehicle_hire negative_hire_row = true)
    by (vm_compute; reflexivity).
  assert (Hled : ledger completed42 !! 42
                 = Some {| le_advance_amount :=
                             {| Decimal.unscaled := 2500; Decimal.scale := 0 |};
                           le_quantity :=
                             {| Decimal.unscaled := 125; Decimal.scale := 1 |} |})
    by (vm_compute; reflexivity).
  assert (Hlt : Z.abs (-1) < 10 ^ 10) by reflexivity.
  split.
  - exact (proj1 ledger_amounts_nonnegative_not_by_schema delivering 3%nat
             completed42 42 _ reachable_completed42 Hled).
  - exact (proj1 (proj2 (proj2 ledger_amounts_nonnegative_not_by_schema)
                    {[ 42 ]} negative_hire_row (-1) Hacc Hlt)).
Defined.

(* ===================================================================== *)
(** * Further properties of the pages and the schema                      *)
(* ===================================================================== *)

(** ** More on the KPI cards *)

(** X1.  [getNumeric] never yields NaN or an infinity, so the Duplicate card
    always shows a finite number, whatever the summary holds and however
    strings convert to numbers. *)
Theorem duplicate_card_always_finite :
  forall (StringToNumber : string -> JS.number) (summary : gmap string JS.value),
    exists n, DashboardPage.shownUnder StringToNumber "Duplicate" summary
              = Some (JS.Num n) /\ JS.isFinite n = true.
Proof.
  intros stn summary. rewrite shown_duplicate.
  exists (DashboardPage.duplicateValue stn summary). split; [reflexivity|].
  unfold DashboardPage.duplicateValue, DashboardPage.getNumeric.
  destruct (JS.is_nullish _); [reflexivity|].
  destruct (JS.isFinite (JS.ToNumber stn _)) eqn:E; [exact E | reflexivity].
Qed.

(** X2.  A [summary.duplicate] that is present but does not read as a finite
    number masks every fallback: the card shows 0 even when a failed count
    or another duplicate key is there. *)
Theorem duplicate_card_masked_by_unreadable_value :
  forall (StringToNumber : string -> JS.number) (summary : gmap string JS.value)
         (v : JS.value),
    summary !! "duplicate" = Some v ->
    JS.is_nullish v = false ->
    JS.isFinite (JS.ToNumber StringToNumber v) = false ->
    DashboardPage.shownUnder StringToNumber "Duplicate" summary
    = Some (JS.Num JS.zero).
Proof.
  intros stn summary v Hv Hn Hf. rewrite shown_duplicate.
  unfold DashboardPage.duplicateValue, JS.get. rewrite Hv. simpl.
  assert (E : forall a b c d e,
             JS.nullish (JS.nullish (JS.nullish (JS.nullish (JS.nullish v a) b) c) d) e = v)
    by (intros; destruct v; simpl in *; congruence).
  rewrite E. unfold DashboardPage.getNumeric. rewrite Hn, Hf. reflexivity.
Qed.

Lemma duplicate_card_masked_by_unreadable_value_witness :
  DashboardPage.shownUnder (fun _ => JS.NaN) "Duplicate"
    (<["duplicate" := JS.Str "n/a"]> (<["failed" := JS.Num (JS.of_Z 7)]> ∅))
  = Some (JS.Num JS.zero).
Proof.
  apply (duplicate_card_masked_by_unreadable_value (fun _ => JS.NaN)
           (<["duplicate" := JS.Str "n/a"]> (<["failed" := JS.Num (JS.of_Z 7)]> ∅))
           (JS.Str "n/a")); reflexivity.
Defined.

(** ** More on the tables *)
Section MoreSchemaFacts.
Import Schema.

Lemma accepts_column (docs : gset Z) (t : table) (r : row) (c : column) :
  accepts docs t r = true -> In c (columns t) ->
  column_accepts c (cell r (col_name c)) = true /\
  reference_holds docs c (cell r (col_name c)) = true.
Proof. intros H Hc. apply accepts_columns in H as [H _]. apply H, Hc. Qed.

End MoreSchemaFacts.

(** X3.  Both tables are tied to [doc_processing_log]: a row is accepted only
    with a [doc_id] that is not NULL and is the key of an existing
    document. *)
Theorem rows_refer_to_existing_documents :
  forall (docs : gset Z) (t : Schema.table) (r : Schema.row),
    t = Schema.telegram_pending_sessions \/ t = Schema.vehicle_hire ->
    Schema.accepts docs t r = true ->
    exists z, Schema.cell r "doc_id" = Schema.VInt z /\ z ∈ docs.
Proof.
  intros docs t r Ht Hacc.
  assert (Hc : In (Schema.REFERENCES "doc_processing_log" "doc_id"
                     (Schema.NOT_NULL (Schema.col "doc_id" Schema.INTEGER)))
                  (Schema.columns t))
    by (destruct Ht as [-> | ->]; simpl; tauto).
  destruct (accepts_column docs t r _ Hacc Hc) as [H1 H2]. simpl in H1, H2.
  destruct (Schema.cell r "doc_id") as [|z| | | |]; simpl in *; try discriminate.
  exists z. split; [reflexivity|].
  unfold Schema.reference_holds in H2. simpl in H2.
  apply bool_decide_eq_true in H2. exact H2.
Qed.

(** X4.  The session table takes larger amounts than the ledger.  On a row
    that either table accepts, an advance amount or a quantity with
    unscaled value [u] is accepted by [telegram_pending_sessions] exactly
    when [|u| < 10^15], by [vehicle_hire] exactly when [|u| < 10^10]: the
    columns are DECIMAL(15,_) in the one and DECIMAL(10,_) in the other.
    So a value of 11 to 15 digits fits a session row and no ledger row. *)
Theorem session_amounts_may_overflow_ledger :
  forall (docs : gset Z) (rs rl : Schema.row) (u : Z),
    Schema.accepts docs Schema.telegram_pending_sessions rs = true ->
    Schema.accepts docs Schema.vehicle_hire rl = true ->
    (Schema.accepts docs Schema.telegram_pending_sessions
       (<["advance_amount" := Schema.VDec u 2]> rs) = true <-> Z.abs u < 10 ^ 15) /\
    (Schema.accepts docs Schema.telegram_pending_sessions
       (<["qty" := Schema.VDec u 3]> rs) = true <-> Z.abs u < 10 ^ 15) /\
    (Schema.accepts docs Schema.vehicle_hire
       (<["advance_amount" := Schema.VDec u 2]> rl) = true <-> Z.abs u < 10 ^ 10) /\
    (Schema.accepts docs Schema.vehicle_hire
       (<["qty" := Schema.VDec u 3]> rl) = true <-> Z.abs u < 10 ^ 10).
Proof.
  intros docs rs rl u Hs Hl.
  assert (Hcol : forall (t : Schema.table) (r : Schema.row) (k : string)
                        (p q : nat),
             Schema.checks t = [] ->
             Schema.accepts docs t r = true ->
             (forall c, In c (Schema.columns t) -> Schema.col_name c = k ->
                        c = Schema.col k (Schema.DECIMAL p q)
                        \/ c = Schema.NOT_NULL (Schema.col k (Schema.DECIMAL p q))) ->
             (exists c, In c (Schema.columns t) /\ Schema.col_name c = k) ->
             (Schema.accepts docs t (<[k := Schema.VDec u q]> r) = true
              <-> Z.abs u < 10 ^ Z.of_nat p)).
  { intros t r k p q Hno Hacc Hall (c0 & Hin0 & Hn0).
    rewrite (accepts_update docs t r k (Schema.VDec u q) Hno Hacc). split.
    - intros H. destruct (H c0 Hin0 Hn0) as [Hc _].
      destruct (Hall c0 Hin0 Hn0) as [-> | ->]; simpl in Hc;
        apply andb_true_iff in Hc as [_ Hc]; apply Z.ltb_lt in Hc; exact Hc.
    - intros Hu c Hin Hn.
      destruct (Hall c Hin Hn) as [-> | ->]; simpl;
        (split; [|reflexivity]); apply andb_true_iff;
        (split; [apply Nat.eqb_refl | apply Z.ltb_lt; exact Hu]). }
  assert (Hpick : forall (t : Schema.table) (k : string) (c' : Schema.column),
             Forall (fun c => Schema.col_name c = k -> c = c') (Schema.columns t) ->
             forall c, In c (Schema.columns t) -> Schema.col_name c = k -> c = c').
  { intros t k c' H c Hin. rewrite Forall_forall in H. apply H, list_elem_of_In, Hin. }
  split; [|split; [|split]].
  - apply (Hcol Schema.telegram_pending_sessions rs "advance_amount" 15%nat 2%nat
             eq_refl Hs).
    + intros c Hin Hn. left. revert c Hin Hn. apply Hpick.
      repeat constructor; intros Hn; try discriminate Hn; reflexivity.
    + exists (Schema.col "advance_amount" (Schema.DECIMAL 15 2)).
      split; [simpl; tauto | reflexivity].
  - apply (Hcol Schema.telegram_pending_sessions rs "qty" 15%nat 3%nat eq_refl Hs).
    + intros c Hin Hn. left. revert c Hin Hn. apply Hpick.
      repeat constructor; intros Hn; try discriminate Hn; reflexivity.
    + exists (Schema.col "qty" (Schema.DECIMAL 15 3)).
      split; [simpl; tauto | reflexivity].
  - apply (Hcol Schema.vehicle_hire rl "advance_amount" 10%nat 2%nat eq_refl Hl).
    + intros c Hin Hn. right. revert c Hin Hn. apply Hpick.
      repeat constructor; intros Hn; try discriminate Hn; reflexivity.
    + exists (Schema.NOT_NULL (Schema.col "advance_amount" (Schema.DECIMAL 10 2))).
      split; [simpl; tauto | reflexivity].
  - apply (Hcol Schema.vehicle_hire rl "qty" 10%nat 3%nat eq_refl Hl).
    + intros c Hin Hn. right. revert c Hin Hn. apply Hpick.
      repeat constructor; intros Hn; try discriminate Hn; reflexivity.
    + exists (Schema.NOT_NULL (Schema.col "qty" (Schema.DECIMAL 10 3))).
      split; [simpl; tauto | reflexivity].
Qed.

Section TextFacts.
Import Text.

Lemma skipSpace_shorter (s r : string) :
  skipSpace s = Some r -> (String.length r < String.length s)%nat.
Proof.
  destruct s as [|a [|b [|c r3]]]; simpl; try discriminate;
    repeat (match goal with |- context [if ?b then _ else _] => destruct b end);
    intros H; inversion H; subst; simpl; lia.
Qed.

Lemma trimStart_eq (s : string) :
  trimStart s = match skipSpace s with Some r => trimStart r | None => s end.
Proof.
  destruct s as [|a [|b [|c r3]]]; simpl; try reflexivity;
    (destruct (ws1 a); [reflexivity|]); try reflexivity;
    (destruct (ws2 a b); [reflexivity|]); try reflexivity;
    (destruct (ws3 a b c); reflexivity).
Qed.

Lemma blank_eq (s : string) :
  blank s = match s with
            | EmptyString => true
            | _ => match skipSpace s with Some r => blank r | None => false end
            end.
Proof.
  destruct s as [|a [|b [|c r3]]]; simpl; try reflexivity;
    (destruct (ws1 a); [reflexivity|]); try reflexivity;
    (destruct (ws2 a b); [reflexivity|]); try reflexivity;
    (destruct (ws3 a b c); reflexivity).
Qed.

Lemma trimStart_no_space (s : string) : skipSpace (trimStart s) = None.
Proof.
  remember (String.length s) as n eqn:Hn.
  revert s Hn. induction n as [n IH] using lt_wf_ind. intros s Hn.
  rewrite trimStart_eq. destruct (skipSpace s) as [r|] eqn:E; [|exact E].
  apply (IH (String.length r)); [|reflexivity].
  subst n. exact (skipSpace_shorter _ _ E).
Qed.

Lemma trimStart_fixed (s : string) : skipSpace s = None -> trimStart s = s.
Proof. intros H. rewrite trimStart_eq, H. reflexivity. Qed.

Lemma trimEnd_not_blank (s : string) :
  blank s = false -> blank (trimEnd s) = false.
Proof.
  remember (String.length s) as n eqn:Hn.
  revert s Hn. induction n as [n IH] using lt_wf_ind. intros s Hn Hb.
  destruct s as [|a r]; [discriminate|].
  change (trimEnd (String a r)) with
    (if blank (String a r) then EmptyString else String a (trimEnd r)).
  rewrite Hb. simpl in Hn.
  assert (IHr : forall t, (String.length t <= String.length r)%nat ->
                          blank t = false -> blank (trimEnd t) = false).
  { intros t Ht. apply (IH (String.length t)); [lia | reflexivity]. }
  clear IH Hn.
  simpl in Hb. simpl.
  destruct (ws1 a).
  { apply IHr; [lia | exact Hb]. }
  destruct r as [|b r2]; [reflexivity|].
  change (trimEnd (String b r2)) with
    (if blank (String b r2) then EmptyString else String b (trimEnd r2)).
  destruct (blank (String b r2)); [reflexivity|].
  destruct (ws2 a b).
  { apply IHr; [simpl; lia | exact Hb]. }
  destruct r2 as [|c r3]; [reflexivity|].
  change (trimEnd (String c r3)) with
    (if blank (String c r3) then EmptyString else String c (trimEnd r3)).
  destruct (blank (String c r3)); [reflexivity|].
  destruct (ws3 a b c); [|reflexivity].
  simpl in *. apply IHr; [simpl; lia | exact Hb].
Qed.

Lemma trimEnd_fixed (s : string) : trimEnd (trimEnd s) = trimEnd s.
Proof.
  induction s as [|a r IH]; [reflexivity|].
  change (trimEnd (String a r)) with
    (if blank (String a r) then EmptyString else String a (trimEnd r)).
  destruct (blank (String a r)) eqn:Hb; [reflexivity|].
  change (trimEnd (String a (trimEnd r))) with
    (if blank (String a (trimEnd r)) then EmptyString
     else String a (trimEnd (trimEnd r))).
  assert (H : blank (String a (trimEnd r)) = false).
  { pose proof (trimEnd_not_blank _ Hb) as H.
    change (trimEnd (String a r)) with
      (if blank (String a r) then EmptyString else String a (trimEnd r)) in H.
    rewrite Hb in H. exact H. }
  rewrite H, IH. reflexivity.
Qed.

Lemma trimEnd_no_leading_space (s : string) :
  skipSpace s = None -> skipSpace (trimEnd s) = None.
Proof.
  intros H. destruct s as [|a r]; [reflexivity|].
  change (trimEnd (String a r)) with
    (if blank (String a r) then EmptyString else String a (trimEnd r)).
  destruct (blank (String a r)); [reflexivity|].
  assert (H1 : ws1 a = false).
  { destruct r as [|b [|c r3]]; simpl in H; destruct (ws1 a); congruence. }
  destruct r as [|b r2]; [exact H|].
  change (trimEnd (String b r2)) with
    (if blank (String b r2) then EmptyString else String b (trimEnd r2)).
  destruct (blank (String b r2)); [simpl; rewrite H1; reflexivity|].
  assert (H2 : ws2 a b = false).
  { destruct r2 as [|c r3]; simpl in H; rewrite H1 in H;
      destruct (ws2 a b); congruence. }
  destruct r2 as [|c r3]; [exact H|].
  change (trimEnd (String c r3)) with
    (if blank (String c r3) then EmptyString else String c (trimEnd r3)).
  destruct (blank (String c r3)); [simpl; rewrite H1, H2; reflexivity|].
  simpl in *. rewrite H1, H2 in *.
  destruct (ws3 a b c); [discriminate | reflexivity].
Qed.

Lemma trim_idempotent (s : string) : trim (trim s) = trim s.
Proof.
  unfold trim.
  rewrite (trimStart_fixed (trimEnd (trimStart s))).
  - apply trimEnd_fixed.
  - apply trimEnd_no_leading_space, trimStart_no_space.
Qed.

Lemma trim_blank (s : string) : String.eqb (trim s) "" = blank s.
Proof.
  unfold trim.
  remember (String.length s) as n eqn:Hn.
  revert s Hn. induction n as [n IH] using lt_wf_ind. intros s Hn.
  rewrite trimStart_eq, blank_eq.
  destruct (skipSpace s) as [r|] eqn:E.
  - destruct s as [|a r0]; [discriminate|].
    apply (IH (String.length r)); [|reflexivity].
    subst n. exact (skipSpace_shorter _ _ E).
  - destruct s as [|a r0]; [reflexivity|].
    change (trimEnd (String a r0)) with
      (if blank (String a r0) then EmptyString else String a (trimEnd r0)).
    rewrite (blank_eq (String a r0)), E. reflexivity.
Qed.

End TextFacts.

Section InvoiceFacts.
Import Json InvoiceHelpers.
Variable NumberToString : JS.number -> string.
Variable ObjectToString : Json.t -> string.
Variable JSON_parse : string -> option Json.t.

Local Abbreviation String_ := (ToString NumberToString ObjectToString).
Local Abbreviation pick := (pickInvoiceNumber NumberToString ObjectToString).
Local Abbreviation usable := (firstUsable NumberToString ObjectToString).

Lemma flatten_lookup (entries : list (string * Json.t)) (key : string) (v : Json.t) :
  flatten entries !! key = Some v ->
  exists k, In (k, v) entries /\ normKey k = key.
Proof.
  unfold flatten.
  assert (G : forall (flat : gmap string Json.t),
             fold_left (fun flat kv => <[normKey (fst kv) := snd kv]> flat) entries flat
               !! key = Some v ->
             flat !! key = Some v \/ exists k, In (k, v) entries /\ normKey k = key).
  { induction entries as [|[k x] rest IH]; intros flat H; simpl in *; [left; exact H|].
    destruct (IH _ H) as [H1 | (k' & Hin & Hk)].
    - apply lookup_insert_Some in H1 as [[Hk <-] | [_ H1]].
      + right. exists k. split; [left; reflexivity | exact Hk].
      + left. exact H1.
    - right. exists k'. split; [right; exact Hin | exact Hk]. }
  intros H. destruct (G ∅ H) as [H1 | H1]; [|exact H1].
  rewrite lookup_empty in H1. discriminate.
Qed.

Lemma flatten_last (es es' : list (string * Json.t)) (k : string) (v : Json.t) :
  Forall (fun kv => normKey (fst kv) <> normKey k) es' ->
  flatten (es ++ (k, v) :: es') !! normKey k = Some v.
Proof.
  unfold flatten. rewrite fold_left_app. simpl.
  generalize (fold_left (fun (flat : gmap string Json.t) kv =>
                          <[normKey (fst kv) := snd kv]> flat) es ∅).
  intros flat H.
  assert (G : forall m : gmap string Json.t, m !! normKey k = Some v ->
             fold_left (fun flat kv => <[normKey (fst kv) := snd kv]> flat) es' m
               !! normKey k = Some v).
  { induction H as [|[k' x] rest Hne _ IH]; intros m Hm; simpl; [exact Hm|].
    apply IH. rewrite lookup_insert_ne; [exact Hm | exact Hne]. }
  apply G, lookup_insert_eq.
Qed.

Lemma firstUsable_cases (flat : gmap string Json.t) (keys : list string) :
  usable flat keys = "" \/
  exists key v, In key keys /\ flat !! key = Some v /\ is_nullish v = false /\
                Text.blank (String_ v) = false /\
                usable flat keys = Text.trim (String_ v).
Proof.
  induction keys as [|key rest IH]; [left; reflexivity|].
  simpl. destruct (negb (is_nullish (flat_get flat key))) eqn:Hn; simpl.
  - destruct (String.eqb (Text.trim (String_ (flat_get flat key))) "") eqn:Hb; simpl.
    + destruct IH as [IH | (k & v & Hin & IH)]; [left; exact IH|].
      right. exists k, v. split; [right; exact Hin | exact IH].
    + right. unfold flat_get in *. destruct (flat !! key) as [v|] eqn:Hv; simpl in *;
        [|discriminate].
      exists key, v. rewrite trim_blank in Hb. apply negb_true_iff in Hn.
      repeat split; auto.
  - destruct IH as [IH | (k & v & Hin & IH)]; [left; exact IH|].
    right. exists k, v. split; [right; exact Hin | exact IH].
Qed.

Lemma firstUsable_empty (keys : list string) : usable ∅ keys = "".
Proof. induction keys as [|key rest IH]; [reflexivity | exact IH]. Qed.

(** X5.  Whatever it is given, [unwrapFinalData] returns an object or an
    array, so the guard at the head of [pickInvoiceNumber] never fires on
    its result and [data.ConsignmentNo] never throws. *)
Theorem unwrapFinalData_object (obj : Json.t) :
  (exists entries, unwrapFinalData obj = Obj entries) \/
  (exists items, unwrapFinalData obj = Arr items).
Proof.
  unfold unwrapFinalData.
  destruct (truthy obj && is_object obj && truthy (prop obj "final_data")
            && is_object (prop obj "final_data")) eqn:E1.
  - apply andb_prop in E1 as [E1 Ho]. apply andb_prop in E1 as [_ Ht].
    destruct (prop obj "final_data") as [| |b|n|s|items|fd]; try discriminate.
    + right. exists items. reflexivity.
    + left. exists fd. reflexivity.
  - destruct (truthy obj && is_object obj) eqn:E2; [|left; exists []; reflexivity].
    apply andb_prop in E2 as [Ht Ho].
    destruct obj as [| |b|n|s|items|entries]; try discriminate.
    + right. exists items. reflexivity.
    + left. exists entries. reflexivity.
Qed.

(** X6.  What [pickInvoiceNumber] returns is either the empty string or the
    trimmed text of a value that is neither [null] nor [undefined], is not
    blank, and stands in the payload under a key that normalises to one of
    the candidate keys. *)
Theorem pickInvoiceNumber_result (payloadObj : Json.t) :
  pick payloadObj = "" \/
  exists k v, In (k, v) (entries_of payloadObj) /\ In (normKey k) candidates /\
              is_nullish v = false /\ Text.blank (String_ v) = false /\
              pick payloadObj = Text.trim (String_ v).
Proof.
  unfold pickInvoiceNumber.
  destruct (negb (truthy payloadObj) || negb (is_object payloadObj));
    [left; reflexivity|].
  destruct (firstUsable_cases (flatten (entries_of payloadObj)) candidates)
    as [H | (key & v & Hin & Hv & Hn & Hb & H)]; [left; exact H|].
  right. apply flatten_lookup in Hv as (k & Hk & <-).
  exists k, v. auto.
Qed.

(** X7.  The result of [pickInvoiceNumber] carries no white space at either
    end: trimming it again changes nothing. *)
Theorem pickInvoiceNumber_trimmed (payloadObj : Json.t) :
  Text.trim (pick payloadObj) = pick payloadObj.
Proof.
  unfold pickInvoiceNumber.
  destruct (negb (truthy payloadObj) || negb (is_object payloadObj));
    [reflexivity|].
  destruct (firstUsable_cases (flatten (entries_of payloadObj)) candidates)
    as [H | (key & v & _ & _ & _ & _ & H)];
    rewrite H; [reflexivity | apply trim_idempotent].
Qed.

(** X8.  When several keys of the payload normalise to the first candidate
    key "invoiceno" ("invoice_no", "Invoice No", "INVOICE-NO", ...), the
    last of them in the order of the entries is the one shown, provided its
    value is present and not blank; the earlier ones are overwritten, usable
    or not. *)
Theorem pickInvoiceNumber_last_entry_wins
    (es es' : list (string * Json.t)) (k : string) (v : Json.t) :
  normKey k = "invoiceno" ->
  Forall (fun kv => normKey (fst kv) <> "invoiceno") es' ->
  is_nullish v = false ->
  Text.blank (String_ v) = false ->
  pick (Obj (es ++ (k, v) :: es')) = Text.trim (String_ v).
Proof.
  intros Hk Hes' Hn Hb. unfold pickInvoiceNumber.
  cbn [truthy is_object negb orb entries_of].
  assert (Hc : candidates = "invoiceno" :: tl candidates) by reflexivity.
  rewrite Hc. rewrite <- Hk in Hes'.
  pose proof (flatten_last es es' k v Hes') as Hv. rewrite Hk in Hv.
  cbn [firstUsable]. unfold flat_get. rewrite Hv.
  change (default Undefined (Some v)) with v.
  rewrite Hn, trim_blank, Hb. reflexivity.
Qed.

(** X9.  [getInvoiceText] never returns the empty string: the invoice link
    always has a text to click. *)
Theorem getInvoiceText_never_empty (doc : Json.t) :
  getInvoiceText NumberToString ObjectToString JSON_parse doc <> "".
Proof.
  unfold getInvoiceText.
  destruct (truthy (prop doc "invoice_no")); simpl.
  - rewrite trim_blank.
    destruct (Text.blank (String_ (prop doc "invoice_no"))) eqn:Hb; simpl.
    + destruct (String.eqb _ "") eqn:E; simpl; [discriminate|].
      apply String.eqb_neq in E. exact E.
    + intros E. rewrite E in Hb. discriminate.
  - destruct (String.eqb _ "") eqn:E; simpl; [discriminate|].
    apply String.eqb_neq in E. exact E.
Qed.

(** X10.  A document whose [invoice_no] is missing and whose
    [extracted_json] is a text that does not parse is shown as "Invoice",
    and its consignment number is the empty string: the parse error is
    swallowed, not shown. *)
Theorem unparsable_extracted_json_falls_back (doc : Json.t) (s : string) :
  truthy (prop doc "invoice_no") = false ->
  prop doc "extracted_json" = Str s ->
  JSON_parse s = None ->
  getInvoiceText NumberToString ObjectToString JSON_parse doc = "Invoice" /\
  getConsignmentNo NumberToString ObjectToString JSON_parse doc = Str "".
Proof.
  intros Hinv Hjson Hparse.
  assert (E : parseJsonSafe NumberToString ObjectToString JSON_parse
                (prop doc "extracted_json") = Obj []).
  { rewrite Hjson. unfold parseJsonSafe. simpl.
    destruct (negb (String.eqb s "")); simpl; [|reflexivity].
    rewrite Hparse. reflexivity. }
  unfold getInvoiceText, getConsignmentNo. rewrite E, Hinv. simpl.
  split; reflexivity.
Qed.

End InvoiceFacts.

Lemma pickInvoiceNumber_last_entry_wins_witness :
  InvoiceHelpers.pickInvoiceNumber (fun _ => "0") (fun _ => "[object Object]")
    (Json.Obj ([("invoice_no", Json.Str "A-1")]
               ++ ("Invoice No", Json.Str " B-17 ") :: [("lr_no", Json.Num JS.zero)]))
  = "B-17".
Proof.
  apply (pickInvoiceNumber_last_entry_wins (fun _ => "0") (fun _ => "[object Object]")
           [("invoice_no", Json.Str "A-1")] [("lr_no", Json.Num JS.zero)]
           "Invoice No" (Json.Str " B-17 ")).
  - reflexivity.
  - repeat constructor. discriminate.
  - reflexivity.
  - reflexivity.
Defined.

Lemma unparsable_extracted_json_falls_back_witness :
  InvoiceHelpers.getInvoiceText (fun _ => "0") (fun _ => "[object Object]")
    (fun _ => None) (Json.Obj [("doc_id", Json.Num JS.zero); ("extracted_json", Json.Str "{oops")])
  = "Invoice" /\
  InvoiceHelpers.getConsignmentNo (fun _ => "0") (fun _ => "[object Object]")
    (fun _ => None) (Json.Obj [("doc_id", Json.Num JS.zero); ("extracted_json", Json.Str "{oops")])
  = Json.Str "".
Proof.
  apply (unparsable_extracted_json_falls_back (fun _ => "0") (fun _ => "[object Object]")
           (fun _ => None) _ "{oops"); reflexivity.
Defined.

Section GuardFacts.
Import JS Routes Web.

Lemma getItem_setItem_ne (k k' v : string) (s : Storage) :
  k <> k' -> getItem k (setItem k' v s) = getItem k s.
Proof. intros H. unfold getItem, setItem. simpl. apply lookup_insert_ne. congruence. Qed.

Lemma getItem_setItem_eq (k v : string) (s : Storage) :
  getItem k (setItem k v s) = Some v.
Proof. unfold getItem, setItem. simpl. apply lookup_insert_eq. Qed.

Lemma getItem_removeItem_ne (k k' : string) (s : Storage) :
  k <> k' -> getItem k (removeItem k' s) = getItem k s.
Proof. intros H. unfold getItem, removeItem. simpl. apply lookup_delete_ne. congruence. Qed.

Lemma getItem_removeItem_eq (k : string) (s : Storage) :
  getItem k (removeItem k s) = None.
Proof. unfold getItem, removeItem. simpl. apply lookup_delete_eq. Qed.

Lemma isAuthenticated_getItem (s s' : Storage) :
  getItem "isLoggedIn" s' = getItem "isLoggedIn" s ->
  StrictGuard.isAuthenticated s' = StrictGuard.isAuthenticated s.
Proof. unfold StrictGuard.isAuthenticated. intros ->. reflexivity. Qed.

(** X11.  Given children, the strict guard of [components/ProtectedRoute.jsx]
    and the idle-timeout guard render the same element, except for a
    visitor who is not logged in and asks for an upload path: the strict
    guard sends that visitor to the login page, the idle-timeout guard
    shows the page. *)
Theorem guards_differ_only_on_anonymous_upload (s : Storage) (location : Location) :
  StrictGuard.ProtectedRoute s true location
  = element_of (Routes.ProtectedRoute (getItem "isLoggedIn" s) (Some location))
  <-> (StrictGuard.isAuthenticated s = true
       \/ upload_exception (Some location) <> Some true).
Proof.
  unfold StrictGuard.ProtectedRoute, Routes.ProtectedRoute, StrictGuard.isAuthenticated.
  destruct (bool_decide (getItem "isLoggedIn" s = Some "true")); simpl.
  - split; [left; reflexivity | reflexivity].
  - destruct (upload_exception (Some location)) as [[|]|]; simpl; split;
      try reflexivity; try discriminate; try (intros _; right; discriminate).
    intros [H | H]; [discriminate | congruence].
Qed.

(** X12.  A visitor whom either guard sends to the login page comes back,
    after a successful login, to the path that was asked for: the
    navigation made by [handleSubmit] goes to the [pathname] of the location
    the guard was rendered at. *)
Theorem login_returns_to_requested_page
    (NumberToString : JS.number -> string) (ObjectToString : Json.t -> string)
    (JSON_stringify : Json.t -> string)
    (s s' : Storage) (children : bool) (location : Location) (p : string)
    (n : Navigation) (now : Z) (data : Json.t) :
  pathname location = Str p ->
  p <> "" ->
  StrictGuard.ProtectedRoute s children location = Navigate n
  \/ element_of (Routes.ProtectedRoute (getItem "isLoggedIn" s) (Some location))
     = Navigate n ->
  to n = Str "/login" /\
  LoginPage.navigation
    (LoginPage.handleSubmit NumberToString ObjectToString JSON_stringify
       now (state n) (LoginPage.Replied true data) s')
  = Some {| to := Str p; replace := true; state := NoState |}.
Proof.
  intros Hp Hne Hn.
  assert (Hst : to n = Str "/login" /\ state n = From (Some location)).
  { destruct Hn as [Hn | Hn].
    - unfold StrictGuard.ProtectedRoute in Hn.
      destruct (negb (StrictGuard.isAuthenticated s));
        [|destruct children; discriminate].
      injection Hn as <-. split; reflexivity.
    - unfold Routes.ProtectedRoute in Hn.
      destruct (negb (bool_decide (getItem "isLoggedIn" s = Some "true")));
        [|discriminate].
      destruct (upload_exception (Some location)) as [[|]|]; simpl in Hn;
        try discriminate; injection Hn as <-; split; reflexivity. }
  destruct Hst as [Hto Hst]. split; [exact Hto|].
  simpl. rewrite Hst. unfold LoginPage.redirectTo. simpl. rewrite Hp.
  unfold or_else. simpl.
  destruct (String.eqb p "") eqn:E; [apply String.eqb_eq in E; contradiction|].
  reflexivity.
Qed.

End GuardFacts.

Section LoginFacts.
Import JS Routes Web LoginPage.
Variable NumberToString : JS.number -> string.
Variable ObjectToString : Json.t -> string.
Variable JSON_stringify : Json.t -> string.

Local Abbreviation submit := (handleSubmit NumberToString ObjectToString JSON_stringify).

Lemma shown_error_not_empty (m : string) : shown_error m <> "".
Proof.
  unfold shown_error. destruct (String.eqb m "") eqn:E; [discriminate|].
  apply String.eqb_neq in E. exact E.
Qed.

Lemma remember_logged_in (now : Z) (data : Json.t) (s : Storage) :
  getItem "isLoggedIn" (remember NumberToString ObjectToString JSON_stringify now data s)
  = Some "true".
Proof.
  unfold remember.
  destruct (Json.truthy (Json.prop data "user"));
    destruct (Json.truthy (Json.prop data "token"));
    repeat (rewrite getItem_setItem_ne by discriminate);
    apply getItem_setItem_eq.
Qed.

Lemma remember_stamp (now : Z) (data : Json.t) (s : Storage) :
  getItem "lastActivity" (remember NumberToString ObjectToString JSON_stringify now data s)
  = Some (pretty now).
Proof.
  unfold remember.
  destruct (Json.truthy (Json.prop data "user"));
    destruct (Json.truthy (Json.prop data "token"));
    repeat (rewrite getItem_setItem_ne by discriminate);
    apply getItem_setItem_eq.
Qed.

(** X13.  A login that does not succeed, because the request fails or the
    answer is not [ok], writes nothing to the storage and navigates
    nowhere; it leaves a message to show, never an empty one, and the form
    is enabled again. *)
Theorem failed_login_changes_nothing
    (now : Z) (st : NavState) (r : Response) (s : Storage) :
  (forall data, r <> Replied true data) ->
  storage (submit now st r s) = s /\
  navigation (submit now st r s) = None /\
  error (submit now st r s) <> "" /\
  submitting (submit now st r s) = false.
Proof.
  intros Hr. destruct r as [m | [|] data]; simpl.
  - repeat split; auto using shown_error_not_empty.
  - destruct (Hr data). reflexivity.
  - repeat split; auto using shown_error_not_empty.
Qed.

(** X14.  After a successful login both guards let the user in at every
    location, the inactivity effect of the idle-timeout guard starts, and
    the stamp of the last activity is the time of the login, whatever the
    storage held before and whatever the answer carried. *)
Theorem successful_login_passes_guards
    (now now' : Z) (st : NavState) (data : Json.t) (s : Storage)
    (location : Location) :
  let s' := storage (submit now st (Replied true data) s) in
  StrictGuard.ProtectedRoute s' true location = Children /\
  Routes.ProtectedRoute (getItem "isLoggedIn" s') (Some location) = RenderChildren /\
  is_Some (IdleGuard.mount now' s') /\
  getItem "lastActivity" s' = Some (pretty now).
Proof.
  simpl.
  pose proof (remember_logged_in now data s) as H.
  unfold StrictGuard.ProtectedRoute, StrictGuard.isAuthenticated,
    Routes.ProtectedRoute, IdleGuard.mount.
  rewrite H. rewrite bool_decide_eq_true_2 by reflexivity. simpl.
  repeat split; [eexists; reflexivity | apply remember_stamp].
Qed.

End LoginFacts.

Section LogoutFacts.
Import JS Routes Web.

(** X15.  The logout button of the layout removes [isLoggedIn] and nothing
    else: the token, the user and the session storage stay as they were.
    The logout of the idle-timeout guard removes the token as well and
    empties the session storage.  After either, nobody is logged in. *)
Theorem handleLogout_keeps_token (s : Storage) (e : IdleGuard.Effect) :
  let s1 := fst (Layout.handleLogout s) in
  let s2 := IdleGuard.storage (IdleGuard.logoutUser e) in
  (StrictGuard.isAuthenticated s1 = false /\
   (forall k, k <> "isLoggedIn" -> getItem k s1 = getItem k s) /\
   sessionStorage s1 = sessionStorage s) /\
  (StrictGuard.isAuthenticated s2 = false /\
   getItem "authToken" s2 = None /\
   (forall k, k <> "isLoggedIn" -> k <> "authToken" ->
              getItem k s2 = getItem k (IdleGuard.storage e)) /\
   sessionStorage s2 = ∅).
Proof.
  simpl. unfold StrictGuard.isAuthenticated. repeat split.
  - rewrite getItem_removeItem_eq. reflexivity.
  - intros k Hk. apply getItem_removeItem_ne. exact Hk.
  - unfold getItem. simpl. rewrite lookup_delete_ne by discriminate.
    rewrite lookup_delete_eq. reflexivity.
  - unfold getItem. simpl. apply lookup_delete_eq.
  - intros k H1 H2. unfold getItem. simpl.
    rewrite !lookup_delete_ne by congruence. reflexivity.
Qed.

End LogoutFacts.

Section IdleFacts.
Import JS Routes Web IdleGuard.

Lemma idle_run_snoc (evs : list Event) (ev : Event) (e : Effect) :
  run (evs ++ [ev]) e = react (run evs e) ev.
Proof. unfold run. rewrite fold_left_app. reflexivity. Qed.

Lemma stamp_logged_in (now : Z) (s : Storage) :
  getItem "isLoggedIn" (setItem "lastActivity" (pretty now) s) = getItem "isLoggedIn" s.
Proof. apply getItem_setItem_ne. discriminate. Qed.

(** What one reaction does to the login flag and to the expiry flag. *)
Lemma react_cases (e : Effect) (ev : Event) :
  (getItem "isLoggedIn" (storage (react e ev)) = getItem "isLoggedIn" (storage e)
   \/ (sessionExpired e = true /\ is_interaction ev = true)) /\
  (sessionExpired (react e ev) = true ->
   sessionExpired e = true
   \/ exists h, ev = TimerDue h /\ is_Some (timers e !! h)).
Proof.
  destruct ev as [now | now | hidden now | h]; simpl.
  - unfold handleUserInteraction. destruct (sessionExpired e) eqn:E; simpl.
    + split; [right; split; reflexivity | left; reflexivity].
    + split; [left; apply stamp_logged_in | intros H; rewrite E in H; discriminate].
  - unfold handleUserInteraction. destruct (sessionExpired e) eqn:E; simpl.
    + split; [right; split; reflexivity | left; reflexivity].
    + split; [left; apply stamp_logged_in | intros H; rewrite E in H; discriminate].
  - unfold handleVisibilityChange. destruct hidden; simpl;
      (split; [left; reflexivity | intros H; left; exact H]).
  - unfold fire. destruct (timers e !! h) as [d|] eqn:E; simpl.
    + split; [left; reflexivity|]. intros _. right. exists h.
      split; [reflexivity | rewrite E; eexists; reflexivity].
    + split; [left; reflexivity | intros H; left; exact H].
Qed.

(** After a start with the user logged in and no expiry flagged, only a
    timer coming due and an interaction after it log the user out. *)
Lemma logout_after_start (e0 : Effect) (evs : list Event) :
  StrictGuard.isAuthenticated (storage e0) = true ->
  sessionExpired e0 = false ->
  StrictGuard.isAuthenticated (storage (run evs e0)) = false ->
  exists evs1 h evs2 ev evs3,
    evs = (evs1 ++ TimerDue h :: evs2 ++ ev :: evs3)%list /\
    is_interaction ev = true /\
    is_Some (timers (run evs1 e0) !! h).
Proof.
  intros Hauth Hfresh.
  set (expired_by (evs : list Event) :=
         exists evs1 h evs2, evs = (evs1 ++ TimerDue h :: evs2)%list /\
                             is_Some (timers (run evs1 e0) !! h)).
  set (out_by (evs : list Event) :=
         exists evs1 h evs2 ev evs3,
           evs = (evs1 ++ TimerDue h :: evs2 ++ ev :: evs3)%list /\
           is_interaction ev = true /\
           is_Some (timers (run evs1 e0) !! h)).
  assert (J : (StrictGuard.isAuthenticated (storage (run evs e0)) = true \/ out_by evs)
              /\ (sessionExpired (run evs e0) = true -> expired_by evs)).
  { induction evs as [|ev evs [IHa IHe]] using rev_ind.
    - split; [left; exact Hauth|]. simpl. rewrite Hfresh. discriminate.
    - rewrite idle_run_snoc.
      destruct (react_cases (run evs e0) ev) as [Hlog Hexp].
      assert (Hkeep : expired_by evs -> expired_by (evs ++ [ev])%list).
      { intros (evs1 & h & evs2 & Heq & Hh).
        exists evs1, h, (evs2 ++ [ev])%list. split; [|exact Hh].
        rewrite Heq, <- app_assoc. reflexivity. }
      split.
      + destruct Hlog as [Hlog | [Hx Hi]].
        * destruct IHa as [IHa | (evs1 & h & evs2 & ev' & evs3 & Heq & Hi & Hh)].
          -- left. rewrite (isAuthenticated_getItem _ _ Hlog). exact IHa.
          -- right. exists evs1, h, evs2, ev', (evs3 ++ [ev])%list.
             split; [|split; assumption].
             rewrite Heq, <- app_assoc. simpl. rewrite <- app_assoc. reflexivity.
        * right. destruct (IHe Hx) as (evs1 & h & evs2 & Heq & Hh).
          exists evs1, h, evs2, ev, []. split; [|split; assumption].
          rewrite Heq, <- app_assoc. reflexivity.
      + intros Hx. destruct (Hexp Hx) as [Hx' | (h & -> & Hh)].
        * apply Hkeep, IHe, Hx'.
        * exists evs, h, []. split; [reflexivity | exact Hh]. }
  intros Hout. destruct J as [[J | J] _]; [congruence | exact J].
Qed.

(** X16.  The guard logs nobody out who has not been idle.  If, after the
    first render of the guard and any events since, the user is no longer
    logged in, then either the layout effect found, when the guard
    mounted, a stamp of the last activity more than [SESSION_TTL] before
    the clock, or among the events a timer that was still set came due and
    a click or a key press followed it. *)
Theorem logout_needs_stale_stamp_or_expired_timer
    (StringToNumber : string -> number)
    (minus : number -> number -> number) (greater : number -> number -> bool)
    (now : Z) (s : Storage) (e0 : Effect) (evs : list Event) :
  firstRender StringToNumber minus greater now s = Some e0 ->
  StrictGuard.isAuthenticated (storage (run evs e0)) = false ->
  (exists lastActivity,
     getItem "lastActivity" s = Some lastActivity /\
     lastActivity <> "" /\
     greater (minus (of_Z now) (StringToNumber lastActivity)) (of_Z SESSION_TTL)
     = true)
  \/
  (exists evs1 h evs2 ev evs3,
     evs = (evs1 ++ TimerDue h :: evs2 ++ ev :: evs3)%list /\
     is_interaction ev = true /\
     is_Some (timers (run evs1 e0) !! h)).
Proof.
  unfold firstRender, checkOnMount.
  destruct (bool_decide (getItem "isLoggedIn" s = Some "true")) eqn:E; simpl;
    [|discriminate].
  assert (Hkept : forall navs,
            Some (resetInactivityTimer now
                    (updateLastActivity now
                       {| storage := s; sessionExpired := false;
                          inactivityTimer := None; hiddenTimer := None;
                          timers := ∅; next := 0; navigations := navs |})) = Some e0 ->
            StrictGuard.isAuthenticated (storage (run evs e0)) = false ->
            exists evs1 h evs2 ev evs3,
              evs = (evs1 ++ TimerDue h :: evs2 ++ ev :: evs3)%list /\
              is_interaction ev = true /\
              is_Some (timers (run evs1 e0) !! h)).
  { intros navs H Hout. injection H as <-.
    apply logout_after_start; [|reflexivity | exact Hout].
    unfold StrictGuard.isAuthenticated. simpl. rewrite stamp_logged_in. exact E. }
  destruct (getItem "lastActivity" s) as [lastActivity|] eqn:El;
    [|intros H Hout; right; exact (Hkept _ H Hout)].
  destruct (String.eqb_spec lastActivity "") as [Hempty|Hne]; simpl;
    [intros H Hout; right; exact (Hkept _ H Hout)|].
  destruct (greater (minus (of_Z now) (StringToNumber lastActivity)) (of_Z SESSION_TTL))
    eqn:Eg; simpl; [|intros H Hout; right; exact (Hkept _ H Hout)].
  intros _ _. left. exists lastActivity. auto.
Qed.

(** X17.  Once a timer has flagged the session as expired, the next click
    or key press logs the user out and sends them to the login page with
    the state [{ sessionExpired: true }]; this state names no location, so
    the login that follows lands on "/dashboard", not on the page the user
    was on. *)
Theorem idle_logout_loses_place (e : Effect) (ev : Event) :
  sessionExpired e = true ->
  is_interaction ev = true ->
  StrictGuard.isAuthenticated (storage (react e ev)) = false /\
  getItem "authToken" (storage (react e ev)) = None /\
  sessionStorage (storage (react e ev)) = ∅ /\
  exists n, navigations (react e ev) = (navigations e ++ [n])%list /\
            to n = Str "/login" /\
            LoginPage.redirectTo (state n) = Str "/dashboard".
Proof.
  intros Hx Hi.
  assert (E : react e ev = logoutUser e).
  { destruct ev; try discriminate; simpl; unfold handleUserInteraction;
      rewrite Hx; reflexivity. }
  rewrite E. unfold StrictGuard.isAuthenticated, getItem. simpl. repeat split.
  - rewrite lookup_delete_ne by discriminate. rewrite lookup_delete_eq. reflexivity.
  - apply lookup_delete_eq.
  - eexists. split; [reflexivity|]. split; reflexivity.
Qed.

Lemma timer_invariant_react (e : Effect) (ev : Event) :
  timer_invariant e -> timer_invariant (react e ev).
Proof.
  intros (t & h & Hs & Hh & Hlt & Hhid & Ht).
  assert (Hreset : forall now,
            timer_invariant (updateLastActivity now (resetInactivityTimer now e))).
  { intros now. exists now, (next e). simpl.
    rewrite getItem_setItem_eq, lookup_insert_eq. repeat split; try lia.
    - apply Hhid in H. lia.
    - apply Hhid in H. lia. }
  assert (Hout : timer_invariant (logoutUser e)).
  { exists t, h. unfold getItem in *. simpl.
    rewrite !lookup_delete_ne by discriminate. repeat split; try assumption;
      apply Hhid; assumption. }
  destruct ev as [now | now | hidden now | h']; simpl.
  - unfold handleUserInteraction. destruct (sessionExpired e); simpl; auto.
  - unfold handleUserInteraction. destruct (sessionExpired e); simpl; auto.
  - unfold handleVisibilityChange. destruct hidden; simpl.
    + exists t, h. simpl. rewrite lookup_insert_ne by lia.
      repeat split; try assumption; try lia.
      * injection H as <-. lia.
      * injection H as <-. lia.
    + exists t, h. simpl. repeat split; try assumption; try (apply Hhid; assumption).
      destruct (hiddenTimer e) as [hh|]; simpl; [|exact Ht].
      destruct (Hhid hh eq_refl) as [_ Hne].
      rewrite lookup_delete_ne by congruence. exact Ht.
  - unfold fire. destruct (timers e !! h') as [d|] eqn:E; simpl.
    + exists t, h. simpl. repeat split; try assumption; try (apply Hhid; assumption).
      destruct (decide (h' = h)) as [->|Hne].
      * rewrite lookup_delete_eq. reflexivity.
      * rewrite lookup_delete_ne by congruence.
        destruct (timers e !! h); [exact Ht | reflexivity].
    + exists t, h. repeat split; try assumption; apply Hhid; assumption.
Qed.

Lemma timer_invariant_mount (now : Z) (s : Storage) (e0 : Effect) :
  mount now s = Some e0 -> timer_invariant e0.
Proof.
  unfold mount. destruct (negb _); [discriminate|].
  intros H. injection H as <-. exists now, 0%nat. simpl.
  rewrite lookup_insert_eq. unfold getItem. simpl. rewrite lookup_insert_eq.
  repeat split; try lia; discriminate.
Qed.

(** X18.  From the start of the effect on and through any events, the
    storage holds the stamp of the last activity as a decimal number, and
    the inactivity timer, as long as it is set, is due exactly
    [SESSION_TTL] after that stamp; when it is no longer set, the session
    has been flagged as expired. *)
Theorem inactivity_timer_matches_stamp
    (now : Z) (s : Storage) (e0 : Effect) (evs : list Event) :
  mount now s = Some e0 ->
  exists t h,
    getItem "lastActivity" (storage (run evs e0)) = Some (pretty t) /\
    inactivityTimer (run evs e0) = Some h /\
    match timers (run evs e0) !! h with
    | Some due => due = t + SESSION_TTL
    | None => sessionExpired (run evs e0) = true
    end.
Proof.
  intros Hm.
  assert (J : timer_invariant (run evs e0)).
  { induction evs as [|ev evs IH] using rev_ind.
    - exact (timer_invariant_mount _ _ _ Hm).
    - rewrite idle_run_snoc. apply timer_invariant_react, IH. }
  destruct J as (t & h & Hs & Hh & _ & _ & Ht). exists t, h. auto.
Qed.

End IdleFacts.

Section InsertFacts.
Import Schema.

Lemma cell_with_defaults (now serial : Z) (t : table) (r : row) (k : string) :
  cell (with_defaults now serial t r) k
  = match r !! k with
    | Some v => v
    | None =>
        match List.find (fun c => String.eqb (col_name c) k) (columns t) with
        | Some c => default_value now serial (col_default c)
        | None => VNull
        end
    end.
Proof.
  unfold cell, with_defaults.
  destruct (r !! k) as [v|] eqn:Hk.
  - assert (G : forall cols,
               fold_right
                 (fun c acc =>
                    match r !! col_name c with
                    | Some _ => acc
                    | None => <[col_name c := default_value now serial (col_default c)]> acc
                    end) r cols !! k = Some v).
    { induction cols as [|c cols IH]; simpl; [exact Hk|].
      destruct (r !! col_name c) eqn:Hc; [exact IH|].
      rewrite lookup_insert_ne; [exact IH | congruence]. }
    rewrite G. reflexivity.
  - rewrite (with_defaults_lookup now serial (columns t) r k Hk).
    destruct (List.find _ (columns t)); reflexivity.
Qed.

(** X19.  An [INSERT] into [telegram_pending_sessions] that leaves out
    [doc_id] or [phone_no] is rejected, whatever else it gives: the two
    columns are [NOT NULL] and have no default. *)
Theorem session_insert_needs_document_and_phone
    (docs : gset Z) (now serial : Z) (r : row) :
  r !! "doc_id" = None \/ r !! "phone_no" = None ->
  accepts docs telegram_pending_sessions
    (with_defaults now serial telegram_pending_sessions r) = false.
Proof.
  intros H.
  destruct (accepts docs telegram_pending_sessions
              (with_defaults now serial telegram_pending_sessions r)) eqn:E;
    [|reflexivity].
  apply accepts_columns in E as [E _]. destruct H as [H | H].
  - destruct (E (REFERENCES "doc_processing_log" "doc_id"
                   (NOT_NULL (col "doc_id" INTEGER)))) as [Hc _]; [simpl; tauto|].
    rewrite cell_with_defaults in Hc. simpl in Hc. rewrite H in Hc. discriminate.
  - destruct (E (NOT_NULL (col "phone_no" (VARCHAR 20)))) as [Hc _]; [simpl; tauto|].
    rewrite cell_with_defaults in Hc. simpl in Hc. rewrite H in Hc. discriminate.
Qed.

(** The row of an [INSERT] that gives just the document and the phone
    number passes the constraints on a row, and these are its cells. *)
Lemma minimal_session_row
    (docs : gset Z) (now serial z : Z) (p : string) :
  - 2 ^ 31 <= serial < 2 ^ 31 ->
  - 2 ^ 31 <= z < 2 ^ 31 ->
  z ∈ docs ->
  (String.length p <= 20)%nat ->
  let r := with_defaults now serial telegram_pending_sessions
             (<["doc_id" := VInt z]> (<["phone_no" := VText p]> ∅)) in
  accepts docs telegram_pending_sessions r = true /\
  cell r "id" = VInt serial /\
  cell r "status" = VText "pending" /\
  cell r "created_at" = VTime now /\
  cell r "updated_at" = VTime now /\
  cell r "chat_id" = VNull /\
  cell r "manifest_no" = VNull /\
  cell r "advance_amount" = VNull /\
  cell r "qty" = VNull.
Proof.
  intros Hs Hz Hd Hp r.
  assert (Hdoc : (<["doc_id" := VInt z]> (<["phone_no" := VText p]> ∅) : row)
                   !! "doc_id" = Some (VInt z)) by apply lookup_insert_eq.
  assert (Hph : (<["doc_id" := VInt z]> (<["phone_no" := VText p]> ∅) : row)
                  !! "phone_no" = Some (VText p)).
  { rewrite lookup_insert_ne by discriminate. apply lookup_insert_eq. }
  assert (Hno : forall k, k <> "doc_id" -> k <> "phone_no" ->
                  (<["doc_id" := VInt z]> (<["phone_no" := VText p]> ∅) : row) !! k = None).
  { intros k H1 H2. rewrite !lookup_insert_ne by congruence. apply lookup_empty. }
  assert (Hid : cell r "id" = VInt serial).
  { unfold r. rewrite cell_with_defaults, Hno by discriminate. reflexivity. }
  assert (Hst : cell r "status" = VText "pending").
  { unfold r. rewrite cell_with_defaults, Hno by discriminate. reflexivity. }
  assert (Hc : cell r "created_at" = VTime now).
  { unfold r. rewrite cell_with_defaults, Hno by discriminate. reflexivity. }
  assert (Hu : cell r "updated_at" = VTime now).
  { unfold r. rewrite cell_with_defaults, Hno by discriminate. reflexivity. }
  assert (Hchat : cell r "chat_id" = VNull).
  { unfold r. rewrite cell_with_defaults, Hno by discriminate. reflexivity. }
  assert (Hman : cell r "manifest_no" = VNull).
  { unfold r. rewrite cell_with_defaults, Hno by discriminate. reflexivity. }
  assert (Hadv : cell r "advance_amount" = VNull).
  { unfold r. rewrite cell_with_defaults, Hno by discriminate. reflexivity. }
  assert (Hq : cell r "qty" = VNull).
  { unfold r. rewrite cell_with_defaults, Hno by discriminate. reflexivity. }
  assert (Hd' : cell r "doc_id" = VInt z).
  { unfold r. rewrite cell_with_defaults, Hdoc. reflexivity. }
  assert (Hp' : cell r "phone_no" = VText p).
  { unfold r. rewrite cell_with_defaults, Hph. reflexivity. }
  split; [|tauto].
  apply accepts_columns. split; [|intros chk []].
  intros c Hin. simpl in Hin.
  repeat (destruct Hin as [<- | Hin]); try contradiction; simpl col_name;
    rewrite ?Hid, ?Hst, ?Hc, ?Hu, ?Hchat, ?Hman, ?Hadv, ?Hq, ?Hd', ?Hp';
    unfold column_accepts, reference_holds; simpl; split; try reflexivity.
  - apply andb_true_iff. split; [apply Z.leb_le | apply Z.ltb_lt]; lia.
  - apply andb_true_iff. split; [apply Z.leb_le | apply Z.ltb_lt]; lia.
  - apply bool_decide_eq_true. exact Hd.
  - apply Nat.leb_le. exact Hp.
Qed.

(** X20.  An [INSERT] into [telegram_pending_sessions] that gives just an
    existing document and a phone number of at most 20 characters, and
    draws [serial] for its id, goes through exactly when no row of the
    table has that id already; the row gets the serial as its id, the
    status 'pending' and the current time in both timestamps, and no chat,
    no manifest number and no amounts. *)
Theorem session_insert_minimal
    (docs : gset Z) (rows : list row) (now serial z : Z) (p : string) :
  - 2 ^ 31 <= serial < 2 ^ 31 ->
  - 2 ^ 31 <= z < 2 ^ 31 ->
  z ∈ docs ->
  (String.length p <= 20)%nat ->
  let r := with_defaults now serial telegram_pending_sessions
             (<["doc_id" := VInt z]> (<["phone_no" := VText p]> ∅)) in
  (inserts docs telegram_pending_sessions rows r = true <->
   Forall (fun r' => cell r' "id" <> VInt serial) rows) /\
  cell r "id" = VInt serial /\
  cell r "status" = VText "pending" /\
  cell r "created_at" = VTime now /\
  cell r "updated_at" = VTime now /\
  cell r "chat_id" = VNull /\
  cell r "manifest_no" = VNull /\
  cell r "advance_amount" = VNull /\
  cell r "qty" = VNull.
Proof.
  intros Hs Hz Hd Hp r.
  destruct (minimal_session_row docs now serial z p Hs Hz Hd Hp) as (Hacc & Hid & Hrest).
  fold r in Hacc, Hid, Hrest.
  split; [|split; [exact Hid | exact Hrest]].
  unfold inserts, key_free.
  change (primary_key telegram_pending_sessions) with "id".
  rewrite Hacc, Hid. simpl andb.
  rewrite forallb_forall, Forall_forall. split.
  - intros H r' Hin. apply list_elem_of_In in Hin. specialize (H r' Hin).
    apply negb_true_iff, bool_decide_eq_false in H. exact H.
  - intros H r' Hin. apply negb_true_iff, bool_decide_eq_false.
    apply H, list_elem_of_In, Hin.
Qed.

End InsertFacts.

Section MonitoringFacts.
Import JS MonitoringPage.

Lemma filterThrowing_In {A : Type} (keep : A -> option bool) (l kept : list A) :
  filterThrowing keep l = Some kept ->
  forall x, In x kept <-> In x l /\ keep x = Some true.
Proof.
  revert kept. induction l as [|y l IH]; intros kept H x; simpl in H.
  - injection H as <-. simpl. tauto.
  - destruct (keep y) as [b|] eqn:Hy; simpl in H; [|discriminate].
    destruct (filterThrowing keep l) as [kept'|]; simpl in H; [|discriminate].
    injection H as <-. specialize (IH kept' eq_refl x).
    destruct b; simpl; rewrite ?IH; split.
    + intros [-> | [H1 H2]]; [split; [left; reflexivity | exact Hy] | tauto].
    + intros [[-> | H1] H2]; [left; reflexivity | right; tauto].
    + tauto.
    + intros [[-> | H1] H2]; [congruence | tauto].
Qed.

Lemma filterThrowing_throws {A : Type} (keep : A -> option bool) (l : list A) (x : A) :
  In x l -> keep x = None -> filterThrowing keep l = None.
Proof.
  induction l as [|y l IH]; intros Hin Hx; [destruct Hin|].
  simpl. destruct Hin as [-> | Hin].
  - rewrite Hx. reflexivity.
  - rewrite (IH Hin Hx). destruct (keep y); reflexivity.
Qed.

Lemma toLowerCase_empty (s : string) : toLowerCase s = "" -> s = "".
Proof. destruct s; [reflexivity | discriminate]. Qed.

Lemma matchesFilter_true (field filter : string) (doc : gmap string value) :
  filter <> "" ->
  (matchesFilter field filter doc = Some true <->
   exists s, get doc field = Str s /\ toLowerCase s = toLowerCase filter).
Proof.
  intros Hf. unfold matchesFilter. split.
  - destruct (get doc field) as [| |b|n|s|repr]; simpl; try discriminate.
    + destruct b; discriminate.
    + destruct n as [| | |m e]; simpl; try discriminate.
      destruct (m =? 0); discriminate.
    + destruct (String.eqb s ""); simpl; [discriminate|].
      intros [= H]. apply String.eqb_eq in H. exists s. split; [reflexivity | exact H].
  - intros (s & -> & H). simpl.
    destruct (String.eqb_spec s "") as [->|Hs]; simpl.
    + simpl in H. symmetry in H. apply toLowerCase_empty in H. contradiction.
    + rewrite H, String.eqb_refl. reflexivity.
Qed.

Lemma filterByStatus_In (field filter : string)
    (data shown : list (gmap string value)) (doc : gmap string value) :
  filter <> "" ->
  filterByStatus field filter data = Some shown ->
  (In doc shown <->
   In doc data /\ exists s, get doc field = Str s /\ toLowerCase s = toLowerCase filter).
Proof.
  intros Hf. unfold filterByStatus. simpl.
  destruct (String.eqb_spec filter "") as [->|_]; [contradiction|]. simpl.
  intros H. rewrite (filterThrowing_In _ _ _ H), (matchesFilter_true _ _ _ Hf).
  reflexivity.
Qed.

(** X21.  With a data-extraction filter chosen, one document whose
    [data_extraction_status] is a truthy value that is not a string makes
    the filtering throw.  The list on the page then stays what it was
    before the load, and unless the load is silent the page says that it
    failed to load, though the request succeeded. *)
Theorem monitoring_filter_throws_on_non_text_status
    (sortByUploadedOn : list (gmap string value) -> list (gmap string value))
    (silent : bool) (filterDataExtraction filterErpEntry : string)
    (data : list (gmap string value)) (doc : gmap string value) (prev : Shown) :
  filterDataExtraction <> "" ->
  In doc data ->
  truthy (get doc "data_extraction_status") = true ->
  (forall s, get doc "data_extraction_status" <> Str s) ->
  clientSideFilter filterDataExtraction filterErpEntry data = None /\
  docs (fetchMonitoringData sortByUploadedOn silent filterDataExtraction
          filterErpEntry (Some data) prev) = docs prev /\
  message (fetchMonitoringData sortByUploadedOn silent filterDataExtraction
             filterErpEntry (Some data) prev)
  = (if silent then message prev else "❌ Failed to load monitoring data.") /\
  loading (fetchMonitoringData sortByUploadedOn silent filterDataExtraction
             filterErpEntry (Some data) prev)
  = (if silent then loading prev else false).
Proof.
  intros Hf Hin Ht Hs.
  assert (Hthrow : clientSideFilter filterDataExtraction filterErpEntry data = None).
  { unfold clientSideFilter, filterByStatus. simpl.
    destruct (String.eqb_spec filterDataExtraction "") as [->|_]; [contradiction|].
    simpl. rewrite (filterThrowing_throws _ data doc Hin); [reflexivity|].
    unfold matchesFilter. rewrite Ht. simpl.
    destruct (get doc "data_extraction_status"); try reflexivity.
    destruct (Hs s). reflexivity. }
  split; [exact Hthrow|].
  unfold fetchMonitoringData. simpl mbind. rewrite Hthrow.
  destruct silent; repeat split; reflexivity.
Qed.

(** X22.  With both filters chosen and no exception, the documents shown
    are exactly the documents of the answer whose two statuses are strings
    equal to the filters up to the case of the letters. *)
Theorem monitoring_filter_membership
    (filterDataExtraction filterErpEntry : string)
    (data shown : list (gmap string value)) (doc : gmap string value) :
  filterDataExtraction <> "" ->
  filterErpEntry <> "" ->
  clientSideFilter filterDataExtraction filterErpEntry data = Some shown ->
  (In doc shown <->
   In doc data /\
   exists s1 s2,
     get doc "data_extraction_status" = Str s1 /\
     toLowerCase s1 = toLowerCase filterDataExtraction /\
     get doc "erp_entry_status" = Str s2 /\
     toLowerCase s2 = toLowerCase filterErpEntry).
Proof.
  intros H1 H2 H. unfold clientSideFilter in H.
  destruct (filterByStatus "data_extraction_status" filterDataExtraction data)
    as [data1|] eqn:E1; simpl in H; [|discriminate].
  rewrite (filterByStatus_In _ _ _ _ doc H2 H), (filterByStatus_In _ _ _ _ doc H1 E1).
  split.
  - intros [[Hin (s1 & Hs1 & Hl1)] (s2 & Hs2 & Hl2)]. split; [exact Hin|].
    exists s1, s2. auto.
  - intros [Hin (s1 & s2 & Hs1 & Hl1 & Hs2 & Hl2)]. split; [split|]; eauto.
Qed.

(** X23.  Every document for which the vehicle-hire page offers a session
    start is among those the monitoring page shows for the same answer
    under the filters "Completed" and "Completed", in whatever case the
    filters are written. *)
Theorem vehicle_hire_documents_pass_completed_filters
    (filterDataExtraction filterErpEntry : string)
    (allDocs shown : list (gmap string value)) (doc : gmap string value) :
  toLowerCase filterDataExtraction = "completed" ->
  toLowerCase filterErpEntry = "completed" ->
  clientSideFilter filterDataExtraction filterErpEntry allDocs = Some shown ->
  VehicleHirePage.sessionStartOffered allDocs doc ->
  In doc shown.
Proof.
  intros H1 H2 H Hoff.
  assert (N1 : filterDataExtraction <> "") by (intros ->; discriminate).
  assert (N2 : filterErpEntry <> "") by (intros ->; discriminate).
  unfold VehicleHirePage.sessionStartOffered, VehicleHirePage.fetchVehicleHireData in Hoff.
  apply filter_In in Hoff as [Hin Hready].
  apply readyForVehicleHire_true in Hready as (Hde & Herp & _).
  unfold clientSideFilter in H.
  destruct (filterByStatus "data_extraction_status" filterDataExtraction allDocs)
    as [data1|] eqn:E1; simpl in H; [|discriminate].
  apply (filterByStatus_In _ _ _ _ doc N2 H). split.
  - apply (filterByStatus_In _ _ _ _ doc N1 E1). split; [exact Hin|].
    exists "Completed". split; [exact Hde | rewrite H1; reflexivity].
  - exists "Completed". split; [exact Herp | rewrite H2; reflexivity].
Qed.

End MonitoringFacts.

Section FixReviewFacts.
Import Json FixReviewPage.

(** Comparisons of character codes, as propositions. *)
Ltac code_arith :=
  repeat match goal with
         | H : _ = true |- _ =>
             first [ apply andb_true_iff in H; destruct H
                   | apply orb_true_iff in H; destruct H
                   | apply N.leb_le in H | apply N.eqb_eq in H ]
         | H : _ = false |- _ =>
             first [ apply andb_false_iff in H; destruct H
                   | apply orb_false_iff in H; destruct H
                   | apply N.leb_gt in H | apply N.eqb_neq in H ]
         end;
  repeat match goal with
         | |- _ = false =>
             first [ apply N.leb_gt | apply N.eqb_neq
                   | apply orb_false_iff; split
                   | apply andb_false_iff;
                     first [ left; apply N.leb_gt; lia | right; apply N.leb_gt; lia ] ]
         end;
  try lia.

Lemma ws1_not_alnum (a : ascii) : Text.ws1 a = true -> is_alnum a = false.
Proof. unfold Text.ws1, is_alnum. intros H. code_arith. Qed.

Lemma ws2_not_alnum (a b : ascii) :
  Text.ws2 a b = true -> is_alnum a = false /\ is_alnum b = false.
Proof. unfold Text.ws2, is_alnum. intros H. split; code_arith. Qed.

Lemma ws3_not_alnum (a b c : ascii) :
  Text.ws3 a b c = true ->
  is_alnum a = false /\ is_alnum b = false /\ is_alnum c = false.
Proof. unfold Text.ws3, is_alnum. intros H. repeat split; code_arith. Qed.

Lemma keepAlnum_strip (also : ascii -> bool) (s : string) :
  (forall a, also a = true -> is_alnum a = false) ->
  keepAlnum (Text.strip also s) = keepAlnum s.
Proof.
  intros Halso.
  remember (String.length s) as n eqn:Hn.
  revert s Hn. induction n as [n IH] using lt_wf_ind. intros s Hn.
  assert (IHs : forall t, (String.length t < String.length s)%nat ->
                          keepAlnum (Text.strip also t) = keepAlnum t).
  { intros t Ht. apply (IH (String.length t)); [lia | reflexivity]. }
  clear IH Hn.
  destruct s as [|a r]; [reflexivity|].
  cbn [Text.strip].
  destruct (Text.ws1 a || also a) eqn:E1.
  { assert (Ha : is_alnum a = false).
    { apply orb_true_iff in E1 as [E1 | E1];
        [apply ws1_not_alnum | apply Halso]; exact E1. }
    cbn [keepAlnum]. rewrite Ha. apply IHs. simpl. lia. }
  destruct r as [|b r2]; [reflexivity|].
  destruct (Text.ws2 a b) eqn:E2.
  { destruct (ws2_not_alnum _ _ E2) as [Ha Hb].
    cbn [keepAlnum]. rewrite Ha, Hb. apply IHs. simpl. lia. }
  assert (Hr : keepAlnum (String a (Text.strip also (String b r2)))
               = keepAlnum (String a (String b r2))).
  { cbn [keepAlnum]. rewrite (IHs (String b r2)) by (simpl; lia). reflexivity. }
  destruct r2 as [|c r3]; [exact Hr|].
  destruct (Text.ws3 a b c) eqn:E3; [|exact Hr].
  destruct (ws3_not_alnum _ _ _ E3) as (Ha & Hb & Hc).
  cbn [keepAlnum]. rewrite Ha, Hb, Hc. apply IHs. simpl. lia.
Qed.

Lemma keepAlnum_removeHyphens (s : string) :
  keepAlnum (removeHyphens s) = keepAlnum s.
Proof.
  induction s as [|a r IH]; [reflexivity|]. simpl.
  destruct (Text.code a =? 45)%N eqn:E.
  - assert (Ha : is_alnum a = false) by (unfold is_alnum; code_arith).
    rewrite Ha. exact IH.
  - simpl. rewrite IH. reflexivity.
Qed.

Lemma keepAlnum_spaceSeparators (s : string) :
  keepAlnum (spaceSeparators s) = keepAlnum s.
Proof.
  induction s as [|a r IH]; [reflexivity|]. simpl.
  destruct ((Text.code a =? 45) || (Text.code a =? 95))%N eqn:E.
  - assert (Ha : is_alnum a = false) by (unfold is_alnum; code_arith).
    rewrite Ha. change (is_alnum " ") with false. exact IH.
  - rewrite IH. reflexivity.
Qed.

Lemma lower_ascii_alnum (a : ascii) : is_alnum (JS.lower_ascii a) = is_alnum a.
Proof.
  unfold JS.lower_ascii.
  destruct ((65 <=? N_of_ascii a) && (N_of_ascii a <=? 90))%N eqn:E; [|reflexivity].
  assert (Hr : (65 <= N_of_ascii a <= 90)%N).
  { apply andb_true_iff in E as [E1 E2]. apply N.leb_le in E1, E2. lia. }
  unfold is_alnum, Text.code. rewrite N_ascii_embedding by lia.
  rewrite E.
  assert (L : ((97 <=? N_of_ascii a + 32) && (N_of_ascii a + 32 <=? 122))%N = true).
  { apply andb_true_iff. split; apply N.leb_le; lia. }
  rewrite L, !orb_true_r. reflexivity.
Qed.

Lemma lower_ascii_idem (a : ascii) :
  JS.lower_ascii (JS.lower_ascii a) = JS.lower_ascii a.
Proof.
  unfold JS.lower_ascii at 2.
  destruct ((65 <=? N_of_ascii a) && (N_of_ascii a <=? 90))%N eqn:E.
  - assert (Hr : (65 <= N_of_ascii a <= 90)%N).
    { apply andb_true_iff in E as [E1 E2]. apply N.leb_le in E1, E2. lia. }
    unfold JS.lower_ascii.
    rewrite N_ascii_embedding by lia.
    assert (L : ((65 <=? N_of_ascii a + 32) && (N_of_ascii a + 32 <=? 90))%N = false).
    { apply andb_false_iff. right. apply N.leb_gt. lia. }
    rewrite L, E. reflexivity.
  - unfold JS.lower_ascii. rewrite E. reflexivity.
Qed.

Lemma normalizeText_toLowerCase (s : string) :
  normalizeText (JS.toLowerCase s) = normalizeText s.
Proof.
  unfold normalizeText. induction s as [|a r IH]; [reflexivity|].
  simpl. rewrite lower_ascii_alnum.
  destruct (is_alnum a); simpl; [|exact IH].
  rewrite lower_ascii_idem, IH. reflexivity.
Qed.

Lemma uniq_In (seen l : list string) (x : string) : In x (uniq seen l) -> In x l.
Proof.
  revert seen. induction l as [|y l IH]; intros seen H; [destruct H|].
  simpl in H. destruct (existsb (String.eqb y) seen).
  - right. exact (IH _ H).
  - destruct H as [-> | H]; [left; reflexivity | right; exact (IH _ H)].
Qed.

Lemma variants_normalise (canonical v : string) :
  In v (variantsFor canonical) -> normalizeText v = normalizeText canonical.
Proof.
  intros H. apply uniq_In in H. simpl in H.
  destruct H as [<- | [<- | [<- | [<- | []]]]].
  - reflexivity.
  - unfold normalizeText.
    rewrite keepAlnum_removeHyphens. unfold Text.removeSpaces.
    rewrite keepAlnum_strip by discriminate. reflexivity.
  - unfold normalizeText. rewrite keepAlnum_spaceSeparators. reflexivity.
  - apply normalizeText_toLowerCase.
Qed.

Lemma candidates_collapse (canonical x : string) :
  existsb (String.eqb x) (map normalizeText (variantsFor canonical))
  = String.eqb x (normalizeText canonical).
Proof.
  destruct (String.eqb_spec x (normalizeText canonical)) as [->|Hne].
  - apply existsb_exists. exists (normalizeText canonical).
    split; [|apply String.eqb_refl].
    apply in_map. unfold variantsFor. simpl. left. reflexivity.
  - apply not_true_is_false. intros H. apply existsb_exists in H as (y & Hy & Hxy).
    apply String.eqb_eq in Hxy as <-.
    apply in_map_iff in Hy as (v & <- & Hv).
    apply Hne, variants_normalise, Hv.
Qed.

(** X24.  For the keys of [preferredOrder], the variants that
    [findKeyInSource] tries add nothing: all of them normalise to the same
    text as the key itself, so what it returns is the first key of the
    source, in the order of its entries, whose normalised text equals that
    of the canonical key. *)
Theorem findKeyInSource_first_match (sourceObj : Json.t) (canonicalKey : string) :
  In canonicalKey preferredOrder ->
  findKeyInSource sourceObj canonicalKey
  = if negb (truthy sourceObj) || negb (is_object sourceObj) then None
    else List.find
           (fun sk => String.eqb (normalizeText sk) (normalizeText canonicalKey))
           (map fst (entries_of sourceObj)).
Proof.
  intros _. unfold findKeyInSource.
  destruct (negb (truthy sourceObj) || negb (is_object sourceObj)); [reflexivity|].
  induction (map fst (entries_of sourceObj)) as [|sk keys IH]; [reflexivity|].
  cbn [List.find]. rewrite candidates_collapse, IH. reflexivity.
Qed.

Section FailedFacts.
Variable NumberToString : JS.number -> string.
Variable ObjectToString : Json.t -> string.

Local Abbreviation normKey := (normalizeKey NumberToString ObjectToString).
Local Abbreviation marks := (markAll NumberToString ObjectToString).

Lemma or_else_truthy (reason : Json.t) :
  truthy (or_else reason (Str "Failed validation")) = true.
Proof. unfold or_else. destruct (truthy reason) eqn:E; [exact E | reflexivity]. Qed.

Lemma mark_agree (m m' : Marks) (f : Json.t) :
  marks_agree m -> mark NumberToString ObjectToString m f = Some m' -> marks_agree m'.
Proof.
  intros [Hset Htruthy]. unfold mark.
  destruct (is_nullish f); [discriminate|]. cbv zeta.
  match goal with |- context [negb (String.eqb ?k "")] => set (n0 := k) end.
  destruct (negb (String.eqb n0 "")); intros [= <-]; [|split; assumption].
  split; simpl.
  - intros n. rewrite elem_of_union, elem_of_singleton, Hset.
    rewrite lookup_insert_is_Some. split.
    + intros [-> | H]; [left; reflexivity|].
      destruct (decide (n0 = n)) as [E|E]; [left; exact E | right; split; assumption].
    + intros [<- | [_ H]]; [left; reflexivity | right; exact H].
  - intros n v H. apply lookup_insert_Some in H as [[_ <-] | [_ H]].
    + apply or_else_truthy.
    + exact (Htruthy _ _ H).
Qed.

Lemma markAll_snoc (fields : list Json.t) (f : Json.t) :
  marks (fields ++ [f])
  = m ← marks fields; mark NumberToString ObjectToString m f.
Proof. unfold markAll. rewrite foldl_app. reflexivity. Qed.

Lemma markAll_agree (fields : list Json.t) (m : Marks) :
  marks fields = Some m -> marks_agree m.
Proof.
  revert m. induction fields as [|f fields IH] using rev_ind; intros m H.
  - injection H as <-. split; simpl.
    + intros n. rewrite lookup_empty. split; [set_solver | intros [? [=]]].
    + intros n v. rewrite lookup_empty. discriminate.
  - rewrite markAll_snoc in H.
    destruct (marks fields) as [m0|]; simpl in H; [|discriminate].
    exact (mark_agree _ _ _ (IH _ eq_refl) H).
Qed.

(** X25.  When the failed fields load, a field is marked as failed exactly
    when [getReason] finds a reason of the object's own for it, and that
    reason is truthy: the text "Field failed validation" that the form
    keeps for a failed field without a reason is never shown. *)
Theorem failed_field_has_reason
    (FailedFields : list Json.t) (m : Marks) (fieldLabel : Json.t) :
  marks FailedFields = Some m ->
  (isFailed NumberToString ObjectToString m fieldLabel = true <->
   exists v, getReason NumberToString ObjectToString m fieldLabel = Own v) /\
  (forall v, getReason NumberToString ObjectToString m fieldLabel = Own v ->
             truthy v = true).
Proof.
  intros H. destruct (markAll_agree _ _ H) as [Hset Htruthy].
  unfold isFailed, getReason. rewrite bool_decide_eq_true, Hset.
  destruct (failedMap m !! normKey fieldLabel) as [v|] eqn:E.
  - pose proof (Htruthy _ _ E) as Hv.
    assert (Hn : is_nullish v = false) by (destruct v; simpl in *; congruence).
    rewrite Hn. split.
    + split; [intros _; exists v; reflexivity | intros _; eexists; reflexivity].
    + intros v' [= <-]. exact Hv.
  - split.
    + split; [intros [? [=]]|].
      intros [v Hv]. destruct (String.eqb _ "constructor"); discriminate.
    + intros v Hv. destruct (String.eqb _ "constructor"); discriminate.
Qed.

(** X26.  One entry of [FailedFields] that is [null] makes the loop throw:
    no field is marked, whatever the other entries say. *)
Theorem failed_fields_throw_on_null (FailedFields : list Json.t) (f : Json.t) :
  In f FailedFields ->
  is_nullish f = true ->
  marks FailedFields = None.
Proof.
  intros Hin Hf.
  induction FailedFields as [|g fields IH] using rev_ind; [destruct Hin|].
  rewrite markAll_snoc. apply in_app_or in Hin as [Hin | [<- | []]].
  - rewrite (IH Hin). reflexivity.
  - destruct (marks fields); simpl; [|reflexivity].
    unfold mark. rewrite Hf. reflexivity.
Qed.

End FailedFacts.
End FixReviewFacts.

Section UploadFacts.
Import UploadPage.

Lemma newRecord_key (ts : Z) (i : nat) (f : File.t) :
  File.name f <> "" ->
  originalName (newRecord ts i f) ++ "|" ++ pretty (size (newRecord ts i f))
  = File.name f ++ "|" ++ pretty (File.size f).
Proof.
  intros Hn. simpl. unfold or_file.
  destruct (String.eqb_spec (File.name f) "") as [E|_]; [contradiction|].
  destruct (Z.eqb_spec (File.size f) 0) as [->|_]; reflexivity.
Qed.

Lemma imap_In {A B : Type} (g : nat -> A -> B) (l : list A) (x : A) :
  In x l -> exists i, In (g i x) (imap g l).
Proof.
  revert g. induction l as [|y l IH]; intros g H; [destruct H|].
  destruct H as [-> | H].
  - exists 0%nat. left. reflexivity.
  - destruct (IH (g ∘ S) H) as [i Hi]. exists (S i). right. exact Hi.
Qed.

Lemma filter_none {A : Type} (p : A -> bool) (l : list A) :
  (forall x, In x l -> p x = false) -> List.filter p l = [].
Proof.
  induction l as [|y l IH]; intros H; [reflexivity|].
  simpl. rewrite (H y) by (left; reflexivity).
  apply IH. intros x Hx. apply H. right. exact Hx.
Qed.

(** X27.  Picking the same files again adds nothing: after [addFiles], every
    picked file with a name is found among the records by its name and
    size, so a second [addFiles] with the same files, at whatever time,
    leaves the list as it is. *)
Theorem addFiles_again_adds_nothing
    (ts ts' : Z) (pickedFiles : list File.t) (prev : list FileRecord) :
  Forall (fun f => File.name f <> "") pickedFiles ->
  addFiles ts' pickedFiles (addFiles ts pickedFiles prev)
  = addFiles ts pickedFiles prev.
Proof.
  intros Hnames. rewrite Forall_forall in Hnames.
  set (once := addFiles ts pickedFiles prev).
  unfold addFiles at 1. cbv zeta.
  rewrite filter_none; [simpl; apply app_nil_r|].
  intros f Hf. apply negb_false_iff, existsb_exists.
  exists (File.name f ++ "|" ++ pretty (File.size f)).
  split; [|apply String.eqb_refl].
  unfold once, addFiles. cbv zeta. rewrite map_app. apply in_or_app.
  set (seen := map (fun r => originalName r ++ "|" ++ pretty (size r)) prev).
  destruct (existsb (String.eqb (File.name f ++ "|" ++ pretty (File.size f))) seen)
    eqn:E.
  - left. apply existsb_exists in E as (k & Hk & Hkf).
    apply String.eqb_eq in Hkf as ->. exact Hk.
  - right.
    assert (Hkept : In f (List.filter
              (fun f => negb (existsb
                 (String.eqb (File.name f ++ "|" ++ pretty (File.size f))) seen))
              pickedFiles)).
    { apply filter_In. split; [exact Hf | rewrite E; reflexivity]. }
    destruct (imap_In (newRecord ts) _ f Hkept) as [i Hi].
    apply in_map_iff. exists (newRecord ts i f).
    split; [apply newRecord_key, Hnames, list_elem_of_In, Hf | exact Hi].
Qed.

Lemma settle_keeps (a : Answer) (r : FileRecord) :
  id (settle a r) = id r /\ file (settle a r) = file r /\ settled (settle a r).
Proof.
  unfold settled. destruct a as [res | rm em]; simpl.
  - destruct (is_success _ && Json.truthy _); [simpl; auto|].
    destruct (is_success _); simpl; auto.
  - auto.
Qed.

Lemma progressed_keeps (pcts : list Z) (r : FileRecord) :
  id (fold_left (fun r pct => progressed pct r) pcts r) = id r /\
  file (fold_left (fun r pct => progressed pct r) pcts r) = file r.
Proof.
  revert r. induction pcts as [|pct pcts IH]; intros r; [split; reflexivity|].
  simpl. destruct (IH (progressed pct r)) as [H1 H2]. rewrite H1, H2.
  split; reflexivity.
Qed.

Lemma update_update (id0 : string) (f g : FileRecord -> FileRecord)
    (records : list FileRecord) :
  (forall r, id (f r) = id r) ->
  update id0 g (update id0 f records)
  = update id0 (fun r => g (f r)) records.
Proof.
  intros Hf. unfold update. rewrite map_map. apply map_ext. intros r.
  destruct (String.eqb (id r) id0) eqn:E; [|rewrite E; reflexivity].
  rewrite Hf, E. reflexivity.
Qed.

Lemma uploadSingleFile_map (u : Upload) (rec : FileRecord) (records : list FileRecord) :
  uploadSingleFile u rec records = map (touch u rec) records.
Proof.
  unfold uploadSingleFile. cbv zeta.
  assert (G : forall pcts (f : FileRecord -> FileRecord),
             (forall r, id (f r) = id r) ->
             fold_left (fun s pct => update (id rec) (progressed pct) s) pcts
               (update (id rec) f records)
             = update (id rec)
                 (fun r => fold_left (fun r pct => progressed pct r) pcts (f r))
                 records).
  { induction pcts as [|pct pcts IH]; intros f Hf; [reflexivity|].
    simpl. rewrite update_update by exact Hf.
    rewrite (IH (fun r => progressed pct (f r))); [reflexivity|].
    intros r. simpl. apply Hf. }
  rewrite (G (percentages u) started) by reflexivity.
  rewrite update_update.
  - reflexivity.
  - intros r. rewrite (proj1 (progressed_keeps _ _)). reflexivity.
Qed.

Lemma touch_keeps (u : Upload) (rec r : FileRecord) :
  id (touch u rec r) = id r /\ file (touch u rec r) = file r /\
  (status (touch u rec r) = status r \/ settled (touch u rec r)) /\
  (settled r -> settled (touch u rec r)) /\
  (id r = id rec -> settled (touch u rec r)).
Proof.
  unfold touch. destruct (String.eqb_spec (id r) (id rec)) as [E|E].
  - destruct (settle_keeps (answer u)
                (fold_left (fun r pct => progressed pct r) (percentages u) (started r)))
      as (H1 & H2 & H3).
    destruct (progressed_keeps (percentages u) (started r)) as [H4 H5].
    rewrite H1, H2, H4, H5. simpl. auto.
  - repeat split; auto. intros H. contradiction.
Qed.

Lemma uploadAll_settles (respond : nat -> Upload) (snapshot : list FileRecord) :
  forall (i : nat) (pre post : list FileRecord),
    Forall settled pre ->
    Forall2 (fun s r => id r = id s /\ (status r = status s \/ settled r))
            snapshot post ->
    Forall settled (uploadAll respond i snapshot (pre ++ post)) /\
    map id (uploadAll respond i snapshot (pre ++ post)) = map id (pre ++ post) /\
    map file (uploadAll respond i snapshot (pre ++ post)) = map file (pre ++ post).
Proof.
  induction snapshot as [|rec rest IH]; intros i pre post Hpre Hpost.
  - apply Forall2_nil_inv_l in Hpost as ->. rewrite app_nil_r. simpl. auto.
  - apply Forall2_cons_inv_l in Hpost as (r0 & post' & [Hid Hst] & Hpost & ->).
    assert (Hskip : settled r0 ->
              Forall settled (uploadAll respond (S i) rest (pre ++ r0 :: post')) /\
              map id (uploadAll respond (S i) rest (pre ++ r0 :: post'))
              = map id (pre ++ r0 :: post') /\
              map file (uploadAll respond (S i) rest (pre ++ r0 :: post'))
              = map file (pre ++ r0 :: post')).
    { intros H0. rewrite (cons_middle r0 pre post'), app_assoc.
      apply IH; [|exact Hpost].
      apply Forall_app. split; [exact Hpre | constructor; [exact H0 | constructor]]. }
    assert (Hrun :
              Forall settled (uploadAll respond (S i) rest
                                (uploadSingleFile (respond i) rec (pre ++ r0 :: post'))) /\
              map id (uploadAll respond (S i) rest
                        (uploadSingleFile (respond i) rec (pre ++ r0 :: post')))
              = map id (pre ++ r0 :: post') /\
              map file (uploadAll respond (S i) rest
                          (uploadSingleFile (respond i) rec (pre ++ r0 :: post')))
              = map file (pre ++ r0 :: post')).
    { rewrite uploadSingleFile_map, map_app. simpl.
      set (t := touch (respond i) rec).
      rewrite (cons_middle (t r0) (map t pre) (map t post')), app_assoc.
      destruct (IH (S i) (map t pre ++ [t r0])%list (map t post')) as (H1 & H2 & H3).
      - apply Forall_app. split.
        + apply Forall_map. eapply Forall_impl; [exact Hpre|].
          intros r Hr.
          destruct (touch_keeps (respond i) rec r) as (_ & _ & _ & K4 & _).
          apply K4, Hr.
        + constructor; [|constructor].
          destruct (touch_keeps (respond i) rec r0) as (_ & _ & _ & _ & K5).
          apply K5, Hid.
      - apply Forall2_fmap_r. eapply Forall2_impl; [exact Hpost|].
        intros s r [Hi Hs]. simpl.
        destruct (touch_keeps (respond i) rec r) as (K1 & _ & K3 & K4 & _).
        split; [exact (eq_trans K1 Hi)|].
        destruct Hs as [Hs | Hs]; [|right; apply K4, Hs].
        destruct K3 as [K3 | K3]; [left; exact (eq_trans K3 Hs) | right; exact K3].
      - split; [exact H1|]. rewrite H2, H3.
        rewrite <- app_assoc, <- !cons_middle, !map_app. simpl. rewrite !map_map.
        assert (Ki : forall r, id (t r) = id r)
          by (intros r; apply (proj1 (touch_keeps (respond i) rec r))).
        assert (Kf : forall r, file (t r) = file r)
          by (intros r; apply (proj1 (proj2 (touch_keeps (respond i) rec r)))).
        rewrite Ki, Kf.
        rewrite !(map_ext (fun r => id (t r)) id Ki).
        rewrite !(map_ext (fun r => file (t r)) file Kf).
        split; reflexivity. }
    simpl. destruct (status rec) eqn:Es; try exact Hrun.
    apply Hskip. destruct Hst as [Hst | Hst]; [|exact Hst].
    left. exact Hst.
Qed.

(** X28.  When [handleUpload] gets past its guard and every upload comes
    to an end, no file is left queued or uploading: each record is done or
    in error, and the list still holds the same files under the same ids,
    in the same order. *)
Theorem handleUpload_settles_every_file
    (selectedClient selectedFormat : string) (respond : nat -> Upload)
    (filesRecords : list FileRecord) :
  mayUpload selectedClient selectedFormat filesRecords = true ->
  let after := handleUpload selectedClient selectedFormat respond filesRecords in
  Forall (fun r => status r = done \/ status r = error) after /\
  map id after = map id filesRecords /\
  map file after = map file filesRecords.
Proof.
  intros Hgate after. unfold after, handleUpload. rewrite Hgate.
  apply (uploadAll_settles respond filesRecords 0 [] filesRecords); [constructor|].
  clear. induction filesRecords as [|r rest IH]; constructor; auto.
Qed.

End UploadFacts.

(** ** The further properties at concrete inputs *)

Lemma rows_refer_to_existing_documents_witness :
  exists z, Schema.cell Examples.odd_status_row "doc_id" = Schema.VInt z /\ z ∈ ({[ 42 ]} : gset Z).
Proof.
  assert (H : Schema.accepts {[ 42 ]} Schema.telegram_pending_sessions
                Examples.odd_status_row = true) by (vm_compute; reflexivity).
  exact (rows_refer_to_existing_documents {[ 42 ]} Schema.telegram_pending_sessions
           Examples.odd_status_row (or_introl eq_refl) H).
Defined.

Lemma session_amounts_may_overflow_ledger_witness :
  (Schema.accepts {[ 42 ]} Schema.telegram_pending_sessions
     (<["advance_amount" := Schema.VDec (10 ^ 12) 2]> Examples.odd_status_row) = true
   <-> Z.abs (10 ^ 12) < 10 ^ 15) /\
  (Schema.accepts {[ 42 ]} Schema.telegram_pending_sessions
     (<["qty" := Schema.VDec (10 ^ 12) 3]> Examples.odd_status_row) = true
   <-> Z.abs (10 ^ 12) < 10 ^ 15) /\
  (Schema.accepts {[ 42 ]} Schema.vehicle_hire
     (<["advance_amount" := Schema.VDec (10 ^ 12) 2]> Examples.negative_hire_row) = true
   <-> Z.abs (10 ^ 12) < 10 ^ 10) /\
  (Schema.accepts {[ 42 ]} Schema.vehicle_hire
     (<["qty" := Schema.VDec (10 ^ 12) 3]> Examples.negative_hire_row) = true
   <-> Z.abs (10 ^ 12) < 10 ^ 10).
Proof.
  assert (Hs : Schema.accepts {[ 42 ]} Schema.telegram_pending_sessions
                 Examples.odd_status_row = true) by (vm_compute; reflexivity).
  assert (Hl : Schema.accepts {[ 42 ]} Schema.vehicle_hire
                 Examples.negative_hire_row = true) by (vm_compute; reflexivity).
  exact (session_amounts_may_overflow_ledger {[ 42 ]} Examples.odd_status_row
           Examples.negative_hire_row (10 ^ 12) Hs Hl).
Defined.

Lemma login_returns_to_requested_page_witness :
  Web.to Samples.to_login = JS.Str "/login" /\
  LoginPage.navigation
    (LoginPage.handleSubmit Samples.numberText Samples.objectText Samples.stringify
       1000 (Web.state Samples.to_login) (LoginPage.Replied true (Json.Obj []))
       Samples.nobody)
  = Some {| Web.to := JS.Str "/monitoring"; Web.replace := true; Web.state := Web.NoState |}.
Proof.
  assert (Hne : "/monitoring" <> "") by discriminate.
  exact (login_returns_to_requested_page Samples.numberText Samples.objectText
           Samples.stringify Samples.nobody Samples.nobody true Samples.monitoring
           "/monitoring" Samples.to_login 1000 (Json.Obj []) eq_refl Hne
           (or_introl eq_refl)).
Defined.

Lemma failed_login_changes_nothing_witness :
  LoginPage.storage
    (LoginPage.handleSubmit Samples.numberText Samples.objectText Samples.stringify
       1000 Web.NoState (LoginPage.Replied false (Json.Obj [])) Samples.nobody)
  = Samples.nobody /\
  LoginPage.navigation
    (LoginPage.handleSubmit Samples.numberText Samples.objectText Samples.stringify
       1000 Web.NoState (LoginPage.Replied false (Json.Obj [])) Samples.nobody)
  = None /\
  LoginPage.error
    (LoginPage.handleSubmit Samples.numberText Samples.objectText Samples.stringify
       1000 Web.NoState (LoginPage.Replied false (Json.Obj [])) Samples.nobody)
  <> "" /\
  LoginPage.submitting
    (LoginPage.handleSubmit Samples.numberText Samples.objectText Samples.stringify
       1000 Web.NoState (LoginPage.Replied false (Json.Obj [])) Samples.nobody)
  = false.
Proof.
  assert (H : forall data, LoginPage.Replied false (Json.Obj []) <> LoginPage.Replied true data)
    by (intros data; discriminate).
  exact (failed_login_changes_nothing Samples.numberText Samples.objectText
           Samples.stringify 1000 Web.NoState (LoginPage.Replied false (Json.Obj []))
           Samples.nobody H).
Defined.

Lemma logout_needs_stale_stamp_or_expired_timer_witness :
  (exists lastActivity,
     Web.getItem "lastActivity" Samples.somebody = Some lastActivity /\
     lastActivity <> "" /\
     Samples.greater
       (Samples.minus (JS.of_Z 0) (Samples.wholeNumber lastActivity))
       (JS.of_Z IdleGuard.SESSION_TTL) = true)
  \/
  (exists evs1 h evs2 ev evs3,
     [IdleGuard.TimerDue 0; IdleGuard.Click 7200001]
     = (evs1 ++ IdleGuard.TimerDue h :: evs2 ++ ev :: evs3)%list /\
     IdleGuard.is_interaction ev = true /\
     is_Some (IdleGuard.timers (IdleGuard.run evs1 Samples.idle_start) !! h)).
Proof.
  assert (Hm : IdleGuard.firstRender Samples.wholeNumber Samples.minus Samples.greater
                 0 Samples.somebody = Some Samples.idle_start)
    by reflexivity.
  assert (Hout : StrictGuard.isAuthenticated
                   (IdleGuard.storage
                      (IdleGuard.run [IdleGuard.TimerDue 0; IdleGuard.Click 7200001]
                         Samples.idle_start)) = false)
    by (vm_compute; reflexivity).
  exact (logout_needs_stale_stamp_or_expired_timer Samples.wholeNumber Samples.minus
           Samples.greater 0 Samples.somebody Samples.idle_start
           [IdleGuard.TimerDue 0; IdleGuard.Click 7200001] Hm Hout).
Defined.

(** A stamp of time 0 read one millisecond after [SESSION_TTL] logs the
    user out when the guard mounts, before any event; read at
    [SESSION_TTL] sharp it does not. *)
Lemma stale_stamp_logs_out_at_mount :
  (StrictGuard.isAuthenticated ∘ IdleGuard.storage)
    <$> IdleGuard.firstRender Samples.wholeNumber Samples.minus Samples.greater
          7200001 Samples.returning = Some false /\
  (StrictGuard.isAuthenticated ∘ IdleGuard.storage)
    <$> IdleGuard.firstRender Samples.wholeNumber Samples.minus Samples.greater
          7200000 Samples.returning = Some true.
Proof. split; vm_compute; reflexivity. Qed.

Lemma idle_logout_loses_place_witness :
  StrictGuard.isAuthenticated
    (IdleGuard.storage
       (IdleGuard.react (IdleGuard.expireSession Samples.idle_start) (IdleGuard.Click 5)))
  = false /\
  Web.getItem "authToken"
    (IdleGuard.storage
       (IdleGuard.react (IdleGuard.expireSession Samples.idle_start) (IdleGuard.Click 5)))
  = None /\
  Web.sessionStorage
    (IdleGuard.storage
       (IdleGuard.react (IdleGuard.expireSession Samples.idle_start) (IdleGuard.Click 5)))
  = ∅ /\
  exists n,
    IdleGuard.navigations
      (IdleGuard.react (IdleGuard.expireSession Samples.idle_start) (IdleGuard.Click 5))
    = (IdleGuard.navigations (IdleGuard.expireSession Samples.idle_start) ++ [n])%list /\
    Web.to n = JS.Str "/login" /\
    LoginPage.redirectTo (Web.state n) = JS.Str "/dashboard".
Proof.
  exact (idle_logout_loses_place (IdleGuard.expireSession Samples.idle_start)
           (IdleGuard.Click 5) eq_refl eq_refl).
Defined.

Lemma inactivity_timer_matches_stamp_witness :
  exists t h,
    Web.getItem "lastActivity"
      (IdleGuard.storage
         (IdleGuard.run [IdleGuard.Click 1000; IdleGuard.VisibilityChange true 2000]
            Samples.idle_start))
    = Some (pretty t) /\
    IdleGuard.inactivityTimer
      (IdleGuard.run [IdleGuard.Click 1000; IdleGuard.VisibilityChange true 2000]
         Samples.idle_start)
    = Some h /\
    match IdleGuard.timers
            (IdleGuard.run [IdleGuard.Click 1000; IdleGuard.VisibilityChange true 2000]
               Samples.idle_start) !! h with
    | Some due => due = t + IdleGuard.SESSION_TTL
    | None =>
        IdleGuard.sessionExpired
          (IdleGuard.run [IdleGuard.Click 1000; IdleGuard.VisibilityChange true 2000]
             Samples.idle_start) = true
    end.
Proof.
  assert (Hm : IdleGuard.mount 0 Samples.somebody = Some Samples.idle_start)
    by reflexivity.
  exact (inactivity_timer_matches_stamp 0 Samples.somebody Samples.idle_start
           [IdleGuard.Click 1000; IdleGuard.VisibilityChange true 2000] Hm).
Defined.

Lemma session_insert_needs_document_and_phone_witness :
  Schema.accepts {[ 42 ]} Schema.telegram_pending_sessions
    (Schema.with_defaults 100 1 Schema.telegram_pending_sessions
       {[ "phone_no" := Schema.VText "9990001111" ]}) = false.
Proof.
  assert (H : ({[ "phone_no" := Schema.VText "9990001111" ]} : Schema.row) !! "doc_id" = None)
    by (vm_compute; reflexivity).
  exact (session_insert_needs_document_and_phone {[ 42 ]} 100 1
           {[ "phone_no" := Schema.VText "9990001111" ]} (or_introl H)).
Defined.

Lemma session_insert_minimal_witness :
  let r := Schema.with_defaults 100 2 Schema.telegram_pending_sessions
             (<["doc_id" := Schema.VInt 42]>
                (<["phone_no" := Schema.VText "9990001111"]> ∅)) in
  (Schema.inserts {[ 42 ]} Schema.telegram_pending_sessions
     [Examples.odd_status_row] r = true <->
   Forall (fun r' => Schema.cell r' "id" <> Schema.VInt 2) [Examples.odd_status_row]) /\
  Schema.cell r "id" = Schema.VInt 2 /\
  Schema.cell r "status" = Schema.VText "pending" /\
  Schema.cell r "created_at" = Schema.VTime 100 /\
  Schema.cell r "updated_at" = Schema.VTime 100 /\
  Schema.cell r "chat_id" = Schema.VNull /\
  Schema.cell r "manifest_no" = Schema.VNull /\
  Schema.cell r "advance_amount" = Schema.VNull /\
  Schema.cell r "qty" = Schema.VNull.
Proof.
  assert (H1 : - 2 ^ 31 <= 2 < 2 ^ 31) by (split; [discriminate | reflexivity]).
  assert (H2 : - 2 ^ 31 <= 42 < 2 ^ 31) by (split; [discriminate | reflexivity]).
  assert (H3 : 42 ∈ ({[ 42 ]} : gset Z)) by (apply elem_of_singleton; reflexivity).
  assert (H4 : (String.length "9990001111" <= 20)%nat) by (simpl; lia).
  exact (session_insert_minimal {[ 42 ]} [Examples.odd_status_row] 100 2 42
           "9990001111" H1 H2 H3 H4).
Defined.

Lemma monitoring_filter_throws_on_non_text_status_witness :
  MonitoringPage.clientSideFilter "Completed" ""
    [Samples.ready_doc; Samples.numbered_doc] = None /\
  MonitoringPage.docs
    (MonitoringPage.fetchMonitoringData Samples.unsorted false "Completed" ""
       (Some [Samples.ready_doc; Samples.numbered_doc]) Samples.first_load)
  = MonitoringPage.docs Samples.first_load /\
  MonitoringPage.message
    (MonitoringPage.fetchMonitoringData Samples.unsorted false "Completed" ""
       (Some [Samples.ready_doc; Samples.numbered_doc]) Samples.first_load)
  = (if false then MonitoringPage.message Samples.first_load
     else "❌ Failed to load monitoring data.") /\
  MonitoringPage.loading
    (MonitoringPage.fetchMonitoringData Samples.unsorted false "Completed" ""
       (Some [Samples.ready_doc; Samples.numbered_doc]) Samples.first_load)
  = (if false then MonitoringPage.loading Samples.first_load else false).
Proof.
  assert (H1 : "Completed" <> "") by discriminate.
  assert (H2 : In Samples.numbered_doc [Samples.ready_doc; Samples.numbered_doc])
    by (right; left; reflexivity).
  assert (H3 : JS.truthy (JS.get Samples.numbered_doc "data_extraction_status") = true)
    by (vm_compute; reflexivity).
  assert (H4 : forall s, JS.get Samples.numbered_doc "data_extraction_status" <> JS.Str s)
    by (intros s; vm_compute; discriminate).
  exact (monitoring_filter_throws_on_non_text_status Samples.unsorted false
           "Completed" "" [Samples.ready_doc; Samples.numbered_doc]
           Samples.numbered_doc Samples.first_load H1 H2 H3 H4).
Defined.

Lemma sample_filtered :
  MonitoringPage.clientSideFilter "completed" "COMPLETED"
    [Samples.ready_doc; Samples.waiting_doc] = Some [Samples.ready_doc].
Proof.
  assert (A1 : MonitoringPage.matchesFilter "data_extraction_status" "completed"
                 Samples.ready_doc = Some true) by (vm_compute; reflexivity).
  assert (A2 : MonitoringPage.matchesFilter "data_extraction_status" "completed"
                 Samples.waiting_doc = Some true) by (vm_compute; reflexivity).
  assert (A3 : MonitoringPage.matchesFilter "erp_entry_status" "COMPLETED"
                 Samples.ready_doc = Some true) by (vm_compute; reflexivity).
  assert (A4 : MonitoringPage.matchesFilter "erp_entry_status" "COMPLETED"
                 Samples.waiting_doc = Some false) by (vm_compute; reflexivity).
  unfold MonitoringPage.clientSideFilter, MonitoringPage.filterByStatus.
  change (JS.truthy (JS.Str "completed")) with true.
  change (JS.truthy (JS.Str "COMPLETED")) with true.
  cbn [MonitoringPage.filterThrowing]. rewrite A1, A2.
  cbn [mbind option_bind MonitoringPage.filterThrowing]. rewrite A3, A4.
  reflexivity.
Qed.

Lemma monitoring_filter_membership_witness :
  In Samples.ready_doc [Samples.ready_doc] <->
  In Samples.ready_doc [Samples.ready_doc; Samples.waiting_doc] /\
  exists s1 s2,
    JS.get Samples.ready_doc "data_extraction_status" = JS.Str s1 /\
    JS.toLowerCase s1 = JS.toLowerCase "completed" /\
    JS.get Samples.ready_doc "erp_entry_status" = JS.Str s2 /\
    JS.toLowerCase s2 = JS.toLowerCase "COMPLETED".
Proof.
  assert (H1 : "completed" <> "") by discriminate.
  assert (H2 : "COMPLETED" <> "") by discriminate.
  pose proof sample_filtered as H3.
  exact (monitoring_filter_membership "completed" "COMPLETED"
           [Samples.ready_doc; Samples.waiting_doc] [Samples.ready_doc]
           Samples.ready_doc H1 H2 H3).
Defined.

Lemma vehicle_hire_documents_pass_completed_filters_witness :
  In Samples.ready_doc [Samples.ready_doc].
Proof.
  pose proof sample_filtered as H3.
  assert (H4 : VehicleHirePage.sessionStartOffered
                 [Samples.ready_doc; Samples.waiting_doc] Samples.ready_doc).
  { unfold VehicleHirePage.sessionStartOffered, VehicleHirePage.fetchVehicleHireData.
    apply filter_In. split; [left; reflexivity | vm_compute; reflexivity]. }
  exact (vehicle_hire_documents_pass_completed_filters "completed" "COMPLETED"
           [Samples.ready_doc; Samples.waiting_doc] [Samples.ready_doc]
           Samples.ready_doc eq_refl eq_refl H3 H4).
Defined.

Lemma findKeyInSource_first_match_witness :
  FixReviewPage.findKeyInSource
    (Json.Obj [("branch", Json.Str "Chennai"); ("invoice_no", Json.Str "A-1")])
    "Invoice No"
  = if negb (Json.truthy
               (Json.Obj [("branch", Json.Str "Chennai"); ("invoice_no", Json.Str "A-1")]))
       || negb (Json.is_object
                  (Json.Obj [("branch", Json.Str "Chennai"); ("invoice_no", Json.Str "A-1")]))
    then None
    else List.find
           (fun sk => String.eqb (FixReviewPage.normalizeText sk)
                        (FixReviewPage.normalizeText "Invoice No"))
           (map fst
              (Json.entries_of
                 (Json.Obj [("branch", Json.Str "Chennai"); ("invoice_no", Json.Str "A-1")]))).
Proof.
  assert (H : In "Invoice No" FixReviewPage.preferredOrder)
    by (unfold FixReviewPage.preferredOrder; simpl; tauto).
  exact (findKeyInSource_first_match
           (Json.Obj [("branch", Json.Str "Chennai"); ("invoice_no", Json.Str "A-1")])
           "Invoice No" H).
Defined.

Lemma failed_field_has_reason_witness :
  (FixReviewPage.isFailed Samples.numberText Samples.objectText Samples.one_mark
     (Json.Str "Invoice No") = true <->
   exists v, FixReviewPage.getReason Samples.numberText Samples.objectText
               Samples.one_mark (Json.Str "Invoice No") = FixReviewPage.Own v) /\
  (forall v, FixReviewPage.getReason Samples.numberText Samples.objectText
               Samples.one_mark (Json.Str "Invoice No") = FixReviewPage.Own v ->
             Json.truthy v = true).
Proof.
  assert (H : FixReviewPage.markAll Samples.numberText Samples.objectText
                Samples.one_failed = Some Samples.one_mark) by reflexivity.
  exact (failed_field_has_reason Samples.numberText Samples.objectText
           Samples.one_failed Samples.one_mark (Json.Str "Invoice No") H).
Defined.

Lemma failed_fields_throw_on_null_witness :
  FixReviewPage.markAll Samples.numberText Samples.objectText
    (Samples.one_failed ++ [Json.Null]) = None.
Proof.
  assert (H : In Json.Null (Samples.one_failed ++ [Json.Null]))
    by (right; left; reflexivity).
  exact (failed_fields_throw_on_null Samples.numberText Samples.objectText
           (Samples.one_failed ++ [Json.Null]) Json.Null H eq_refl).
Defined.

Lemma addFiles_again_adds_nothing_witness :
  UploadPage.addFiles 2000 [Samples.scan] (UploadPage.addFiles 1000 [Samples.scan] [])
  = UploadPage.addFiles 1000 [Samples.scan] [].
Proof.
  assert (H : Forall (fun f => UploadPage.File.name f <> "") [Samples.scan])
    by (constructor; [discriminate | constructor]).
  exact (addFiles_again_adds_nothing 1000 2000 [Samples.scan] [] H).
Defined.

Lemma handleUpload_settles_every_file_witness :
  let after := UploadPage.handleUpload "7" "3" Samples.goes_well
                 (UploadPage.addFiles 1000 [Samples.scan] []) in
  Forall (fun r => UploadPage.status r = UploadPage.done
                   \/ UploadPage.status r = UploadPage.error) after /\
  map UploadPage.id after = map UploadPage.id (UploadPage.addFiles 1000 [Samples.scan] []) /\
  map UploadPage.file after
  = map UploadPage.file (UploadPage.addFiles 1000 [Samples.scan] []).
Proof.
  assert (H : UploadPage.mayUpload "7" "3" (UploadPage.addFiles 1000 [Samples.scan] [])
              = true) by (vm_compute; reflexivity).
  exact (handleUpload_settles_every_file "7" "3" Samples.goes_well
           (UploadPage.addFiles 1000 [Samples.scan] []) H).
Defined.
